(** * CLUEstering: the clustering engine and its append buffer

    A shallow embedding of
      - [CLUEstering/alpaka/DataFormats/alpaka/Vec.h]  (class [clue::Vec<T>])
      - [CLUEstering/include/Clustering.h]             (class [ClusteringAlgo<Ndim>])
    and the properties of the specification that are settled on it.

    Conventions of the embedding.
      - [float] is IEEE-754 binary32, taken from the Standard Library's
        [SpecFloat] at precision 24 and maximal exponent 128; comparisons are
        the IEEE ones (every comparison with a NaN is false).
      - [int] and [uint32_t] values are integers in [Z]; the wrap-around of
        [uint32_t] arithmetic and the conversion to [int] are written out.
      - [std::vector<T>] is [list T]; an access outside the vector is
        undefined behaviour.
      - A C++ computation yields an [outcome]: a value, an exception that
        leaves the function, undefined behaviour, or (for the one unbounded
        loop) exhaustion of the step budget given to the model. *)

From Stdlib Require Import ZArith Lia Bool String.
From Stdlib Require Import Floats.SpecFloat.
From stdpp Require Import base option list.

Open Scope Z_scope.

(** ** Outcomes of C++ computations *)

Inductive exn : Type :=
| ExnInt (v : Z)        (* [throw 100;] *)
| ExnLength.            (* [std::length_error] of [std::vector::resize] *)

Inductive outcome (A : Type) : Type :=
| Ret (a : A)
| Throw (e : exn)
| Undef
| OutOfFuel.
Arguments Ret {A} a.
Arguments Throw {A} e.
Arguments Undef {A}.
Arguments OutOfFuel {A}.

#[global] Instance outcome_ret : MRet outcome := fun A a => Ret a.
#[global] Instance outcome_bind : MBind outcome := fun A B f m =>
  match m with
  | Ret a => f a
  | Throw e => Throw e
  | Undef => Undef
  | OutOfFuel => OutOfFuel
  end.

(** an exception reaches the caller *)
Definition throws {A} (o : outcome A) : bool :=
  match o with
  | Throw _ => true
  | _ => false
  end.

(** the computation came to an end without an exception: it returned, or its
    behaviour is undefined *)
Definition settled {A} (o : outcome A) : bool :=
  match o with
  | Ret _ | Undef => true
  | _ => false
  end.

(** [try { body } catch (...) { handler }] *)
Definition try_catch {A} (body : outcome A) (handler : exn -> outcome A) : outcome A :=
  match body with
  | Throw e => handler e
  | o => o
  end.

(** [for (x : xs) body], threading the state [s] *)
Fixpoint for_each {S X : Type} (xs : list X) (body : X -> S -> outcome S) (s : S)
  : outcome S :=
  match xs with
  | [] => Ret s
  | x :: xs' => s' ← body x s; for_each xs' body s'
  end.

(** the indices [0, 1, ..., n-1] of [for (int i{}; i < n; ++i)] *)
Definition range (n : Z) : list Z := Z.of_nat <$> seq 0 (Z.to_nat n).

(** [v[i]] on a [std::vector]: undefined outside [0, size) *)
Definition vget {A} (v : list A) (i : Z) : outcome A :=
  if i <? 0 then Undef
  else match v !! Z.to_nat i with
       | Some x => Ret x
       | None => Undef
       end.

(** [v[i] = x] on a [std::vector] *)
Definition vset {A} (v : list A) (i : Z) (x : A) : outcome (list A) :=
  if i <? 0 then Undef
  else if i <? Z.of_nat (length v) then Ret (<[Z.to_nat i := x]> v)
  else Undef.

(** [v.resize(n, x)]: truncates or pads with copies of [x]; elements that are
    already there keep their values.  A negative [int] converts to a
    [size_type] beyond [max_size()], and [resize] throws. *)
Definition resize {A} (v : list A) (n : Z) (x : A) : outcome (list A) :=
  if n <? 0 then Throw ExnLength
  else Ret (take (Z.to_nat n) v ++ replicate (Z.to_nat n - length v)%nat x).

(** ** binary32 *)

Module F32.
Definition prec : Z := 24.
Definition emax : Z := 128.
Definition float : Type := spec_float.

Definition zero : float := S754_zero false.
Definition infinity : float := S754_infinity false.
(** [std::numeric_limits<float>::max()] *)
Definition FLT_MAX : float := SFmax_float prec emax.

Definition add : float -> float -> float := SFadd prec emax.
Definition sub : float -> float -> float := SFsub prec emax.
Definition mul : float -> float -> float := SFmul prec emax.
Definition div : float -> float -> float := SFdiv prec emax.
Definition sqrt : float -> float := SFsqrt prec emax.
Definition opp : float -> float := SFopp.

Definition ltb : float -> float -> bool := SFltb.
Definition leb : float -> float -> bool := SFleb.
Definition eqb : float -> float -> bool := SFeqb.
Definition gtb (x y : float) : bool := SFltb y x.
Definition geb (x y : float) : bool := SFleb y x.

(** conversion of an [int] to [float] *)
Definition of_Z (z : Z) : float := binary_normalize prec emax z 0 false.

(** [double] (binary64) on the same representation: its arithmetic, the
    conversion of a [float] to [double], which is exact, and the rounding of
    a [double] to [float] *)
Definition double : Type := spec_float.
Definition dadd : double -> double -> double := SFadd 53 1024.
Definition dmul : double -> double -> double := SFmul 53 1024.
Definition ddiv : double -> double -> double := SFdiv 53 1024.
Definition to_double (x : float) : double := x.
Definition of_double (x : double) : float :=
  match x with
  | S754_finite s m e => binary_round prec emax s m e
  | _ => x
  end.
(** conversion of an [int] to [double] *)
Definition double_of_Z (z : Z) : double := binary_normalize 53 1024 z 0 false.

Definition is_nan (x : float) : bool :=
  match x with S754_nan => true | _ => false end.

(** The IEEE order, read on a key: comparing two non-NaN values is
    comparing their keys lexicographically. *)
Definition key (x : float) : Z * Z * Z :=
  match x with
  | S754_zero _ => (0, 0, 0)
  | S754_nan => (0, 0, 0)
  | S754_infinity s => (if s then -2 else 2, 0, 0)
  | S754_finite s m e => if s then (-1, - e, Z.neg m) else (1, e, Z.pos m)
  end.

Definition lt3 (a b : Z * Z * Z) : Prop :=
  let '(a1, a2, a3) := a in
  let '(b1, b2, b3) := b in
  a1 < b1 \/ (a1 = b1 /\ (a2 < b2 \/ (a2 = b2 /\ a3 < b3))).
End F32.

Abbreviation float := F32.float.
Abbreviation double := F32.double.

(** ** Vec.h: the fixed-capacity append buffer *)

Module VecBuf.

Definition two32 : Z := 2 ^ 32.
(** [uint32_t] arithmetic wraps modulo 2^32 *)
Definition wrap32 (z : Z) : Z := z mod two32.
(** conversion of a [uint32_t] to [int] *)
Definition to_int (z : Z) : Z := if z <? 2 ^ 31 then z else z - two32.

(** [m_data] points to an array obtained from [new T[size]]: the model
    keeps the array itself, one cell per element, [None] for a cell that
    was never written. *)
Record Vec (T : Type) : Type := mkVec {
  m_data : list (option T);
  m_size : Z;
  m_capacity : Z
}.
Arguments mkVec {T} _ _ _.
Arguments m_data {T} _.
Arguments m_size {T} _.
Arguments m_capacity {T} _.

Section Ops.
Context {T : Type}.

(** [Vec(uint32_t size)] *)
Definition Vec_new (size : Z) : Vec T :=
  mkVec (replicate (Z.to_nat size) None) 0 size.

(** [m_data[i] = element]: a write outside the array is undefined *)
Definition store (d : list (option T)) (i : Z) (element : T)
  : outcome (list (option T)) :=
  vset d i (Some element).

Definition push_back_unsafe (element : T) (v : Vec T) : outcome (Z * Vec T) :=
  let previousSize := m_size v in
  let v := mkVec (m_data v) (wrap32 (m_size v + 1)) (m_capacity v) in
  if previousSize <? m_capacity v then
    d ← store (m_data v) previousSize element;
    Ret (to_int previousSize, mkVec d (m_size v) (m_capacity v))
  else
    let v := mkVec (m_data v) (wrap32 (m_size v - 1)) (m_capacity v) in
    Ret (-1, v).

(** [alpaka::atomicAdd(acc, &m_size, 1, ...)]: returns the old value *)
Definition atomicAdd (k : Z) (v : Vec T) : Z * Vec T :=
  (m_size v, mkVec (m_data v) (wrap32 (m_size v + k)) (m_capacity v)).
Definition atomicSub (k : Z) (v : Vec T) : Z * Vec T :=
  (m_size v, mkVec (m_data v) (wrap32 (m_size v - k)) (m_capacity v)).

(** [push_back(acc, element)], one call run to completion.  The
    [assert] in the overflow branch tests a string literal, which is
    never null: it does nothing. *)
Definition push_back (element : T) (v : Vec T) : outcome (Z * Vec T) :=
  let '(previousSize, v) := atomicAdd 1 v in
  if previousSize <? m_capacity v then
    d ← store (m_data v) previousSize element;
    Ret (to_int previousSize, mkVec d (m_size v) (m_capacity v))
  else
    let '(_, v) := atomicSub 1 v in
    Ret (-1, v).

Definition size (v : Vec T) : Z := m_size v.
Definition capacity (v : Vec T) : Z := m_capacity v.
Definition empty (v : Vec T) : bool := 0 =? m_size v.
Definition full (v : Vec T) : bool := m_capacity v =? m_size v.

Definition reset (v : Vec T) : Vec T := mkVec (m_data v) 0 (m_capacity v).

(** [resize(int size)]: the [int] converts to [uint32_t] *)
Definition resize_size (size : Z) (v : Vec T) : Vec T :=
  mkVec (m_data v) (wrap32 size) (m_capacity v).

(** [resize(T* data, int size)] *)
Definition resize_data (data : list (option T)) (size : Z) (v : Vec T) : Vec T :=
  mkVec data (wrap32 size) (m_capacity v).

(** [reserve(uint32_t size)] *)
Definition reserve (size : Z) (v : Vec T) : Vec T :=
  let v := mkVec (m_data v) (m_size v) size in
  let new_data := replicate (Z.to_nat size) None in
  mkVec new_data (m_size v) (m_capacity v).

(** What the class maintains between calls: both counters are
    [uint32_t] values and [m_data] is an array of [m_capacity] cells
    (as [Vec(size)] and [reserve] leave it). *)
Definition wf (v : Vec T) : Prop :=
  0 <= m_size v < two32 /\ 0 <= m_capacity v < two32 /\
  Z.of_nat (length (m_data v)) = m_capacity v.

(** [k] appends in a row, as a caller that fills the buffer does *)
Definition fill_from (xs : list T) (v : Vec T) : outcome (Vec T) :=
  for_each xs (fun x v => '(_, v') ← push_back_unsafe x v; Ret v') v.

(** the cells of the range from [begin()] to [end()]: the first [m_size]
    cells of the array *)
Definition cells (v : Vec T) : list (option T) :=
  take (Z.to_nat (m_size v)) (m_data v).

(** a client's calls of the members that move [m_size], run one after the
    other on one buffer *)
Inductive call : Type :=
| PushBack (element : T)
| PushBackUnsafe (element : T)
| Reset.

Definition do_call (c : call) (v : Vec T) : outcome (Vec T) :=
  match c with
  | PushBack element => '(_, v') ← push_back element v; Ret v'
  | PushBackUnsafe element => '(_, v') ← push_back_unsafe element v; Ret v'
  | Reset => Ret (reset v)
  end.

Definition do_calls (cs : list call) (v : Vec T) : outcome (Vec T) :=
  for_each cs do_call v.
End Ops.
Arguments call : clear implicits.
Arguments PushBack {T} element.
Arguments PushBackUnsafe {T} element.
Arguments Reset {T}.
End VecBuf.

(** ** Clustering.h *)

(** [struct domain_t] *)
Module Domain.
Record domain_t : Type := mk {
  min : float;
  max : float
}.
(** the default member initialisers *)
Definition default : domain_t :=
  mk (F32.opp F32.FLT_MAX) F32.FLT_MAX.
Definition empty (d : domain_t) : bool :=
  F32.eqb (min d) (F32.opp F32.FLT_MAX) && F32.eqb (max d) F32.FLT_MAX.
End Domain.

(** Modelled from the spec: [Point.h] is not among the sources.  [Points<Ndim>]
    carries the fields that [Clustering.h] reads and writes and that the
    data model of the specification names; [clusterIndex] and [isSeed] are
    both [std::vector<int>], as [makeClusters] returns them together. *)
Module Points.
Record t : Type := mk {
  coordinates_ : list (list float);
  weight : list float;
  rho : list float;
  delta : list float;
  nearestHigher : list Z;
  followers : list (list Z);
  clusterIndex : list Z;
  isSeed : list Z;
  n : Z
}.
(** a default-constructed container *)
Definition fresh : t := mk [] [] [] [] [] [] [] [] 0.
Definition set_rho (p : t) (v : list float) : t :=
  mk (coordinates_ p) (weight p) v (delta p) (nearestHigher p) (followers p)
     (clusterIndex p) (isSeed p) (n p).
Definition set_delta (p : t) (v : list float) : t :=
  mk (coordinates_ p) (weight p) (rho p) v (nearestHigher p) (followers p)
     (clusterIndex p) (isSeed p) (n p).
Definition set_nearestHigher (p : t) (v : list Z) : t :=
  mk (coordinates_ p) (weight p) (rho p) (delta p) v (followers p)
     (clusterIndex p) (isSeed p) (n p).
Definition set_followers (p : t) (v : list (list Z)) : t :=
  mk (coordinates_ p) (weight p) (rho p) (delta p) (nearestHigher p) v
     (clusterIndex p) (isSeed p) (n p).
Definition set_clusterIndex (p : t) (v : list Z) : t :=
  mk (coordinates_ p) (weight p) (rho p) (delta p) (nearestHigher p) (followers p)
     v (isSeed p) (n p).
Definition set_isSeed (p : t) (v : list Z) : t :=
  mk (coordinates_ p) (weight p) (rho p) (delta p) (nearestHigher p) (followers p)
     (clusterIndex p) v (n p).
End Points.

(** The collaborators of the engine whose code is not among the sources:
    the grid of [Tiles.h], [deltaPhi] of [deltaPhi.h] and the library's
    [std::pow] on [double].  Everything below holds for whatever they
    compute. *)
Class Collaborators : Type := {
  (** the template parameter [uint8_t Ndim] *)
  Ndim : Z;
  (** [tiles<Ndim>] with its public members [nTiles], [tilesSize], [minMax] *)
  tiles : Type;
  tiles_new : tiles;
  set_nTiles : tiles -> Z -> tiles;
  nTiles : tiles -> Z;
  set_tilesSize : tiles -> list float -> tiles;
  set_minMax : tiles -> Z -> float * float -> tiles;
  resizeTiles : tiles -> tiles;
  fill : tiles -> list float -> Z -> tiles;
  getBinsFromRange : tiles -> float -> float -> Z -> list Z;
  searchBox : tiles -> list (list Z) -> list Z;
  (** the indices stored in [tiles[binId]], in iteration order *)
  tile : tiles -> Z -> list Z;
  deltaPhi : float -> float -> float -> float -> float;
  std_pow : double -> double -> double
}.

(** [kernel::operator()(float dist, int i, int j)] of [Kernels.h] *)
Definition kernel : Type := float -> Z -> Z -> float.

Record ClusteringAlgo : Type := mkAlgo {
  dc_ : float;
  rhoc_ : float;
  outlierDeltaFactor_ : float;
  pointsPerTile_ : Z;
  domains_ : list Domain.domain_t;
  points_ : Points.t
}.

Definition set_points (a : ClusteringAlgo) (p : Points.t) : ClusteringAlgo :=
  mkAlgo (dc_ a) (rhoc_ a) (outlierDeltaFactor_ a) (pointsPerTile_ a) (domains_ a) p.

(** the constructor *)
Definition ClusteringAlgo_new (dc rhoc outlierDeltaFactor : float) (pPBin : Z)
  (domains : list Domain.domain_t) : ClusteringAlgo :=
  mkAlgo dc rhoc outlierDeltaFactor pPBin domains Points.fresh.

Definition INT_MIN : Z := - 2 ^ 31.
Definition INT_MAX : Z := 2 ^ 31 - 1.

(** [a / b] on [int]: truncates towards zero; undefined for a zero divisor
    and for the one quotient that does not fit *)
Definition int_div (a b : Z) : outcome Z :=
  if b =? 0 then Undef
  else if (a =? INT_MIN) && (b =? -1) then Undef
  else Ret (Z.quot a b).

(** [static_cast<int>(x)] of a floating-point value: the fraction is dropped;
    undefined when the result does not fit *)
Definition static_cast_int (x : double) : outcome Z :=
  match x with
  | S754_zero _ => Ret 0
  | S754_finite s m e =>
      let a := if 0 <=? e then Z.shiftl (Z.pos m) e else Z.shiftr (Z.pos m) (- e) in
      let v := if s then - a else a in
      if (INT_MIN <=? v) && (v <=? INT_MAX) then Ret v else Undef
  | _ => Undef
  end.

(** [*std::max_element(first, last)]: the first greatest element under [<];
    on an empty range the iterator returned is [last], and reading through
    it is undefined *)
Definition max_element (l : list float) : outcome float :=
  match l with
  | [] => Undef
  | x :: l' => Ret (foldl (fun largest y => if F32.ltb largest y then y else largest) x l')
  end.

Definition min_element (l : list float) : outcome float :=
  match l with
  | [] => Undef
  | x :: l' => Ret (foldl (fun smallest y => if F32.ltb y smallest then y else smallest) x l')
  end.

Definition too_high_message : string :=
  "pointPerBin is set too high for you number of points. You must lower it in the clusterer constructor."
  ++ String (Ascii.ascii_of_nat 10) EmptyString.

Section Engine.
Context {C : Collaborators}.

Definition setPoints (n : Z) (coordinates : list (list float)) (weight : list float)
  (a : ClusteringAlgo) : outcome (bool * ClusteringAlgo) :=
  let p := points_ a in
  let p := Points.mk coordinates weight (Points.rho p) (Points.delta p)
             (Points.nearestHigher p) (Points.followers p)
             (Points.clusterIndex p) (Points.isSeed p) n in
  if Points.n p =? 0 then Ret (true, set_points a p)
  else
    rho ← resize (Points.rho p) (Points.n p) F32.zero;
    delta ← resize (Points.delta p) (Points.n p) F32.FLT_MAX;
    nearestHigher ← resize (Points.nearestHigher p) (Points.n p) (-1);
    followers ← resize (Points.followers p) (Points.n p) [];
    clusterIndex ← resize (Points.clusterIndex p) (Points.n p) (-1);
    isSeed ← resize (Points.isSeed p) (Points.n p) 0;
    Ret (false,
         set_points a (Points.mk coordinates weight rho delta nearestHigher
                         followers clusterIndex isSeed n)).

(** [calculateNTiles]: the value thrown is caught in the same function, whose
    handler writes to [std::cout]; [cout] is the text written so far. *)
Definition calculateNTiles (pointPerBin : Z) (a : ClusteringAlgo) (cout : list string)
  : outcome (Z * list string) :=
  ntiles ← int_div (Points.n (points_ a)) pointPerBin;
  cout ← try_catch
           (if ntiles =? 0 then Throw (ExnInt 100) else Ret cout)
           (fun _ => Ret (cout ++ [too_high_message]));
  Ret (ntiles, cout).

(** [1.0 / Ndim] *)
Definition inv_Ndim : double := F32.ddiv (F32.double_of_Z 1) (F32.double_of_Z Ndim).

Definition calculateTileSize (NTiles : Z) (tiles_ : tiles) (a : ClusteringAlgo)
  : outcome (list float * tiles) :=
  NperDim ← static_cast_int (std_pow (F32.double_of_Z NTiles) inv_Ndim);
  for_each (range Ndim)
    (fun i '(tileSizes, tiles_) =>
       row ← vget (Points.coordinates_ (points_ a)) i;
       dimMax ← max_element row;
       dimMin ← min_element row;
       let tiles_ := set_minMax tiles_ i (dimMin, dimMax) in
       let tileSize := F32.div (F32.sub dimMax dimMin) (F32.of_Z NperDim) in
       Ret (tileSizes ++ [tileSize], tiles_))
    ([], tiles_).

Definition prepareDataStructures (t : tiles) (a : ClusteringAlgo) : outcome tiles :=
  for_each (range (Points.n (points_ a)))
    (fun i t =>
       coords ← for_each (range Ndim)
                  (fun j coords =>
                     row ← vget (Points.coordinates_ (points_ a)) j;
                     x ← vget row i;
                     Ret (coords ++ [x]))
                  [];
       Ret (fill t coords i))
    t.

(** [distance(i, j)]: [std::pow(delta_xk, 2)] is the [double] overload, so the
    square is formed and added in [double] and the sum rounded back to
    [float]; the square of a [float] is exact in [double]. *)
Definition distance (a : ClusteringAlgo) (i j : Z) : outcome float :=
  qSum ← for_each (range Ndim)
            (fun k qSum =>
               row ← vget (Points.coordinates_ (points_ a)) k;
               xi ← vget row i;
               xj ← vget row j;
               dom ← vget (domains_ a) k;
               let delta_xk := deltaPhi xi xj (Domain.min dom) (Domain.max dom) in
               Ret (F32.of_double
                      (F32.dadd (F32.to_double qSum)
                         (F32.dmul (F32.to_double delta_xk) (F32.to_double delta_xk)))))
            F32.zero;
  Ret (F32.sqrt qSum).

(** The bin list of one dimension [j] for the point [i] and the radius [r]:
    the body of the [for (int j{}; j != Ndim; ++j)] loop that both
    [calculateLocalDensity] (with [r = dc_]) and [calculateDistanceToHigher]
    (with [r = dm]) contain. *)
Definition xjBins_dim (t : tiles) (a : ClusteringAlgo) (r : float) (i j : Z)
  : outcome (list Z) :=
  row ← vget (Points.coordinates_ (points_ a)) j;
  x ← vget row i;
  let bins := getBinsFromRange t (F32.sub x r) (F32.add x r) j in
  dom ← vget (domains_ a) j;
  if F32.gtb (F32.add x r) (Domain.max dom) then
    let overflowBins :=
      getBinsFromRange t (Domain.min dom) (F32.add (Domain.min dom) r) j in
    Ret (bins ++ overflowBins)
  else if F32.ltb (F32.sub x r) (Domain.min dom) then
    let underflowBins :=
      getBinsFromRange t (F32.sub (Domain.max dom) r) (Domain.max dom) j in
    Ret (bins ++ underflowBins)
  else Ret bins.

(** [xjBins] filled for every dimension, then [tiles.searchBox(xjBins, search_box)] *)
Definition get_search_box (t : tiles) (a : ClusteringAlgo) (r : float) (i : Z)
  : outcome (list Z) :=
  xjBins ← for_each (range Ndim)
              (fun j xjBins => b ← xjBins_dim t a r i j; Ret (xjBins ++ [b]))
              [];
  Ret (searchBox t xjBins).

(** [for (int binId : search_box) for (auto binIterId : tiles[binId]) body] *)
Definition for_box {S : Type} (t : tiles) (search_box : list Z)
  (body : Z -> S -> outcome S) (s : S) : outcome S :=
  for_each search_box (fun binId s => for_each (tile t binId) body s) s.

Definition density_step (ker : kernel) (i j : Z) (a : ClusteringAlgo)
  : outcome ClusteringAlgo :=
  dist_ij ← distance a i j;
  if F32.leb dist_ij (dc_ a) then
    w ← vget (Points.weight (points_ a)) j;
    rho_i ← vget (Points.rho (points_ a)) i;
    rho ← vset (Points.rho (points_ a)) i (F32.add rho_i (F32.mul (ker dist_ij i j) w));
    Ret (set_points a (Points.set_rho (points_ a) rho))
  else Ret a.

Definition calculateLocalDensity (t : tiles) (ker : kernel) (a : ClusteringAlgo)
  : outcome ClusteringAlgo :=
  for_each (range (Points.n (points_ a)))
    (fun i a =>
       search_box ← get_search_box t a (dc_ a) i;
       for_box t search_box (density_step ker i) a)
    a.

(** one candidate [j] of the scan for the point [i]; the state is
    [(delta_i, nearestHigher_i)] *)
Definition higher_step (a : ClusteringAlgo) (dm rho_i : float) (i j : Z)
  (s : float * Z) : outcome (float * Z) :=
  let '(delta_i, nearestHigher_i) := s in
  rho_j ← vget (Points.rho (points_ a)) j;
  let foundHigher := F32.gtb rho_j rho_i in
  let foundHigher := foundHigher || (F32.eqb rho_j rho_i && (j >? i)) in
  dist_ij ← distance a i j;
  if foundHigher && F32.leb dist_ij dm then
    if F32.ltb dist_ij delta_i then Ret (dist_ij, j)
    else Ret (delta_i, nearestHigher_i)
  else Ret (delta_i, nearestHigher_i).

Definition higher_point (t : tiles) (dm : float) (i : Z) (a : ClusteringAlgo)
  : outcome ClusteringAlgo :=
  let delta_i := F32.FLT_MAX in
  let nearestHigher_i := -1 in
  rho_i ← vget (Points.rho (points_ a)) i;
  search_box ← get_search_box t a dm i;
  '(delta_i, nearestHigher_i) ←
     for_box t search_box (higher_step a dm rho_i i) (delta_i, nearestHigher_i);
  delta ← vset (Points.delta (points_ a)) i delta_i;
  nearestHigher ← vset (Points.nearestHigher (points_ a)) i nearestHigher_i;
  Ret (set_points a
         (Points.set_nearestHigher (Points.set_delta (points_ a) delta) nearestHigher)).

Definition calculateDistanceToHigher (t : tiles) (a : ClusteringAlgo)
  : outcome ClusteringAlgo :=
  let dm := F32.mul (outlierDeltaFactor_ a) (dc_ a) in
  for_each (range (Points.n (points_ a))) (higher_point t dm) a.

(** The first loop of [findAndAssignClusters].  The state is
    [(nClusters, localStack, points_)]; [localStack] is kept with its
    [back()] at the head of the list, so [push_back] is a cons. *)
Definition classify_point (a : ClusteringAlgo) (i : Z) (s : Z * list Z * Points.t)
  : outcome (Z * list Z * Points.t) :=
  let '(nClusters, localStack, p) := s in
  clusterIndex ← vset (Points.clusterIndex p) i (-1);
  let p := Points.set_clusterIndex p clusterIndex in
  deltai ← vget (Points.delta p) i;
  rhoi ← vget (Points.rho p) i;
  let isSeed := F32.gtb deltai (dc_ a) && F32.geb rhoi (rhoc_ a) in
  let isOutlier :=
    F32.gtb deltai (F32.mul (outlierDeltaFactor_ a) (dc_ a)) && F32.ltb rhoi (rhoc_ a) in
  if isSeed then
    isSeed' ← vset (Points.isSeed p) i 1;
    clusterIndex ← vset (Points.clusterIndex p) i nClusters;
    let p := Points.set_clusterIndex (Points.set_isSeed p isSeed') clusterIndex in
    Ret (nClusters + 1, i :: localStack, p)
  else if negb isOutlier then
    nh ← vget (Points.nearestHigher p) i;
    fl ← vget (Points.followers p) nh;
    followers ← vset (Points.followers p) nh (fl ++ [i]);
    Ret (nClusters, localStack, Points.set_followers p followers)
  else Ret (nClusters, localStack, p).

Definition find_seeds (a : ClusteringAlgo) : outcome (Z * list Z * Points.t) :=
  for_each (range (Points.n (points_ a))) (classify_point a) (0, [], points_ a).

(** the body of [for (int j : followers)] for the popped point [i]; the
    state is [(clusterIndex, localStack)] *)
Definition pass_id (i j : Z) (s : list Z * list Z) : outcome (list Z * list Z) :=
  let '(clusterIndex, localStack) := s in
  id ← vget clusterIndex i;
  clusterIndex ← vset clusterIndex j id;
  Ret (clusterIndex, j :: localStack).

(** [while (!localStack.empty())]: every turn of the loop takes one unit of
    [fuel]; running out of it before the stack is empty is [OutOfFuel]. *)
Fixpoint expand_clusters (fuel : nat) (localStack : list Z) (p : Points.t)
  : outcome Points.t :=
  match localStack with
  | [] => Ret p
  | i :: localStack =>
      match fuel with
      | O => OutOfFuel
      | S fuel =>
          followers ← vget (Points.followers p) i;
          '(clusterIndex, localStack) ←
             for_each followers (pass_id i) (Points.clusterIndex p, localStack);
          expand_clusters fuel localStack (Points.set_clusterIndex p clusterIndex)
      end
  end.

Definition findAndAssignClusters (fuel : nat) (a : ClusteringAlgo)
  : outcome ClusteringAlgo :=
  '(_, localStack, p) ← find_seeds a;
  p ← expand_clusters fuel localStack p;
  Ret (set_points a p).

(** The first statements of [makeClusters], up to the filled grid:
    [tiles<Ndim> Tiles; Tiles.nTiles = calculateNTiles(pointsPerTile_);
     Tiles.resizeTiles(); Tiles.tilesSize = calculateTileSize(Tiles.nTiles, Tiles);
     prepareDataStructures(Tiles);] *)
Definition build_tiles (a : ClusteringAlgo) (cout : list string)
  : outcome (tiles * list string) :=
  let Tiles := tiles_new in
  '(ntiles, cout) ← calculateNTiles (pointsPerTile_ a) a cout;
  let Tiles := set_nTiles Tiles ntiles in
  let Tiles := resizeTiles Tiles in
  '(tilesSize, Tiles) ← calculateTileSize (nTiles Tiles) Tiles a;
  let Tiles := set_tilesSize Tiles tilesSize in
  Tiles ← prepareDataStructures Tiles a;
  Ret (Tiles, cout).

(** [makeClusters]: returns [{points_.clusterIndex, points_.isSeed}]; the
    model returns the engine and the output stream beside them. *)
Definition makeClusters (fuel : nat) (ker : kernel) (a : ClusteringAlgo)
  (cout : list string)
  : outcome (list Z * list Z * ClusteringAlgo * list string) :=
  '(Tiles, cout) ← build_tiles a cout;
  a ← calculateLocalDensity Tiles ker a;
  a ← calculateDistanceToHigher Tiles a;
  a ← findAndAssignClusters fuel a;
  Ret (Points.clusterIndex (points_ a), Points.isSeed (points_ a), a, cout).

(** *** Vocabulary of the statements *)

(** the points met by the scan of a search box, in the order of the scan *)
Definition candidates (t : tiles) (search_box : list Z) : list Z :=
  concat (tile t <$> search_box).

(** [rho[j]] and [distance(i, j)] as values; where the C++ expression is
    undefined the value is a NaN, which no comparison accepts *)
Definition rho_at (a : ClusteringAlgo) (j : Z) : float :=
  match vget (Points.rho (points_ a)) j with Ret r => r | _ => S754_nan end.
Definition dist_to (a : ClusteringAlgo) (i j : Z) : float :=
  match distance a i j with Ret d => d | _ => S754_nan end.

(** [foundHigher]: [j] is denser than [i], or as dense with a greater index *)
Definition higher (a : ClusteringAlgo) (i j : Z) : bool :=
  F32.gtb (rho_at a j) (rho_at a i) || (F32.eqb (rho_at a j) (rho_at a i) && (j >? i)).

(** [foundHigher && dist_ij <= dm] *)
Definition eligible (a : ClusteringAlgo) (dm : float) (i j : Z) : bool :=
  higher a i j && F32.leb (dist_to a i j) dm.

(** The bin list of one dimension as the specification words it: the
    overflow and the underflow extension each applied on its own test. *)
Definition xjBins_dim_independent (t : tiles) (a : ClusteringAlgo) (r : float) (i j : Z)
  : outcome (list Z) :=
  row ← vget (Points.coordinates_ (points_ a)) j;
  x ← vget row i;
  let bins := getBinsFromRange t (F32.sub x r) (F32.add x r) j in
  dom ← vget (domains_ a) j;
  let overflowBins :=
    if F32.gtb (F32.add x r) (Domain.max dom)
    then getBinsFromRange t (Domain.min dom) (F32.add (Domain.min dom) r) j else [] in
  let underflowBins :=
    if F32.ltb (F32.sub x r) (Domain.min dom)
    then getBinsFromRange t (F32.sub (Domain.max dom) r) (Domain.max dom) j else [] in
  Ret (bins ++ overflowBins ++ underflowBins).

(** the radius of the nearest-higher search *)
Definition dm_of (a : ClusteringAlgo) : float := F32.mul (outlierDeltaFactor_ a) (dc_ a).

(** the two tests of [findAndAssignClusters] on the values [delta[i]], [rho[i]] *)
Definition seed_test (a : ClusteringAlgo) (deltai rhoi : float) : bool :=
  F32.gtb deltai (dc_ a) && F32.geb rhoi (rhoc_ a).
Definition outlier_test (a : ClusteringAlgo) (deltai rhoi : float) : bool :=
  F32.gtb deltai (F32.mul (outlierDeltaFactor_ a) (dc_ a)) && F32.ltb rhoi (rhoc_ a).

(** [delta[i]] and [nearestHigher[i]] as values (as [rho_at]) *)
Definition delta_at (a : ClusteringAlgo) (i : Z) : float :=
  match vget (Points.delta (points_ a)) i with Ret d => d | _ => S754_nan end.
Definition nh_at (a : ClusteringAlgo) (i : Z) : Z :=
  match vget (Points.nearestHigher (points_ a)) i with Ret j => j | _ => -1 end.

(** the point reached from [i] by [k] steps along [nearestHigher] *)
Definition nh_iter (a : ClusteringAlgo) (k : nat) (i : Z) : Z :=
  Nat.iter k (nh_at a) i.

(** the three classes of [findAndAssignClusters] *)
Definition is_seed (a : ClusteringAlgo) (i : Z) : bool :=
  seed_test a (delta_at a i) (rho_at a i).
Definition is_outlier (a : ClusteringAlgo) (i : Z) : bool :=
  negb (is_seed a i) && outlier_test a (delta_at a i) (rho_at a i).
Definition is_follower (a : ClusteringAlgo) (i : Z) : bool :=
  negb (is_seed a i) && negb (outlier_test a (delta_at a i) (rho_at a i)).

(** the number of seeds among the points before [i] *)
Definition seeds_before (a : ClusteringAlgo) (i : Z) : Z :=
  Z.of_nat (length (filter (fun k => is_seed a k = true) (range i))).

(** the number of seeds, read off the array [isSeed] that [makeClusters]
    returns: the entries at 1 among its first [m] *)
Definition ones_before (isSeed : list Z) (m : Z) : Z :=
  Z.of_nat (length (filter (fun x => x = 1) (take (Z.to_nat m) isSeed))).

(** the followers that the first loop registers at [k] among the points
    before [m], in the order of registration *)
Definition registered (a : ClusteringAlgo) (m k : Z) : list Z :=
  filter (fun i => is_follower a i = true /\ nh_at a i = k) (range m).

(** the read of [coordinates_[j][i]] *)
Definition read_coordinate (a : ClusteringAlgo) (j i : Z) : outcome float :=
  row ← vget (Points.coordinates_ (points_ a)) j; vget row i.

(** [coordinates_[j][i]] and [weight[j]] as values (as [rho_at]) *)
Definition coordinate (a : ClusteringAlgo) (j i : Z) : float :=
  match read_coordinate a j i with Ret x => x | _ => S754_nan end.
Definition weight_at (a : ClusteringAlgo) (j : Z) : float :=
  match vget (Points.weight (points_ a)) j with Ret w => w | _ => S754_nan end.

(** every coordinate of every point is stored: [coordinates_] has [Ndim]
    rows of [n] entries at least *)
Definition complete (a : ClusteringAlgo) : Prop :=
  forall j i, 0 <= j < Ndim -> 0 <= i < Points.n (points_ a) ->
    exists x, read_coordinate a j i = Ret x.

(** the coordinates of the point [i], as [prepareDataStructures] collects them *)
Definition coords_of (a : ClusteringAlgo) (i : Z) : list float :=
  (fun j => coordinate a j i) <$> range Ndim.

(** [dimMax] and [dimMin] of [calculateTileSize] for the dimension [i] *)
Definition dimMax_of (a : ClusteringAlgo) (i : Z) : float :=
  match row ← vget (Points.coordinates_ (points_ a)) i; max_element row with
  | Ret x => x
  | _ => S754_nan
  end.
Definition dimMin_of (a : ClusteringAlgo) (i : Z) : float :=
  match row ← vget (Points.coordinates_ (points_ a)) i; min_element row with
  | Ret x => x
  | _ => S754_nan
  end.

(** what the scan of the candidates [cands] for the point [i] makes of the
    density [rho0]: the weight of every candidate within [dc_], times the
    kernel, added in the order of the scan *)
Definition density_sum (ker : kernel) (a : ClusteringAlgo) (i : Z) (cands : list Z)
  (rho0 : float) : float :=
  foldl (fun acc j =>
           if F32.leb (dist_to a i j) (dc_ a)
           then F32.add acc (F32.mul (ker (dist_to a i j) i j) (weight_at a j))
           else acc)
        rho0 cands.

(** the points [p] with other contents in the three arrays that
    [findAndAssignClusters] writes *)
Definition with_class (p : Points.t) (F : list (list Z)) (CI IS : list Z) : Points.t :=
  Points.mk (Points.coordinates_ p) (Points.weight p) (Points.rho p) (Points.delta p)
    (Points.nearestHigher p) F CI IS (Points.n p).
End Engine.

(** ** A concrete grid, to run the engine on examples *)

(** Modelled from the spec: [Tiles.h], [deltaPhi.h] and [Kernels.h] are not
    among the sources.  [Lattice] is the one-dimensional instance of the
    grid of the specification: [resizeTiles] allocates [nTiles] empty bins,
    the number of bins per dimension is [nTiles] (its first root), a bin
    spans [tilesSize], a coordinate falls into the bin of its offset from
    the observed minimum, clamped to the lattice, [getBinsFromRange] lists
    the bins from that of [lo] to that of [hi], and [searchBox] flattens the
    product of the per-dimension lists.  [deltaPhi] is the plain subtraction
    of an unbounded dimension, and [flat] the kernel that weighs every pair
    by one. *)
Module Lattice.
Record grid : Type := mk {
  g_nTiles : Z;
  g_tilesSize : list float;
  g_minMax : list (float * float);
  g_bins : list (list Z)
}.

Definition getBin (g : grid) (coord_ : float) (dim_ : Z) : Z :=
  let lo := (nth (Z.to_nat dim_) (g_minMax g) (F32.zero, F32.zero)).1 in
  let size := nth (Z.to_nat dim_) (g_tilesSize g) F32.zero in
  let coord_Bin :=
    match static_cast_int (F32.div (F32.sub coord_ lo) size) with
    | Ret b => b
    | _ => 0
    end in
  Z.max (Z.min coord_Bin (g_nTiles g - 1)) 0.

Definition getBinsFromRange (g : grid) (x_min x_max : float) (dim_ : Z) : list Z :=
  let minBin := getBin g x_min dim_ in
  let maxBin := getBin g x_max dim_ in
  (fun k => minBin + k) <$> range (maxBin - minBin + 1).

Definition searchBox (g : grid) (limits : list (list Z)) : list Z :=
  foldr (fun l acc => r ← acc; b ← l; [b + g_nTiles g * r]) [0] limits.

Definition fill (g : grid) (coords : list float) (i : Z) : grid :=
  let b := Z.to_nat (getBin g (nth 0 coords F32.zero) 0) in
  mk (g_nTiles g) (g_tilesSize g) (g_minMax g)
     (<[b := nth b (g_bins g) [] ++ [i]]> (g_bins g)).

Definition tile (g : grid) (binId : Z) : list Z :=
  if binId <? 0 then [] else nth (Z.to_nat binId) (g_bins g) [].

Definition collaborators : Collaborators :=
  Build_Collaborators
    (* Ndim *) 1
    (* tiles *) grid
    (* tiles_new *) (mk 0 [] [] [])
    (* set_nTiles *) (fun g k => mk k (g_tilesSize g) (g_minMax g) (g_bins g))
    (* nTiles *) g_nTiles
    (* set_tilesSize *) (fun g s => mk (g_nTiles g) s (g_minMax g) (g_bins g))
    (* set_minMax *)
    (fun g i mM =>
       mk (g_nTiles g) (g_tilesSize g)
          (<[Z.to_nat i := mM]>
             (g_minMax g ++
              replicate (S (Z.to_nat i) - length (g_minMax g)) (F32.zero, F32.zero)))
          (g_bins g))
    (* resizeTiles *)
    (fun g => mk (g_nTiles g) (g_tilesSize g) (g_minMax g)
                 (replicate (Z.to_nat (g_nTiles g)) []))
    fill getBinsFromRange searchBox tile
    (* deltaPhi *) (fun x y _ _ => F32.sub x y)
    (* std_pow, at the exponent 1.0 / Ndim = 1 *) (fun x _ => x).

Definition flat : kernel := fun _ _ _ => F32.of_Z 1.
End Lattice.

(** ** Invariants of the loops *)

Section Invariants.
Context {C : Collaborators}.

(** the engine [a] with other contents in [delta] and [nearestHigher] *)
Definition with_results (a : ClusteringAlgo) (D : list float) (N : list Z) : ClusteringAlgo :=
  set_points a (Points.set_nearestHigher (Points.set_delta (points_ a) D) N).

(** the engine [a] with other contents in [rho] *)
Definition with_rho (a : ClusteringAlgo) (R : list float) : ClusteringAlgo :=
  set_points a (Points.set_rho (points_ a) R).

(** what the scan has established after the candidates [seen] *)
Definition scan_inv (a : ClusteringAlgo) (dm : float) (i : Z) (seen : list Z)
  (s : float * Z) : Prop :=
  F32.leb s.1 F32.FLT_MAX = true /\
  (forall j, j ∈ seen -> eligible a dm i j = true -> F32.leb s.1 (dist_to a i j) = true) /\
  ((s = (F32.FLT_MAX, -1) /\
    forall j, j ∈ seen -> eligible a dm i j = true ->
              F32.ltb (dist_to a i j) F32.FLT_MAX = false)
   \/
   (s.2 ∈ seen /\ 0 <= s.2 /\ eligible a dm i s.2 = true /\ s.1 = dist_to a i s.2 /\
    F32.ltb s.1 F32.FLT_MAX = true)).

(** the contents of [delta] and [nearestHigher] at [i] are what the scan for
    [i] over its search box leaves *)
Definition scanned (t : tiles) (a : ClusteringAlgo) (dm : float) (D : list float)
  (N : list Z) (i : Z) : Prop :=
  exists sb delta_i nh_i,
    get_search_box t a dm i = Ret sb /\
    vget D i = Ret delta_i /\ vget N i = Ret nh_i /\
    scan_inv a dm i (candidates t sb) (delta_i, nh_i).

(** the number of points that [i] is higher than *)
Definition rank (a : ClusteringAlgo) (i : Z) : nat :=
  length (filter (fun k => higher a k i = true) (range (Points.n (points_ a)))).

End Invariants.

(** what the first loop has established after the points before [m], from
    the arrays [F0], [CI0], [IS0] it started with *)
Definition class_inv (a : ClusteringAlgo) (F0 : list (list Z)) (CI0 IS0 : list Z)
  (m : Z) (s : Z * list Z * Points.t) : Prop :=
  exists F CI IS,
    s.2 = with_class (points_ a) F CI IS /\
    s.1.1 = seeds_before a m /\
    (forall i, i ∈ s.1.2 -> 0 <= i < m /\ is_seed a i = true) /\
    (forall i, vget IS i = if (i <? m) && is_seed a i then Ret 1 else vget IS0 i) /\
    (forall i, vget CI i =
               if (0 <=? i) && (i <? m)
               then Ret (if is_seed a i then seeds_before a i else -1)
               else vget CI0 i) /\
    (forall k, vget F k = (vget F0 k ≫= fun l0 => Ret (l0 ++ registered a m k))) /\
    (forall i, 0 <= i < m -> is_follower a i = true ->
               exists l0, vget F0 (nh_at a i) = Ret l0).

(** The state of the second loop, with the stack [st] and the points
    [popped] so far: no point is met twice; a point met is a seed or a
    follower whose nearest higher was popped, and holds a cluster id; a
    follower of a popped point was met and holds the id of that point; a
    point not met holds -1. *)
Definition expand_inv (a : ClusteringAlgo) (st popped CI : list Z) : Prop :=
  NoDup (st ++ popped) /\
  (forall i, i ∈ st ++ popped ->
     0 <= i < Points.n (points_ a) /\
     (is_seed a i = true \/ (is_follower a i = true /\ nh_at a i ∈ popped)) /\
     exists c, vget CI i = Ret c /\ 0 <= c < seeds_before a (Points.n (points_ a))) /\
  (forall j, 0 <= j < Points.n (points_ a) -> is_follower a j = true ->
     nh_at a j ∈ popped ->
     j ∈ st ++ popped /\ vget CI j = vget CI (nh_at a j)) /\
  (forall j, 0 <= j < Points.n (points_ a) -> j ∉ st ++ popped -> vget CI j = Ret (-1)).

(** running on from the stack [l ++ st] uses up [l] and everything it
    brings in, and comes to the stack [st] *)
Definition consumes (a : ClusteringAlgo) (F : list (list Z)) (IS : list Z) (l : list Z)
  : Prop :=
  forall (st CI : list Z),
    Z.of_nat (length CI) = Points.n (points_ a) ->
    exists (k : nat) (CI' : list Z),
      Z.of_nat (length CI') = Points.n (points_ a) /\
      forall fuel,
        expand_clusters (k + fuel) (l ++ st) (with_class (points_ a) F CI IS) =
        expand_clusters fuel st (with_class (points_ a) F CI' IS).

(** ** Concrete engines *)

Module Examples.
(** the engine run up to and including the density phase, on the lattice *)
Definition density_run (a : ClusteringAlgo) : outcome (Lattice.grid * ClusteringAlgo) :=
  '(Tiles, _) ← build_tiles (C := Lattice.collaborators) a [];
  a ← calculateLocalDensity (C := Lattice.collaborators) Tiles Lattice.flat a;
  Ret (Tiles, a).

Definition load (a : ClusteringAlgo) (xs ws : list Z) : ClusteringAlgo :=
  match setPoints (Z.of_nat (length xs)) [F32.of_Z <$> xs] (F32.of_Z <$> ws) a with
  | Ret (_, a) => a
  | _ => a
  end.

(** two points one unit apart, one bin *)
Definition near_pair : ClusteringAlgo :=
  load (ClusteringAlgo_new (F32.of_Z 2) (F32.of_Z 1) (F32.of_Z 2) 2 [Domain.default])
       [0; 1] [1; 1].

(** two points 2^65 apart, whose squared distance exceeds the range of
    [float], searched with [outlierDeltaFactor_] at the largest [float] *)
Definition far_pair : ClusteringAlgo :=
  load (ClusteringAlgo_new (F32.of_Z 2) (F32.of_Z 1) F32.FLT_MAX 2 [Domain.default])
       [0; 2 ^ 65] [1; 2].

(** one point at 4 in the periodic domain [2, 6], on a lattice of eight unit
    bins over [0, 8]; with the radius 3 its window [1, 7] leaves the domain
    on both sides *)
Definition wrap_engine : ClusteringAlgo :=
  load (ClusteringAlgo_new (F32.of_Z 3) (F32.of_Z 1) (F32.of_Z 1) 1
          [Domain.mk (F32.of_Z 2) (F32.of_Z 6)])
       [4] [1].
Definition wrap_grid : Lattice.grid :=
  Lattice.mk 8 [F32.of_Z 1] [(F32.of_Z 0, F32.of_Z 8)] (replicate 8 []).

(** the grid and the engine as the density phase leaves them *)
Definition built (a : ClusteringAlgo) : Lattice.grid * ClusteringAlgo :=
  match density_run a with
  | Ret r => r
  | _ => (Lattice.mk 0 [] [] [], a)
  end.

(** the engine as the nearest-higher search leaves it *)
Definition searched (a : ClusteringAlgo) : ClusteringAlgo :=
  match calculateDistanceToHigher (C := Lattice.collaborators) (built a).1 (built a).2 with
  | Ret a' => a'
  | _ => a
  end.

(** two points ten units apart, each alone within [dc_ = 1], with the
    density threshold 2 *)
Definition lonely_pair : ClusteringAlgo :=
  load (ClusteringAlgo_new (F32.of_Z 1) (F32.of_Z 2) (F32.of_Z 2) 2 [Domain.default])
       [0; 10] [1; 1].

(** two points and three points per tile *)
Definition sparse_pair : ClusteringAlgo :=
  load (ClusteringAlgo_new (F32.of_Z 2) (F32.of_Z 1) (F32.of_Z 2) 3 [Domain.default])
       [0; 1] [1; 1].

(** no point: [setPoints(0, {{}}, {})] *)
Definition no_point : ClusteringAlgo :=
  load (ClusteringAlgo_new (F32.of_Z 2) (F32.of_Z 1) (F32.of_Z 2) 1 [Domain.default])
       [] [].

(** two points, and an engine constructed with no domain at all *)
Definition no_domain : ClusteringAlgo :=
  load (ClusteringAlgo_new (F32.of_Z 2) (F32.of_Z 1) (F32.of_Z 2) 2 [])
       [0; 1] [1; 1].

(** three points announced, two coordinates given *)
Definition short_row : ClusteringAlgo :=
  match setPoints 3 [[F32.of_Z 0; F32.of_Z 1]] [F32.of_Z 1; F32.of_Z 1; F32.of_Z 1]
          (ClusteringAlgo_new (F32.of_Z 2) (F32.of_Z 1) (F32.of_Z 2) 2 [Domain.default]) with
  | Ret (_, a) => a
  | _ => ClusteringAlgo_new (F32.of_Z 2) (F32.of_Z 1) (F32.of_Z 2) 2 [Domain.default]
  end.

(** two points ten units apart, below the density threshold 2, and an
    outlier factor at the largest [float]: the radius [dm] is not below it *)
Definition unbounded_radius : ClusteringAlgo :=
  load (ClusteringAlgo_new (F32.of_Z 1) (F32.of_Z 2) F32.FLT_MAX 2 [Domain.default])
       [0; 10] [1; 1].

(** [makeClusters] with the flat kernel, and what the caller receives *)
Definition run (a : ClusteringAlgo) (cout : list string)
  : outcome (list Z * list Z * ClusteringAlgo * list string) :=
  makeClusters (C := Lattice.collaborators) 10 Lattice.flat a cout.
Definition returned (a : ClusteringAlgo) : option (list Z * list Z) :=
  match run a [] with
  | Ret (clusterIndex, isSeed, _, _) => Some (clusterIndex, isSeed)
  | _ => None
  end.
(** the engine after one call of [makeClusters] *)
Definition clustered (a : ClusteringAlgo) : ClusteringAlgo :=
  match run a [] with
  | Ret (_, _, a', _) => a'
  | _ => a
  end.

(** an engine used twice: two points ten units apart, each a seed, are
    clustered; then [setPoints] stores two points one unit apart *)
Definition spread_pair : ClusteringAlgo :=
  load (ClusteringAlgo_new (F32.of_Z 1) (F32.of_Z 1) (F32.of_Z 2) 2 [Domain.default])
       [0; 10] [1; 1].
Definition reused_pair : ClusteringAlgo :=
  load (clustered spread_pair) [0; 1] [1; 1].

End Examples.

(** * Properties *)

(** ** The append buffer *)

Section VecFacts.
Context {T : Type}.
Implicit Types (v : VecBuf.Vec T) (x : T).

Lemma wrap32_small (z : Z) : 0 <= z < VecBuf.two32 -> VecBuf.wrap32 z = z.
Proof. intros H. unfold VecBuf.wrap32. now apply Z.mod_small. Qed.

Lemma wrap32_succ_pred (z : Z) :
  0 <= z < VecBuf.two32 -> VecBuf.wrap32 (VecBuf.wrap32 (z + 1) - 1) = z.
Proof.
  intros H. unfold VecBuf.wrap32, VecBuf.two32 in *.
  destruct (Z.eq_dec z (2 ^ 32 - 1)) as [->|Hne]; [reflexivity|].
  rewrite (Z.mod_small (z + 1)) by lia.
  replace (z + 1 - 1) with z by lia. apply Z.mod_small. lia.
Qed.

Lemma store_in_range (d : list (option T)) (i : Z) x :
  0 <= i < Z.of_nat (length d) ->
  VecBuf.store d i x = Ret (<[Z.to_nat i := Some x]> d).
Proof.
  intros H. unfold VecBuf.store, vset.
  destruct (Z.ltb_spec i 0); [lia|].
  destruct (Z.ltb_spec i (Z.of_nat (length d))); [reflexivity|lia].
Qed.

Lemma push_back_unsafe_full x v :
  VecBuf.wf v -> VecBuf.m_size v = VecBuf.m_capacity v ->
  VecBuf.push_back_unsafe x v = Ret (-1, v).
Proof.
  intros (Hs & Hc & Hl) Heq. unfold VecBuf.push_back_unsafe.
  cbn [VecBuf.m_size VecBuf.m_capacity VecBuf.m_data].
  destruct (Z.ltb_spec (VecBuf.m_size v) (VecBuf.m_capacity v)); [lia|].
  rewrite wrap32_succ_pred by assumption. now destruct v.
Qed.

Lemma push_back_unsafe_room x v :
  VecBuf.wf v -> VecBuf.m_size v < VecBuf.m_capacity v ->
  VecBuf.push_back_unsafe x v =
    Ret (VecBuf.to_int (VecBuf.m_size v),
         VecBuf.mkVec (<[Z.to_nat (VecBuf.m_size v) := Some x]> (VecBuf.m_data v))
           (VecBuf.m_size v + 1) (VecBuf.m_capacity v)).
Proof.
  intros (Hs & Hc & Hl) Hlt. unfold VecBuf.push_back_unsafe.
  cbn [VecBuf.m_size VecBuf.m_capacity VecBuf.m_data].
  destruct (Z.ltb_spec (VecBuf.m_size v) (VecBuf.m_capacity v)); [|lia].
  rewrite store_in_range by lia. cbn [mbind outcome_bind].
  rewrite wrap32_small by lia. reflexivity.
Qed.

(** run to completion, the atomic variant computes what the plain one does *)
Lemma push_back_sequential x v : VecBuf.push_back x v = VecBuf.push_back_unsafe x v.
Proof. reflexivity. Qed.

Lemma push_back_full x v :
  VecBuf.wf v -> VecBuf.m_size v = VecBuf.m_capacity v ->
  VecBuf.push_back x v = Ret (-1, v).
Proof. exact (push_back_unsafe_full x v). Qed.

Lemma push_back_room x v :
  VecBuf.wf v -> VecBuf.m_size v < VecBuf.m_capacity v ->
  VecBuf.push_back x v =
    Ret (VecBuf.to_int (VecBuf.m_size v),
         VecBuf.mkVec (<[Z.to_nat (VecBuf.m_size v) := Some x]> (VecBuf.m_data v))
           (VecBuf.m_size v + 1) (VecBuf.m_capacity v)).
Proof. exact (push_back_unsafe_room x v). Qed.


Lemma fill_from_size (xs : list T) v :
  VecBuf.wf v -> VecBuf.m_size v + Z.of_nat (length xs) <= VecBuf.m_capacity v ->
  exists v', VecBuf.fill_from xs v = Ret v' /\ VecBuf.wf v' /\
             VecBuf.m_size v' = VecBuf.m_size v + Z.of_nat (length xs) /\
             VecBuf.m_capacity v' = VecBuf.m_capacity v.
Proof.
  revert v. induction xs as [|x xs IH]; intros v Hwf Hle.
  - exists v. cbn. repeat split; try apply Hwf; lia.
  - cbn [length] in Hle. unfold VecBuf.fill_from. cbn [for_each].
    rewrite push_back_unsafe_room by (try assumption; lia). cbn [mbind outcome_bind].
    destruct Hwf as (Hs & Hc & Hl).
    destruct (IH (VecBuf.mkVec (<[Z.to_nat (VecBuf.m_size v) := Some x]> (VecBuf.m_data v))
                    (VecBuf.m_size v + 1) (VecBuf.m_capacity v)))
      as (v' & Hr & Hwf' & Hsz & Hcap).
    + repeat split; cbn; rewrite ?length_insert; lia.
    + cbn. lia.
    + exists v'. repeat split; try apply Hwf'; [exact Hr| |exact Hcap].
      rewrite Hsz. cbn [VecBuf.m_size length]. lia.
Qed.

Lemma Vec_new_wf (size : Z) : 0 <= size < VecBuf.two32 -> VecBuf.wf (VecBuf.Vec_new (T := T) size).
Proof.
  intros H. repeat split; cbn; try lia; try (unfold VecBuf.two32; lia).
  rewrite length_replicate. lia.
Qed.

Lemma reserve_wf (size : Z) v :
  VecBuf.wf v -> 0 <= size < VecBuf.two32 -> VecBuf.wf (VecBuf.reserve size v).
Proof.
  intros (Hs & _) H. repeat split; cbn; try lia. rewrite length_replicate. lia.
Qed.
End VecFacts.






(** C10.  [reserve(newCapacity)] replaces the storage by a fresh array of
    [newCapacity] unwritten cells and sets the capacity, and leaves [size] as
    it was: a buffer that takes [k] appends, from the size [s] say, has the
    size [s + k] before and after [reserve], over storage that holds none of
    its elements; after one append or more that size is not zero. *)
Theorem reserve_keeps_size {T : Type} (v0 : VecBuf.Vec T) (newCapacity : Z) (xs : list T) :
  VecBuf.wf v0 ->
  VecBuf.m_size v0 + Z.of_nat (length xs) <= VecBuf.m_capacity v0 ->
  exists v,
    VecBuf.fill_from xs v0 = Ret v /\
    VecBuf.m_size v = VecBuf.m_size v0 + Z.of_nat (length xs) /\
    VecBuf.m_size (VecBuf.reserve newCapacity v) = VecBuf.m_size v /\
    VecBuf.m_capacity (VecBuf.reserve newCapacity v) = newCapacity /\
    VecBuf.m_data (VecBuf.reserve newCapacity v) = replicate (Z.to_nat newCapacity) None /\
    (xs <> [] -> VecBuf.m_size (VecBuf.reserve newCapacity v) <> 0).
Proof.
  intros Hwf Hroom.
  destruct (fill_from_size xs v0 Hwf Hroom) as (v & Hr & _ & Hsz & _).
  exists v. split; [exact Hr|]. split; [exact Hsz|].
  split; [reflexivity|]. split; [reflexivity|]. split; [reflexivity|].
  intros Hne. cbn [VecBuf.reserve VecBuf.m_size]. rewrite Hsz.
  destruct Hwf as (Hs & _). destruct xs; [congruence|]. cbn [length]. lia.
Qed.

(** three appends into a new buffer of capacity four, then [reserve(8)] *)
Lemma reserve_keeps_size_witness :
  exists v,
    VecBuf.fill_from [10; 20; 30] (VecBuf.Vec_new 4) = Ret v /\
    VecBuf.m_size (VecBuf.reserve 8 v) = 3 /\
    VecBuf.m_data (VecBuf.reserve 8 v) = replicate 8 None.
Proof.
  destruct (reserve_keeps_size (VecBuf.Vec_new 4) 8 [10; 20; 30])
    as (v & Hr & Hs & Hs' & _ & Hd & _).
  - apply Vec_new_wf. unfold VecBuf.two32. lia.
  - cbn. lia.
  - exists v. split; [exact Hr|]. split; [|exact Hd].
    rewrite Hs', Hs. reflexivity.
Defined.

(** ** The append buffer: sequences of calls *)

Section VecCalls.
Context {T : Type}.
Implicit Types (v : VecBuf.Vec T) (x : T).

Lemma cells_push x v :
  VecBuf.wf v -> VecBuf.m_size v < VecBuf.m_capacity v ->
  VecBuf.cells
    (VecBuf.mkVec (<[Z.to_nat (VecBuf.m_size v) := Some x]> (VecBuf.m_data v))
       (VecBuf.m_size v + 1) (VecBuf.m_capacity v))
  = VecBuf.cells v ++ [Some x].
Proof.
  intros (Hs & Hc & Hl) Hlt. unfold VecBuf.cells. cbn [VecBuf.m_size VecBuf.m_data].
  replace (Z.to_nat (VecBuf.m_size v + 1)) with (S (Z.to_nat (VecBuf.m_size v))) by lia.
  rewrite (take_S_r _ _ (Some x)).
  - now rewrite take_insert_ge by lia.
  - apply list_lookup_insert_eq. lia.
Qed.

Lemma fill_from_cells (xs : list T) v :
  VecBuf.wf v -> VecBuf.m_size v <= VecBuf.m_capacity v ->
  exists v',
    VecBuf.fill_from xs v = Ret v' /\ VecBuf.wf v' /\
    VecBuf.m_size v' = Z.min (VecBuf.m_size v + Z.of_nat (length xs)) (VecBuf.m_capacity v) /\
    VecBuf.m_capacity v' = VecBuf.m_capacity v /\
    VecBuf.cells v' =
      VecBuf.cells v ++
      (Some <$> take (Z.to_nat (VecBuf.m_capacity v - VecBuf.m_size v)) xs).
Proof.
  revert v. induction xs as [|x xs IH]; intros v Hwf Hle.
  - exists v. cbn [length]. split; [reflexivity|]. split; [exact Hwf|].
    split; [lia|]. split; [reflexivity|]. rewrite take_nil, fmap_nil, app_nil_r. reflexivity.
  - unfold VecBuf.fill_from. cbn [for_each].
    destruct (Z.eq_dec (VecBuf.m_size v) (VecBuf.m_capacity v)) as [Heq|Hne].
    + rewrite push_back_unsafe_full by assumption. cbn [mbind outcome_bind].
      destruct (IH v Hwf Hle) as (v' & Hr & Hwf' & Hsz & Hcap & Hcells).
      exists v'. split; [exact Hr|]. split; [exact Hwf'|].
      split; [cbn [length]; lia|]. split; [exact Hcap|].
      rewrite Hcells. replace (VecBuf.m_capacity v - VecBuf.m_size v) with 0 by lia.
      reflexivity.
    + rewrite push_back_unsafe_room by (try assumption; lia). cbn [mbind outcome_bind].
      pose proof Hwf as (Hs & Hc & Hl).
      destruct (IH (VecBuf.mkVec (<[Z.to_nat (VecBuf.m_size v) := Some x]> (VecBuf.m_data v))
                      (VecBuf.m_size v + 1) (VecBuf.m_capacity v)))
        as (v' & Hr & Hwf' & Hsz & Hcap & Hcells).
      * repeat split; cbn; rewrite ?length_insert; lia.
      * cbn. lia.
      * exists v'. split; [exact Hr|]. split; [exact Hwf'|].
        cbn [VecBuf.m_size VecBuf.m_capacity] in Hsz, Hcap, Hcells.
        split; [cbn [length]; lia|]. split; [exact Hcap|].
        rewrite Hcells, cells_push by (try assumption; lia).
        replace (Z.to_nat (VecBuf.m_capacity v - VecBuf.m_size v))
          with (S (Z.to_nat (VecBuf.m_capacity v - (VecBuf.m_size v + 1)))) by lia.
        cbn [take fmap list_fmap]. now rewrite <- app_assoc.
Qed.

Lemma do_call_bounded (c : VecBuf.call T) v :
  VecBuf.wf v -> VecBuf.m_size v <= VecBuf.m_capacity v ->
  exists v',
    VecBuf.do_call c v = Ret v' /\ VecBuf.wf v' /\
    VecBuf.m_size v' <= VecBuf.m_capacity v' /\
    VecBuf.m_capacity v' = VecBuf.m_capacity v.
Proof.
  intros Hwf Hle. pose proof Hwf as (Hs & Hc & Hl).
  assert (Hpush : forall x, exists v',
             (VecBuf.push_back_unsafe x v ≫= fun '(_, v') => Ret v') = Ret v' /\
             VecBuf.wf v' /\ VecBuf.m_size v' <= VecBuf.m_capacity v' /\
             VecBuf.m_capacity v' = VecBuf.m_capacity v).
  { intros x. destruct (Z.eq_dec (VecBuf.m_size v) (VecBuf.m_capacity v)) as [Heq|Hne].
    - rewrite push_back_unsafe_full by assumption. exists v. cbn. auto.
    - rewrite push_back_unsafe_room by (try assumption; lia).
      eexists. split; [reflexivity|]. cbn.
      repeat split; cbn; rewrite ?length_insert; lia. }
  destruct c as [x|x|].
  - exact (Hpush x).
  - exact (Hpush x).
  - exists (VecBuf.reset v). cbn. repeat split; cbn; lia.
Qed.
End VecCalls.

(** X4.  Appends in a row on a buffer whose size is within its capacity: the
    first appends, as many as there is room for, land behind the elements of
    the range from [begin()] to [end()] in the order of the calls; every
    later one is dropped.  The size ends at the smaller of [size + k] and
    the capacity, which does not change. *)
Theorem appends_fill_then_drop {T : Type} (xs : list T) (v : VecBuf.Vec T) :
  VecBuf.wf v -> VecBuf.m_size v <= VecBuf.m_capacity v ->
  exists v',
    VecBuf.fill_from xs v = Ret v' /\
    VecBuf.m_size v' = Z.min (VecBuf.m_size v + Z.of_nat (length xs)) (VecBuf.m_capacity v) /\
    VecBuf.m_capacity v' = VecBuf.m_capacity v /\
    VecBuf.cells v' =
      VecBuf.cells v ++
      (Some <$> take (Z.to_nat (VecBuf.m_capacity v - VecBuf.m_size v)) xs).
Proof.
  intros Hwf Hle.
  destruct (fill_from_cells xs v Hwf Hle) as (v' & Hr & _ & Hsz & Hcap & Hcells).
  exists v'. auto.
Qed.

(** three appends into a buffer of two cells that holds one element *)
Lemma appends_fill_then_drop_witness :
  exists v',
    VecBuf.fill_from [7; 8; 9] (VecBuf.mkVec [Some 5; None] 1 2) = Ret v' /\
    VecBuf.m_size v' = 2 /\
    VecBuf.cells v' = [Some 5; Some 7].
Proof.
  destruct (appends_fill_then_drop [7; 8; 9] (VecBuf.mkVec [Some 5; None] 1 2))
    as (v' & Hr & Hsz & _ & Hcells).
  - repeat split; cbn; unfold VecBuf.two32; lia.
  - cbn. lia.
  - exists v'. split; [exact Hr|]. split; [exact Hsz|exact Hcells].
Defined.

(** X5.  Whatever sequence of [push_back], [push_back_unsafe] and [reset] a
    client runs on a buffer whose size is within its capacity, no call
    writes outside the array, the size stays within the capacity, and the
    capacity and the array length stay what they were. *)
Theorem calls_stay_within_capacity {T : Type} (cs : list (VecBuf.call T))
  (v : VecBuf.Vec T) :
  VecBuf.wf v -> VecBuf.m_size v <= VecBuf.m_capacity v ->
  exists v',
    VecBuf.do_calls cs v = Ret v' /\
    0 <= VecBuf.m_size v' <= VecBuf.m_capacity v' /\
    VecBuf.m_capacity v' = VecBuf.m_capacity v /\
    length (VecBuf.m_data v') = length (VecBuf.m_data v).
Proof.
  revert v. induction cs as [|c cs IH]; intros v Hwf Hle.
  - exists v. destruct Hwf as (Hs & _). cbn. repeat split; lia.
  - destruct (do_call_bounded c v Hwf Hle) as (v1 & Hr1 & Hwf1 & Hle1 & Hcap1).
    destruct (IH v1 Hwf1 Hle1) as (v' & Hr & Hb & Hcap & Hlen).
    exists v'. unfold VecBuf.do_calls in *. cbn [for_each]. rewrite Hr1.
    split; [exact Hr|]. split; [exact Hb|]. split; [congruence|].
    rewrite Hlen. destruct Hwf as (_ & _ & Hl), Hwf1 as (_ & _ & Hl1). lia.
Qed.

(** a buffer of two cells: two appends, a third that finds it full, a reset
    and one more append *)
Lemma calls_stay_within_capacity_witness :
  exists v',
    VecBuf.do_calls
      [VecBuf.PushBack 1; VecBuf.PushBackUnsafe 2; VecBuf.PushBack 3; VecBuf.Reset;
       VecBuf.PushBack 4]
      (VecBuf.Vec_new 2) = Ret v' /\
    0 <= VecBuf.m_size v' <= VecBuf.m_capacity v' /\
    VecBuf.m_capacity v' = 2.
Proof.
  destruct (calls_stay_within_capacity
              [VecBuf.PushBack 1; VecBuf.PushBackUnsafe 2; VecBuf.PushBack 3; VecBuf.Reset;
               VecBuf.PushBack 4]
              (VecBuf.Vec_new 2))
    as (v' & Hr & Hb & Hcap & _).
  - apply Vec_new_wf. unfold VecBuf.two32. lia.
  - cbn. lia.
  - exists v'. split; [exact Hr|]. split; [exact Hb|exact Hcap].
Defined.

(** X6.  [resize(int)] sets the size without looking at the capacity.  When
    the value, converted to [uint32_t], exceeds the capacity (any negative
    [int] on a buffer of less than 2^31 cells does), the buffer is not
    [full()] and not [empty()], and yet every append returns -1 and leaves
    it as it is. *)
Theorem resize_beyond_capacity {T : Type} (size : Z) (x : T) (v : VecBuf.Vec T) :
  0 <= VecBuf.m_capacity v < VecBuf.wrap32 size ->
  let v' := VecBuf.resize_size size v in
  VecBuf.size v' = VecBuf.wrap32 size /\
  VecBuf.full v' = false /\ VecBuf.empty v' = false /\
  VecBuf.push_back_unsafe x v' = Ret (-1, v') /\
  VecBuf.push_back x v' = Ret (-1, v') /\
  (- 2 ^ 31 <= size < 0 -> VecBuf.size v' = size + 2 ^ 32).
Proof.
  intros Hcap v'.
  assert (Hw : 0 <= VecBuf.wrap32 size < VecBuf.two32).
  { unfold VecBuf.wrap32, VecBuf.two32. apply Z.mod_pos_bound. lia. }
  assert (Hpush : VecBuf.push_back_unsafe x v' = Ret (-1, v')).
  { unfold VecBuf.push_back_unsafe, v', VecBuf.resize_size.
    cbn [VecBuf.m_size VecBuf.m_capacity VecBuf.m_data].
    destruct (Z.ltb_spec (VecBuf.wrap32 size) (VecBuf.m_capacity v)); [lia|].
    now rewrite wrap32_succ_pred. }
  split; [reflexivity|].
  split; [apply Z.eqb_neq; cbn [v' VecBuf.resize_size VecBuf.m_size VecBuf.m_capacity]; lia|].
  split; [apply Z.eqb_neq; cbn [v' VecBuf.resize_size VecBuf.m_size]; lia|].
  split; [exact Hpush|]. split; [exact Hpush|].
  intros Hneg. unfold VecBuf.size, v'. cbn [VecBuf.resize_size VecBuf.m_size].
  unfold VecBuf.wrap32, VecBuf.two32.
  symmetry. apply (Z.mod_unique_pos _ _ (-1)); lia.
Qed.

(** [resize(-1)] on a new buffer of four cells *)
Lemma resize_beyond_capacity_witness :
  VecBuf.size (VecBuf.resize_size (-1) (VecBuf.Vec_new (T := Z) 4)) = 4294967295 /\
  VecBuf.full (VecBuf.resize_size (-1) (VecBuf.Vec_new (T := Z) 4)) = false /\
  VecBuf.push_back 7 (VecBuf.resize_size (-1) (VecBuf.Vec_new 4))
  = Ret (-1, VecBuf.resize_size (-1) (VecBuf.Vec_new 4)).
Proof.
  destruct (resize_beyond_capacity (-1) 7 (VecBuf.Vec_new 4))
    as (_ & Hfull & _ & _ & Hpush & Hsz).
  - vm_compute. split; [discriminate|reflexivity].
  - split; [rewrite Hsz by lia; reflexivity|]. split; [exact Hfull|exact Hpush].
Defined.

(** X7.  [reset()] forgets the elements without touching the storage: the
    buffer is empty, its capacity and its array are what they were, and the
    next append on a buffer of at least one cell returns the index 0 and
    overwrites the first cell, which is then the whole range. *)
Theorem reset_then_push {T : Type} (x : T) (v : VecBuf.Vec T) :
  VecBuf.wf v -> 0 < VecBuf.m_capacity v ->
  VecBuf.empty (VecBuf.reset v) = true /\
  VecBuf.capacity (VecBuf.reset v) = VecBuf.capacity v /\
  VecBuf.m_data (VecBuf.reset v) = VecBuf.m_data v /\
  VecBuf.cells (VecBuf.reset v) = [] /\
  exists v',
    VecBuf.push_back x (VecBuf.reset v) = Ret (0, v') /\
    VecBuf.push_back_unsafe x (VecBuf.reset v) = Ret (0, v') /\
    VecBuf.m_size v' = 1 /\
    VecBuf.m_data v' = <[0%nat := Some x]> (VecBuf.m_data v) /\
    VecBuf.cells v' = [Some x].
Proof.
  intros Hwf Hpos. pose proof Hwf as (Hs & Hc & Hl).
  assert (Hwf0 : VecBuf.wf (VecBuf.reset v)) by (repeat split; cbn; lia).
  split; [reflexivity|]. split; [reflexivity|]. split; [reflexivity|].
  split; [reflexivity|].
  eexists. rewrite push_back_room, push_back_unsafe_room by (try exact Hwf0; cbn; lia).
  cbn [VecBuf.reset VecBuf.m_size VecBuf.m_data VecBuf.m_capacity].
  split; [reflexivity|]. split; [reflexivity|]. split; [reflexivity|].
  split; [reflexivity|].
  unfold VecBuf.cells. cbn [VecBuf.m_size VecBuf.m_data].
  destruct (VecBuf.m_data v) as [|c d]; [cbn in Hl; lia|]. reflexivity.
Qed.

(** a full buffer of two cells, reset, then one append *)
Lemma reset_then_push_witness :
  exists v',
    VecBuf.push_back 9 (VecBuf.reset (VecBuf.mkVec [Some 5; Some 6] 2 2)) = Ret (0, v') /\
    VecBuf.m_data v' = [Some 9; Some 6] /\
    VecBuf.cells v' = [Some 9].
Proof.
  destruct (reset_then_push 9 (VecBuf.mkVec [Some 5; Some 6] 2 2))
    as (_ & _ & _ & _ & v' & Hp & _ & _ & Hd & Hc).
  - repeat split; cbn; unfold VecBuf.two32; lia.
  - cbn. lia.
  - exists v'. split; [exact Hp|]. split; [exact Hd|exact Hc].
Defined.

(** X22.  On a buffer whose size is within its capacity, the value -1 is
    returned by an append exactly when the buffer is [full()]; an append that
    finds room returns the former size converted to [int], which is never
    -1 (though it is negative from the index 2^31 on). *)
Theorem push_back_fails_iff_full {T : Type} (x : T) (v v' : VecBuf.Vec T) (r : Z) :
  VecBuf.wf v -> VecBuf.m_size v <= VecBuf.m_capacity v ->
  VecBuf.push_back x v = Ret (r, v') ->
  (r = -1 <-> VecBuf.full v = true) /\
  (r = -1 -> v' = v) /\
  (r <> -1 -> r = VecBuf.to_int (VecBuf.m_size v) /\
              VecBuf.m_size v' = VecBuf.m_size v + 1).
Proof.
  intros Hwf Hle Hpush. pose proof Hwf as (Hs & Hc & Hl).
  unfold VecBuf.full.
  destruct (Z.eq_dec (VecBuf.m_size v) (VecBuf.m_capacity v)) as [Heq|Hne].
  - rewrite push_back_full in Hpush by assumption. injection Hpush as <- <-.
    split; [split; [intros _; apply Z.eqb_eq; lia|reflexivity]|].
    split; [reflexivity|]. intros H. contradiction.
  - rewrite push_back_room in Hpush by (try assumption; lia). injection Hpush as <- <-.
    assert (Hr : VecBuf.to_int (VecBuf.m_size v) <> -1).
    { unfold VecBuf.to_int, VecBuf.two32 in *.
      destruct (Z.ltb_spec (VecBuf.m_size v) (2 ^ 31)); lia. }
    split; [split; [intros H; contradiction|]|].
    + intros H. apply Z.eqb_eq in H. lia.
    + split; [intros H; contradiction|]. intros _. split; reflexivity.
Qed.

(** a full buffer, and one with room *)
Lemma push_back_fails_iff_full_witness :
  (exists v', VecBuf.push_back 7 (VecBuf.mkVec [Some 5; Some 6] 2 2) = Ret (-1, v') /\
              VecBuf.full (VecBuf.mkVec [Some 5; Some 6] 2 2) = true) /\
  (exists v', VecBuf.push_back 7 (VecBuf.mkVec [Some 5; None] 1 2) = Ret (1, v') /\
              VecBuf.m_size v' = 2).
Proof.
  split.
  - eexists. split; [reflexivity|].
    refine (proj1 (proj1 (push_back_fails_iff_full 7 (VecBuf.mkVec [Some 5; Some 6] 2 2)
                            _ (-1) _ _ eq_refl)) eq_refl).
    + repeat split; cbn; unfold VecBuf.two32; lia.
    + cbn. lia.
  - eexists. split; [reflexivity|].
    refine (proj2 (proj2 (proj2 (push_back_fails_iff_full 7
                                   (VecBuf.mkVec [Some 5; None] 1 2) _ 1 _ _ eq_refl)) _)).
    + repeat split; cbn; unfold VecBuf.two32; lia.
    + cbn. lia.
    + discriminate.
Defined.

(** ** The order of binary32 *)

Lemma F32_compare_key (x y : float) :
  F32.is_nan x = false -> F32.is_nan y = false ->
  (SFcompare x y = Some Lt <-> F32.lt3 (F32.key x) (F32.key y)) /\
  (SFcompare x y = Some Eq <-> F32.key x = F32.key y) /\
  (SFcompare x y = Some Gt <-> F32.lt3 (F32.key y) (F32.key x)).
Proof.
  intros Hx Hy.
  destruct x as [sx|sx| |sx mx ex], y as [sy|sy| |sy my ey];
    try discriminate; cbn [SFcompare F32.key].
  9: { rewrite ?Pos.compare_cont_spec; cbn [Pos.switch_Eq].
       destruct sx, sy;
         destruct (Z.compare_spec ex ey) as [He|He|He];
         destruct (Pos.compare_spec mx my) as [Hm|Hm|Hm]; cbn [CompOpp F32.lt3];
         repeat split; intros H; try discriminate H; try reflexivity;
         try (inversion H; subst; lia); try lia; try (subst; reflexivity). }
  all: try (destruct sx); try (destruct sy); cbn [F32.lt3];
    repeat split; intros H; try discriminate H; try reflexivity;
    try (inversion H; fail); try lia.
Qed.

Lemma F32_compare_nan (x y : float) :
  F32.is_nan x = true \/ F32.is_nan y = true -> SFcompare x y = None.
Proof. intros [H|H]; destruct x, y; try discriminate H; reflexivity. Qed.

Lemma F32_compare_some (x y : float) :
  F32.is_nan x = false -> F32.is_nan y = false -> exists c, SFcompare x y = Some c.
Proof. intros Hx Hy; destruct x, y; try discriminate; cbn; eauto. Qed.

Lemma lt3_total (a b : Z * Z * Z) : F32.lt3 a b \/ a = b \/ F32.lt3 b a.
Proof.
  destruct a as [[a1 a2] a3], b as [[b1 b2] b3]. cbn [F32.lt3].
  destruct (Z.lt_total a1 b1) as [?|[?|?]]; [lia| |lia].
  destruct (Z.lt_total a2 b2) as [?|[?|?]]; [lia| |lia].
  destruct (Z.lt_total a3 b3) as [?|[?|?]]; [lia| |lia].
  right; left; congruence.
Qed.

Lemma lt3_irrefl (a : Z * Z * Z) : ~ F32.lt3 a a.
Proof. destruct a as [[a1 a2] a3]. cbn [F32.lt3]. lia. Qed.

Lemma lt3_trans (a b c : Z * Z * Z) : F32.lt3 a b -> F32.lt3 b c -> F32.lt3 a c.
Proof.
  destruct a as [[a1 a2] a3], b as [[b1 b2] b3], c as [[c1 c2] c3].
  cbn [F32.lt3]. lia.
Qed.

Lemma F32_ltb_spec (x y : float) :
  F32.ltb x y = true <->
  F32.is_nan x = false /\ F32.is_nan y = false /\ F32.lt3 (F32.key x) (F32.key y).
Proof.
  unfold F32.ltb, SFltb. split.
  - intros H. destruct (F32.is_nan x) eqn:Hx.
    { rewrite F32_compare_nan in H by auto. discriminate. }
    destruct (F32.is_nan y) eqn:Hy.
    { rewrite F32_compare_nan in H by auto. discriminate. }
    repeat split. apply (F32_compare_key x y Hx Hy).
    destruct (SFcompare x y) as [[]|]; try discriminate; reflexivity.
  - intros (Hx & Hy & H). apply (F32_compare_key x y Hx Hy) in H. now rewrite H.
Qed.

Lemma F32_eqb_spec (x y : float) :
  F32.eqb x y = true <->
  F32.is_nan x = false /\ F32.is_nan y = false /\ F32.key x = F32.key y.
Proof.
  unfold F32.eqb, SFeqb. split.
  - intros H. destruct (F32.is_nan x) eqn:Hx.
    { rewrite F32_compare_nan in H by auto. discriminate. }
    destruct (F32.is_nan y) eqn:Hy.
    { rewrite F32_compare_nan in H by auto. discriminate. }
    repeat split. apply (F32_compare_key x y Hx Hy).
    destruct (SFcompare x y) as [[]|]; try discriminate; reflexivity.
  - intros (Hx & Hy & H). apply (F32_compare_key x y Hx Hy) in H. now rewrite H.
Qed.

Lemma F32_leb_spec (x y : float) :
  F32.leb x y = true <->
  F32.is_nan x = false /\ F32.is_nan y = false /\
  (F32.lt3 (F32.key x) (F32.key y) \/ F32.key x = F32.key y).
Proof.
  unfold F32.leb, SFleb. split.
  - intros H. destruct (F32.is_nan x) eqn:Hx.
    { rewrite F32_compare_nan in H by auto. discriminate. }
    destruct (F32.is_nan y) eqn:Hy.
    { rewrite F32_compare_nan in H by auto. discriminate. }
    repeat split.
    destruct (SFcompare x y) as [[]|] eqn:Hc; try discriminate;
      apply (F32_compare_key x y Hx Hy) in Hc; auto.
  - intros (Hx & Hy & [H|H]); apply (F32_compare_key x y Hx Hy) in H; now rewrite H.
Qed.

(** [d < delta] false on two numbers means [delta <= d] *)
Lemma F32_ltb_false_leb (d delta : float) :
  F32.is_nan d = false -> F32.is_nan delta = false ->
  F32.ltb d delta = false -> F32.leb delta d = true.
Proof.
  intros Hd Hdelta H. apply F32_leb_spec. repeat split; try assumption.
  destruct (lt3_total (F32.key d) (F32.key delta)) as [Hlt|[Heq|Hgt]]; auto.
  exfalso. assert (F32.ltb d delta = true) by (apply F32_ltb_spec; auto). congruence.
Qed.

Lemma F32_ltb_leb_trans (a b c : float) :
  F32.ltb a b = true -> F32.leb b c = true -> F32.leb a c = true.
Proof.
  rewrite F32_ltb_spec, !F32_leb_spec. intros (Ha & Hb & H1) (_ & Hc & H2).
  repeat split; try assumption. left. destruct H2 as [H2|H2].
  - eapply lt3_trans; eassumption.
  - now rewrite <- H2.
Qed.

Lemma F32_ltb_leb (a b : float) : F32.ltb a b = true -> F32.leb a b = true.
Proof. rewrite F32_ltb_spec, F32_leb_spec. intuition. Qed.

Lemma F32_leb_refl (a : float) : F32.is_nan a = false -> F32.leb a a = true.
Proof. intros H. apply F32_leb_spec. auto. Qed.

Lemma F32_ltb_trans (a b c : float) :
  F32.ltb a b = true -> F32.ltb b c = true -> F32.ltb a c = true.
Proof.
  rewrite !F32_ltb_spec. intros (Ha & Hb & H1) (_ & Hc & H2).
  repeat split; try assumption. eapply lt3_trans; eassumption.
Qed.

Lemma F32_leb_nan (a b : float) :
  F32.leb a b = true -> F32.is_nan a = false /\ F32.is_nan b = false.
Proof. rewrite F32_leb_spec. intuition. Qed.

(** ** Loops, vectors and outcomes *)

Lemma bind_Ret {A B} (m : outcome A) (f : A -> outcome B) (b : B) :
  (m ≫= f) = Ret b <-> exists x, m = Ret x /\ f x = Ret b.
Proof.
  split.
  - destruct m; cbn; try discriminate. eauto.
  - intros (x & -> & H). exact H.
Qed.

Ltac inv_bind H :=
  let x := fresh "x" in
  let H1 := fresh H in
  apply bind_Ret in H; destruct H as (x & H1 & H).

Lemma for_each_app {S X} (l1 l2 : list X) (f : X -> S -> outcome S) (s : S) :
  for_each (l1 ++ l2) f s = (for_each l1 f s ≫= for_each l2 f).
Proof.
  revert s. induction l1 as [|x l1 IH]; intros s; cbn; [reflexivity|].
  destruct (f x s); cbn; auto.
Qed.

Lemma for_each_snoc {S X} (l : list X) (x : X) (f : X -> S -> outcome S) (s : S) :
  for_each (l ++ [x]) f s = (for_each l f s ≫= f x).
Proof.
  rewrite for_each_app. destruct (for_each l f s); cbn; try reflexivity.
  destruct (f x a); reflexivity.
Qed.

Lemma elem_of_range (n i : Z) : i ∈ range n <-> 0 <= i < n.
Proof.
  unfold range. rewrite list_elem_of_fmap. split.
  - intros (k & -> & Hk). apply elem_of_seq in Hk. lia.
  - intros H. exists (Z.to_nat i). split; [lia|]. apply elem_of_seq. lia.
Qed.

Lemma NoDup_range (n : Z) : NoDup (range n).
Proof.
  unfold range. apply NoDup_fmap_2; [intros ? ?; lia | apply NoDup_seq].
Qed.

Lemma vget_Ret {A} (v : list A) (i : Z) (x : A) :
  vget v i = Ret x <-> 0 <= i /\ v !! Z.to_nat i = Some x.
Proof.
  unfold vget. destruct (Z.ltb_spec i 0).
  - split; [discriminate | lia].
  - destruct (v !! Z.to_nat i) eqn:E; split; intros H'; try discriminate.
    + injection H' as ->. auto.
    + destruct H' as [_ H']. congruence.
    + destruct H' as [_ H']. discriminate.
Qed.

Lemma vset_Ret {A} (v v' : list A) (i : Z) (x : A) :
  vset v i x = Ret v' <-> 0 <= i < Z.of_nat (length v) /\ v' = <[Z.to_nat i := x]> v.
Proof.
  unfold vset. destruct (Z.ltb_spec i 0); [split; [discriminate | lia]|].
  destruct (Z.ltb_spec i (Z.of_nat (length v))).
  - split; [intros [= <-]; auto | intros [_ ->]; reflexivity].
  - split; [discriminate | lia].
Qed.

Lemma vget_vset_eq {A} (v : list A) (i : Z) (x : A) :
  0 <= i < Z.of_nat (length v) -> vget (<[Z.to_nat i := x]> v) i = Ret x.
Proof.
  intros H. apply vget_Ret. split; [lia|]. apply list_lookup_insert_eq. lia.
Qed.

Lemma vget_vset_ne {A} (v : list A) (i k : Z) (x : A) :
  0 <= i -> i <> k -> vget (<[Z.to_nat i := x]> v) k = vget v k.
Proof.
  intros Hi Hne. unfold vget. destruct (Z.ltb_spec k 0); [reflexivity|].
  rewrite list_lookup_insert_ne by lia. reflexivity.
Qed.

Lemma vget_defined {A} (v : list A) (i : Z) :
  0 <= i < Z.of_nat (length v) -> exists x, vget v i = Ret x.
Proof.
  intros H. destruct (lookup_lt_is_Some_2 v (Z.to_nat i)) as [x Hx]; [lia|].
  exists x. apply vget_Ret. split; [lia | exact Hx].
Qed.

(** ** The bin lists of a search box *)

Section Wrap.
Context {C : Collaborators}.

Lemma xjBins_loop (t : tiles) (a : ClusteringAlgo) (r : float) (i : Z)
  (l : list Z) (acc L : list (list Z)) :
  for_each l (fun j xjBins => b ← xjBins_dim t a r i j; Ret (xjBins ++ [b])) acc = Ret L ->
  exists bs, L = acc ++ bs /\ Forall2 (fun j b => xjBins_dim t a r i j = Ret b) l bs.
Proof.
  revert acc. induction l as [|j l IH]; intros acc H.
  - cbn in H. injection H as <-. exists []. split; [now rewrite app_nil_r | constructor].
  - cbn [for_each] in H. inv_bind H. inv_bind H0. injection H0 as <-.
    destruct (IH _ H) as (bs & -> & HF).
    exists (x0 :: bs). split; [now rewrite <- app_assoc | now constructor].
Qed.

(** C8 (as amended).  The search box of the point [i] for the radius [r]
    ([r = dc_] in the density estimation, [r = dm] in the nearest-higher
    search) is [searchBox] of one bin list per dimension, and the list of the
    dimension [j], with [x] the coordinate and [dom] the domain, is
    the bins of [[x - r, x + r]], followed
    - by the bins of [[dom.min, dom.min + r]] whenever [x + r > dom.max]
      (also when [x - r < dom.min] holds as well: then nothing else is added);
    - by the bins of [[dom.max - r, dom.max]] when [x - r < dom.min] and not
      [x + r > dom.max];
    - by nothing otherwise. *)
Theorem search_box_extension (t : tiles) (a : ClusteringAlgo) (r : float) (i : Z)
  (search_box : list Z) :
  get_search_box t a r i = Ret search_box ->
  exists xjBins : list (list Z),
    search_box = searchBox t xjBins /\
    length xjBins = Z.to_nat Ndim /\
    forall j, 0 <= j < Ndim ->
      exists row x dom,
        vget (Points.coordinates_ (points_ a)) j = Ret row /\
        vget row i = Ret x /\
        vget (domains_ a) j = Ret dom /\
        let bins := getBinsFromRange t (F32.sub x r) (F32.add x r) j in
        let overflowBins :=
          getBinsFromRange t (Domain.min dom) (F32.add (Domain.min dom) r) j in
        let underflowBins :=
          getBinsFromRange t (F32.sub (Domain.max dom) r) (Domain.max dom) j in
        (F32.gtb (F32.add x r) (Domain.max dom) = true ->
           xjBins !! Z.to_nat j = Some (bins ++ overflowBins)) /\
        (F32.gtb (F32.add x r) (Domain.max dom) = false ->
         F32.ltb (F32.sub x r) (Domain.min dom) = true ->
           xjBins !! Z.to_nat j = Some (bins ++ underflowBins)) /\
        (F32.gtb (F32.add x r) (Domain.max dom) = false ->
         F32.ltb (F32.sub x r) (Domain.min dom) = false ->
           xjBins !! Z.to_nat j = Some bins).
Proof.
  unfold get_search_box. intros H. inv_bind H. injection H as <-.
  apply xjBins_loop in H0 as (bs & -> & HF). cbn [app].
  exists bs. split; [reflexivity|].
  assert (Hlen : length bs = Z.to_nat Ndim).
  { apply Forall2_length in HF. rewrite <- HF. unfold range.
    now rewrite length_fmap, length_seq. }
  split; [exact Hlen|]. intros j Hj.
  assert (Hj' : range Ndim !! Z.to_nat j = Some j).
  { unfold range. rewrite list_lookup_fmap, lookup_seq_lt by lia. cbn. f_equal. lia. }
  destruct (Forall2_lookup_l _ _ _ _ _ HF Hj') as (b & Hb & Hdim).
  unfold xjBins_dim in Hdim. inv_bind Hdim. inv_bind Hdim. inv_bind Hdim.
  exists x, x0, x1. repeat (split; [assumption|]).
  cbn zeta. destruct (F32.gtb _ _); [|destruct (F32.ltb _ _)];
    injection Hdim as <-; repeat split; intros; congruence.
Qed.
End Wrap.

(** On [wrap_engine] the window of the point leaves the domain at both
    ends; the list is the bins of the window and the overflow bins. *)
Lemma search_box_extension_witness :
  exists sb xjBins,
    get_search_box (C := Lattice.collaborators) Examples.wrap_grid Examples.wrap_engine
      (F32.of_Z 3) 0 = Ret sb /\
    sb = searchBox (Collaborators := Lattice.collaborators) Examples.wrap_grid xjBins /\
    length xjBins = 1%nat.
Proof.
  eexists.
  match goal with |- exists _, ?g = Ret ?r /\ _ =>
    assert (Hrun : g = Ret r) by (vm_compute; reflexivity)
  end.
  destruct (search_box_extension (C := Lattice.collaborators) _ _ _ _ _ Hrun)
    as (xjBins & Hsb & Hlen & _).
  exists xjBins. split; [exact Hrun|]. split; [exact Hsb | exact Hlen].
Defined.

(** C8 as stated fails on [wrap_engine]: [x + r > max] and [x - r < min] both
    hold, and the list built is the bins 1..7 of the window followed by the
    bins 2..5 of [[min, min + r]] only; applied independently, the
    extensions would add the bins 3..6 of [[max - r, max]] as well. *)
Lemma wrap_extensions_exclusive :
  F32.gtb (F32.add (F32.of_Z 4) (F32.of_Z 3)) (F32.of_Z 6) = true /\
  F32.ltb (F32.sub (F32.of_Z 4) (F32.of_Z 3)) (F32.of_Z 2) = true /\
  xjBins_dim (C := Lattice.collaborators) Examples.wrap_grid Examples.wrap_engine
    (F32.of_Z 3) 0 0 = Ret [1; 2; 3; 4; 5; 6; 7; 2; 3; 4; 5] /\
  xjBins_dim_independent (C := Lattice.collaborators) Examples.wrap_grid Examples.wrap_engine
    (F32.of_Z 3) 0 0 = Ret [1; 2; 3; 4; 5; 6; 7; 2; 3; 4; 5; 3; 4; 5; 6] /\
  getBinsFromRange (Collaborators := Lattice.collaborators) Examples.wrap_grid
    (F32.sub (F32.of_Z 6) (F32.of_Z 3)) (F32.of_Z 6) 0 = [3; 4; 5; 6] /\
  xjBins_dim (C := Lattice.collaborators) Examples.wrap_grid Examples.wrap_engine
    (F32.of_Z 3) 0 0 <>
  xjBins_dim_independent (C := Lattice.collaborators) Examples.wrap_grid Examples.wrap_engine
    (F32.of_Z 3) 0 0.
Proof.
  do 5 (split; [vm_compute; reflexivity|]).
  intros H. vm_compute in H. discriminate H.
Qed.

(** ** The nearest-higher search *)

Section NearestHigher.
Context {C : Collaborators}.

Lemma for_box_flat {S : Type} (t : tiles) (sb : list Z) (body : Z -> S -> outcome S) (s : S) :
  for_box t sb body s = for_each (candidates t sb) body s.
Proof.
  unfold for_box, candidates. revert s.
  induction sb as [|b sb IH]; intros s; cbn; [reflexivity|].
  rewrite for_each_app. destruct (for_each (tile t b) body s); cbn; auto.
Qed.

Lemma rho_at_Ret (a : ClusteringAlgo) (j : Z) (r : float) :
  vget (Points.rho (points_ a)) j = Ret r -> rho_at a j = r.
Proof. unfold rho_at. now intros ->. Qed.

Lemma dist_to_Ret (a : ClusteringAlgo) (i j : Z) (d : float) :
  distance a i j = Ret d -> dist_to a i j = d.
Proof. unfold dist_to. now intros ->. Qed.

(** one step of the scan, read on the vocabulary *)
Lemma higher_step_cases (a : ClusteringAlgo) (dm : float) (i j : Z) (s s' : float * Z) :
  higher_step a dm (rho_at a i) i j s = Ret s' ->
  0 <= j /\
  s' = if eligible a dm i j && F32.ltb (dist_to a i j) s.1
       then (dist_to a i j, j) else s.
Proof.
  destruct s as [delta_i nh_i]. unfold higher_step. intros H.
  inv_bind H. inv_bind H.
  split; [apply vget_Ret in H0; tauto|].
  unfold eligible, higher. rewrite (rho_at_Ret _ _ _ H0), (dist_to_Ret _ _ _ _ H1). cbn [fst].
  destruct (_ && F32.leb x0 dm); cbn [andb].
  - destruct (F32.ltb x0 delta_i); congruence.
  - congruence.
Qed.

Lemma F32_ltb_leb_ltb (x y z : float) :
  F32.ltb x y = true -> F32.leb y z = true -> F32.ltb x z = true.
Proof.
  rewrite !F32_ltb_spec, F32_leb_spec. intros (Hx & Hy & H1) (_ & Hz & H2).
  repeat split; try assumption. destruct H2 as [H2|H2].
  - eapply lt3_trans; eassumption.
  - now rewrite <- H2.
Qed.

Lemma eligible_dist_number (a : ClusteringAlgo) (dm : float) (i j : Z) :
  eligible a dm i j = true -> F32.is_nan (dist_to a i j) = false.
Proof.
  unfold eligible. intros H. apply andb_prop in H as [_ H].
  now apply F32_leb_nan in H.
Qed.

Lemma scan_inv_step (a : ClusteringAlgo) (dm : float) (i j : Z) (seen : list Z)
  (s s' : float * Z) :
  scan_inv a dm i seen s ->
  higher_step a dm (rho_at a i) i j s = Ret s' ->
  scan_inv a dm i (seen ++ [j]) s'.
Proof.
  intros (Hmax & Hmin & Hsel) Hstep.
  apply higher_step_cases in Hstep as [Hj ->].
  assert (Hnan : F32.is_nan s.1 = false) by (now apply F32_leb_nan in Hmax).
  destruct (eligible a dm i j) eqn:He; cbn [andb].
  - pose proof (eligible_dist_number _ _ _ _ He) as Hd.
    destruct (F32.ltb (dist_to a i j) s.1) eqn:Hlt.
    + (* a nearer one: it becomes the candidate kept *)
      repeat split; cbn [fst snd].
      * apply F32_ltb_leb. eapply F32_ltb_leb_ltb; eassumption.
      * intros k Hk Hek. apply elem_of_app in Hk as [Hk|Hk].
        -- eapply F32_ltb_leb_trans; [exact Hlt | auto].
        -- apply list_elem_of_singleton in Hk as ->. now apply F32_leb_refl.
      * right. repeat split; auto.
        -- apply elem_of_app. right. now apply list_elem_of_singleton.
        -- eapply F32_ltb_leb_ltb; eassumption.
    + (* not nearer than what is kept *)
      repeat split; auto.
      * intros k Hk Hek. apply elem_of_app in Hk as [Hk|Hk]; auto.
        apply list_elem_of_singleton in Hk as ->. now apply F32_ltb_false_leb.
      * destruct Hsel as [[-> Hnone]|(Hin & H0 & Hel & Heq & Hlt')].
        -- left. split; [reflexivity|]. intros k Hk Hek.
           apply elem_of_app in Hk as [Hk|Hk]; auto.
           apply list_elem_of_singleton in Hk as ->. exact Hlt.
        -- right. repeat split; auto. apply elem_of_app. now left.
  - (* not in N'_dm(i) *)
    repeat split; auto.
    + intros k Hk Hek. apply elem_of_app in Hk as [Hk|Hk]; auto.
      apply list_elem_of_singleton in Hk as ->. congruence.
    + destruct Hsel as [[-> Hnone]|(Hin & H0 & Hel & Heq & Hlt')].
      * left. split; [reflexivity|]. intros k Hk Hek.
        apply elem_of_app in Hk as [Hk|Hk]; auto.
        apply list_elem_of_singleton in Hk as ->. congruence.
      * right. repeat split; auto. apply elem_of_app. now left.
Qed.

Lemma scan_inv_run (a : ClusteringAlgo) (dm : float) (i : Z) (cs seen : list Z)
  (s s' : float * Z) :
  scan_inv a dm i seen s ->
  for_each cs (higher_step a dm (rho_at a i) i) s = Ret s' ->
  scan_inv a dm i (seen ++ cs) s'.
Proof.
  revert seen s. induction cs as [|j cs IH]; intros seen s Hinv Hrun.
  - cbn in Hrun. injection Hrun as <-. now rewrite app_nil_r.
  - cbn [for_each] in Hrun. inv_bind Hrun.
    replace (seen ++ j :: cs) with ((seen ++ [j]) ++ cs) by (now rewrite <- app_assoc).
    eapply IH; [|exact Hrun]. eapply scan_inv_step; eassumption.
Qed.

Lemma scan_inv_init (a : ClusteringAlgo) (dm : float) (i : Z) :
  scan_inv a dm i [] (F32.FLT_MAX, -1).
Proof.
  repeat split.
  - intros j Hj. now apply elem_of_nil in Hj.
  - left. split; [reflexivity|]. intros j Hj. now apply elem_of_nil in Hj.
Qed.

Lemma with_results_self (a : ClusteringAlgo) :
  a = with_results a (Points.delta (points_ a)) (Points.nearestHigher (points_ a)).
Proof. destruct a as [? ? ? ? ? []]. reflexivity. Qed.

Lemma higher_point_result (t : tiles) (a : ClusteringAlgo) (dm : float) (i : Z)
  (D : list float) (N : list Z) (a' : ClusteringAlgo) :
  higher_point t dm i (with_results a D N) = Ret a' ->
  exists sb delta_i nh_i,
    get_search_box t a dm i = Ret sb /\
    0 <= i < Z.of_nat (length D) /\ 0 <= i < Z.of_nat (length N) /\
    a' = with_results a (<[Z.to_nat i := delta_i]> D) (<[Z.to_nat i := nh_i]> N) /\
    scan_inv a dm i (candidates t sb) (delta_i, nh_i).
Proof.
  unfold higher_point. intros H.
  inv_bind H. inv_bind H. inv_bind H. destruct x1 as [delta_i nh_i].
  inv_bind H. inv_bind H. injection H as <-.
  apply vset_Ret in H3 as [HD ->]. apply vset_Ret in H4 as [HN ->].
  cbn in HD, HN.
  exists x0, delta_i, nh_i.
  split; [exact H1|]. split; [lia|]. split; [lia|]. split; [reflexivity|].
  rewrite for_box_flat in H2.
  change (vget (Points.rho (points_ a)) i = Ret x) in H0.
  apply rho_at_Ret in H0. subst x.
  apply (scan_inv_run a dm i (candidates t x0) [] _ _ (scan_inv_init a dm i)).
  exact H2.
Qed.

Lemma higher_loop (t : tiles) (a : ClusteringAlgo) (dm : float) (l : list Z)
  (D : list float) (N : list Z) (a' : ClusteringAlgo) :
  NoDup l ->
  for_each l (higher_point t dm) (with_results a D N) = Ret a' ->
  exists D' N',
    a' = with_results a D' N' /\
    (forall i, i ∈ l -> scanned t a dm D' N' i) /\
    (forall k, k ∉ l -> vget D' k = vget D k /\ vget N' k = vget N k).
Proof.
  revert D N. induction l as [|i l IH]; intros D N Hnd Hrun.
  - cbn in Hrun. injection Hrun as <-. exists D, N. repeat split.
    intros i Hi. now apply elem_of_nil in Hi.
  - cbn [for_each] in Hrun. inv_bind Hrun.
    apply higher_point_result in Hrun0 as (sb & delta_i & nh_i & Hsb & HD & HN & -> & Hinv).
    apply NoDup_cons in Hnd as [Hi Hnd].
    destruct (IH _ _ Hnd Hrun) as (D' & N' & -> & Hl & Hrest).
    exists D', N'. split; [reflexivity|]. split.
    + intros k Hk. apply elem_of_cons in Hk as [->|Hk]; [|now apply Hl].
      destruct (Hrest i Hi) as [HDi HNi].
      exists sb, delta_i, nh_i. split; [exact Hsb|]. split; [|split; [|exact Hinv]].
      * rewrite HDi. now apply vget_vset_eq.
      * rewrite HNi. now apply vget_vset_eq.
    + intros k Hk. apply not_elem_of_cons in Hk as [Hne Hk].
      destruct (Hrest k Hk) as [-> ->].
      split; apply vget_vset_ne; lia || congruence.
Qed.

(** C1 (as amended).  When [calculateDistanceToHigher] has completed, [rho] is
    as before and, for every point [i], with the candidates [j] scanned in
    the search box of [i] that satisfy [foundHigher] and
    [distance(i, j) <= dm]:
    [delta[i]] is at most the distance of every such candidate; if one of
    them lies nearer than [std::numeric_limits<float>::max()] then
    [nearestHigher[i]] is such a candidate and [delta[i]] its distance, hence
    the minimum; if none does, [delta[i]] is
    [std::numeric_limits<float>::max()] and [nearestHigher[i]] is -1.
    Every [nearestHigher[i]] other than -1 is denser than [i], or as dense
    with a greater index. *)
Theorem nearest_higher_search (t : tiles) (a a' : ClusteringAlgo) :
  calculateDistanceToHigher t a = Ret a' ->
  Points.rho (points_ a') = Points.rho (points_ a) /\
  forall i, 0 <= i < Points.n (points_ a) ->
  exists sb delta_i nh_i,
    get_search_box t a (dm_of a) i = Ret sb /\
    vget (Points.delta (points_ a')) i = Ret delta_i /\
    vget (Points.nearestHigher (points_ a')) i = Ret nh_i /\
    (forall j, j ∈ candidates t sb -> eligible a (dm_of a) i j = true ->
               F32.leb delta_i (dist_to a i j) = true) /\
    ((exists j, j ∈ candidates t sb /\ eligible a (dm_of a) i j = true /\
                F32.ltb (dist_to a i j) F32.FLT_MAX = true) ->
     nh_i ∈ candidates t sb /\ eligible a (dm_of a) i nh_i = true /\
     delta_i = dist_to a i nh_i) /\
    ((forall j, j ∈ candidates t sb -> eligible a (dm_of a) i j = true ->
                F32.ltb (dist_to a i j) F32.FLT_MAX = false) ->
     delta_i = F32.FLT_MAX /\ nh_i = -1) /\
    (nh_i <> -1 -> higher a' i nh_i = true).
Proof.
  unfold calculateDistanceToHigher. fold (dm_of a). intros Hrun.
  assert (Hrun' : for_each (range (Points.n (points_ a))) (higher_point t (dm_of a))
                    (with_results a (Points.delta (points_ a))
                       (Points.nearestHigher (points_ a))) = Ret a')
    by (now rewrite <- with_results_self).
  clear Hrun.
  apply higher_loop in Hrun' as (D' & N' & -> & Hl & _); [|apply NoDup_range].
  split; [reflexivity|]. intros i Hi.
  destruct (Hl i) as (sb & delta_i & nh_i & Hsb & HD & HN & Hmax & Hmin & Hsel).
  { now apply elem_of_range. }
  exists sb, delta_i, nh_i. cbn [fst snd] in *.
  split; [exact Hsb|]. split; [exact HD|]. split; [exact HN|].
  split; [exact Hmin|].
  destruct Hsel as [[[= -> ->] Hnone]|(Hin & H0 & Hel & Heq & Hlt)].
  - split; [|split; [intros _; split; reflexivity | intros Hne; congruence]].
    intros (j & Hj & Hej & Hlt). rewrite (Hnone j Hj Hej) in Hlt. discriminate.
  - split; [intros _; repeat split; assumption|]. split.
    + intros Hnone. rewrite Heq in Hlt. rewrite (Hnone _ Hin Hel) in Hlt. discriminate.
    + intros _. unfold eligible in Hel. apply andb_prop in Hel as [Hh _]. exact Hh.
Qed.

(** what the expansion of the clusters relies on: every link the search
    leaves goes to a higher point, and a point left without a link has its
    [delta] at the largest [float] *)
Lemma nearest_higher_links (t : tiles) (a a' : ClusteringAlgo) :
  calculateDistanceToHigher t a = Ret a' ->
  Points.n (points_ a') = Points.n (points_ a) /\
  forall i, 0 <= i < Points.n (points_ a) ->
    (nh_at a' i <> -1 -> higher a' i (nh_at a' i) = true) /\
    (nh_at a' i = -1 -> delta_at a' i = F32.FLT_MAX).
Proof.
  unfold calculateDistanceToHigher. fold (dm_of a). intros Hrun.
  assert (Hrun' : for_each (range (Points.n (points_ a))) (higher_point t (dm_of a))
                    (with_results a (Points.delta (points_ a))
                       (Points.nearestHigher (points_ a))) = Ret a')
    by (now rewrite <- with_results_self).
  clear Hrun.
  apply higher_loop in Hrun' as (D' & N' & -> & Hl & _); [|apply NoDup_range].
  split; [reflexivity|]. intros i Hi.
  destruct (Hl i) as (sb & delta_i & nh_i & _ & HD & HN & _ & _ & Hsel).
  { now apply elem_of_range. }
  unfold nh_at, delta_at.
  cbn [points_ with_results set_points Points.set_nearestHigher Points.set_delta
       Points.nearestHigher Points.delta].
  rewrite HN, HD. cbn [fst snd] in Hsel.
  destruct Hsel as [[[= -> ->] _]|(_ & Hpos & Hel & _)].
  - split; [congruence | reflexivity].
  - split; [|lia]. intros _.
    unfold eligible in Hel. apply andb_prop in Hel as [Hh _]. exact Hh.
Qed.
End NearestHigher.

(** On [near_pair] both points have density 2: point 0 finds point 1, its
    equal in density with the greater index, at distance 1. *)
Lemma nearest_higher_search_witness :
  exists a',
    calculateDistanceToHigher (C := Lattice.collaborators)
      (Examples.built Examples.near_pair).1 (Examples.built Examples.near_pair).2 = Ret a' /\
    vget (Points.nearestHigher (points_ a')) 0 = Ret 1 /\
    higher a' 0 1 = true.
Proof.
  eexists. split; [vm_compute; reflexivity|].
  split; [vm_compute; reflexivity|].
  match goal with |- higher ?r _ _ = _ =>
    assert (Hrun : calculateDistanceToHigher (C := Lattice.collaborators)
                     (Examples.built Examples.near_pair).1
                     (Examples.built Examples.near_pair).2 = Ret r)
      by (vm_compute; reflexivity)
  end.
  destruct (nearest_higher_search (C := Lattice.collaborators) _ _ _ Hrun) as [_ H].
  destruct (H 0) as (sb & delta_i & nh_i & _ & _ & Hnh & _ & _ & _ & Hhigher).
  { vm_compute. split; [discriminate | reflexivity]. }
  assert (Heq : nh_i = 1).
  { vm_compute in Hnh. now injection Hnh as <-. }
  subst nh_i. apply Hhigher. discriminate.
Defined.

(** C1 as stated fails on [far_pair].  Point 1 is scanned for point 0, is
    denser and lies within [dm] (both the distance and [dm] are infinite),
    so it is a candidate of the claim and the only one; yet
    [nearestHigher[0]] is -1 and [delta[0]] is the largest finite [float],
    not the distance of point 1. *)
Lemma nearest_higher_beyond_max :
  exists a' sb,
    calculateDistanceToHigher (C := Lattice.collaborators)
      (Examples.built Examples.far_pair).1 (Examples.built Examples.far_pair).2 = Ret a' /\
    get_search_box (C := Lattice.collaborators) (Examples.built Examples.far_pair).1
      (Examples.built Examples.far_pair).2 (dm_of (Examples.built Examples.far_pair).2) 0
      = Ret sb /\
    candidates (C := Lattice.collaborators) (Examples.built Examples.far_pair).1 sb
      = [0; 1; 0; 1] /\
    eligible (C := Lattice.collaborators) (Examples.built Examples.far_pair).2
      (dm_of (Examples.built Examples.far_pair).2) 0 1 = true /\
    eligible (C := Lattice.collaborators) (Examples.built Examples.far_pair).2
      (dm_of (Examples.built Examples.far_pair).2) 0 0 = false /\
    dist_to (C := Lattice.collaborators) (Examples.built Examples.far_pair).2 0 1
      = F32.infinity /\
    vget (Points.nearestHigher (points_ a')) 0 = Ret (-1) /\
    vget (Points.delta (points_ a')) 0 = Ret F32.FLT_MAX /\
    F32.FLT_MAX <> F32.infinity.
Proof.
  do 2 eexists.
  do 8 (split; [vm_compute; reflexivity|]). discriminate.
Qed.

(** ** Seeds, outliers and followers *)

Lemma range_succ (m : Z) : 0 <= m -> range (m + 1) = range m ++ [m].
Proof.
  intros H. unfold range. replace (Z.to_nat (m + 1)) with (S (Z.to_nat m)) by lia.
  rewrite seq_S, fmap_app. cbn. do 3 f_equal. lia.
Qed.

Lemma range_of_to_nat (n : Z) : range (Z.of_nat (Z.to_nat n)) = range n.
Proof. unfold range. now rewrite Nat2Z.id. Qed.

Lemma with_class_self (p : Points.t) :
  p = with_class p (Points.followers p) (Points.clusterIndex p) (Points.isSeed p).
Proof. now destruct p. Qed.

Lemma delta_at_Ret (a : ClusteringAlgo) (i : Z) (d : float) :
  vget (Points.delta (points_ a)) i = Ret d -> delta_at a i = d.
Proof. unfold delta_at. now intros ->. Qed.

Lemma nh_at_Ret (a : ClusteringAlgo) (i j : Z) :
  vget (Points.nearestHigher (points_ a)) i = Ret j -> nh_at a i = j.
Proof. unfold nh_at. now intros ->. Qed.

Lemma seeds_before_succ (a : ClusteringAlgo) (m : Z) :
  0 <= m ->
  seeds_before a (m + 1) = seeds_before a m + (if is_seed a m then 1 else 0).
Proof.
  intros H. unfold seeds_before. rewrite range_succ, filter_app, length_app by assumption.
  rewrite filter_cons, filter_nil. destruct (is_seed a m); cbn.
  - rewrite decide_True by reflexivity. cbn. lia.
  - rewrite decide_False by discriminate. cbn. lia.
Qed.

Lemma registered_succ (a : ClusteringAlgo) (m k : Z) :
  0 <= m ->
  registered a (m + 1) k =
    registered a m k ++
    (if is_follower a m && (nh_at a m =? k) then [m] else []).
Proof.
  intros H. unfold registered. rewrite range_succ, filter_app by assumption.
  f_equal. rewrite filter_cons, filter_nil.
  destruct (is_follower a m); cbn [andb].
  - destruct (Z.eqb_spec (nh_at a m) k).
    + rewrite decide_True by auto. reflexivity.
    + rewrite decide_False by tauto. reflexivity.
  - rewrite decide_False by (intros [? _]; discriminate). reflexivity.
Qed.

(** one turn of the first loop, by the class of the point *)
Lemma classify_point_cases (a : ClusteringAlgo) (i nc : Z) (st : list Z)
  (F : list (list Z)) (CI IS : list Z) (s' : Z * list Z * Points.t) :
  classify_point a i (nc, st, with_class (points_ a) F CI IS) = Ret s' ->
  let p := points_ a in
  0 <= i < Z.of_nat (length CI) /\
  (is_seed a i = true /\ 0 <= i < Z.of_nat (length IS) /\
   s' = (nc + 1, i :: st,
         with_class p F (<[Z.to_nat i := nc]> (<[Z.to_nat i := -1]> CI))
           (<[Z.to_nat i := 1]> IS))
   \/
   is_follower a i = true /\
   (exists fl, vget F (nh_at a i) = Ret fl /\
               0 <= nh_at a i < Z.of_nat (length F) /\
               s' = (nc, st,
                     with_class p (<[Z.to_nat (nh_at a i) := fl ++ [i]]> F)
                       (<[Z.to_nat i := -1]> CI) IS))
   \/
   is_outlier a i = true /\
   s' = (nc, st, with_class p F (<[Z.to_nat i := -1]> CI) IS)).
Proof.
  unfold classify_point. intros H. cbn zeta.
  inv_bind H. apply vset_Ret in H0 as [HCI ->].
  cbn [with_class Points.set_clusterIndex Points.clusterIndex Points.delta Points.rho
       Points.isSeed Points.followers Points.nearestHigher Points.coordinates_
       Points.weight Points.n Points.set_isSeed Points.set_followers] in *.
  inv_bind H. inv_bind H.
  split; [exact HCI|].
  unfold is_follower, is_outlier, is_seed.
  rewrite (delta_at_Ret _ _ _ H0), (rho_at_Ret _ _ _ H1).
  fold (seed_test a x x0) in H. fold (outlier_test a x x0) in H.
  destruct (seed_test a x x0) eqn:Hs.
  - inv_bind H. inv_bind H. injection H as <-.
    apply vset_Ret in H2 as [HIS ->]. apply vset_Ret in H3 as [_ ->].
    left. repeat split; try lia. 
  - destruct (outlier_test a x x0) eqn:Ho; cbn [negb] in H.
    + injection H as <-. right. right. split; reflexivity.
    + inv_bind H. inv_bind H. inv_bind H. injection H as <-.
      rewrite (nh_at_Ret _ _ _ H2).
      apply vset_Ret in H4 as [HF ->].
      right. left. split; [reflexivity|]. exists x2. repeat split; try assumption; lia.
Qed.

Lemma is_seed_in_range (a : ClusteringAlgo) (i : Z) : is_seed a i = true -> 0 <= i.
Proof.
  unfold is_seed, seed_test, delta_at, vget. destruct (Z.ltb_spec i 0); [|lia].
  unfold F32.gtb, SFltb. rewrite F32_compare_nan by (right; reflexivity).
  discriminate.
Qed.

Lemma class_inv_step (a : ClusteringAlgo) (F0 : list (list Z)) (CI0 IS0 : list Z)
  (m : Z) (s s' : Z * list Z * Points.t) :
  0 <= m ->
  class_inv a F0 CI0 IS0 m s ->
  classify_point a m s = Ret s' ->
  class_inv a F0 CI0 IS0 (m + 1) s'.
Proof.
  intros Hm (F & CI & IS & Hq & Hnc & Hst & HIS & HCI & HF & Hdef) Hstep.
  destruct s as [[nc st] q]. cbn [fst snd] in *. subst q nc.
  apply classify_point_cases in Hstep as [HlenCI Hcases]. cbn zeta in Hcases.
  destruct Hcases as [(Hseed & HlenIS & ->)|[(Hfol & fl & Hfl & Hnh & ->)|(Hout & ->)]].
  - (* a seed *)
    exists F, (<[Z.to_nat m := seeds_before a m]> (<[Z.to_nat m := -1]> CI)),
           (<[Z.to_nat m := 1]> IS). cbn [fst snd].
    split; [reflexivity|]. split; [rewrite seeds_before_succ, Hseed by lia; reflexivity|].
    split; [|split; [|split; [|split]]].
    + intros i Hi. apply elem_of_cons in Hi as [->|Hi]; [split; [lia|assumption]|].
      destruct (Hst i Hi). split; [lia|assumption].
    + intros i. destruct (Z.eq_dec m i) as [<-|Hne].
      * rewrite vget_vset_eq by lia. destruct (Z.ltb_spec m (m + 1)); [|lia].
        now rewrite Hseed.
      * rewrite vget_vset_ne, HIS by lia.
        destruct (Z.ltb_spec i m), (Z.ltb_spec i (m + 1)); try lia; reflexivity.
    + intros i. destruct (Z.eq_dec m i) as [<-|Hne].
      * rewrite vget_vset_eq by (rewrite length_insert; lia).
        destruct (Z.leb_spec 0 m), (Z.ltb_spec m (m + 1)); try lia. cbn.
        now rewrite Hseed.
      * rewrite !vget_vset_ne, HCI by lia.
        destruct (Z.leb_spec 0 i), (Z.ltb_spec i m), (Z.ltb_spec i (m + 1));
          try lia; reflexivity.
    + intros k. rewrite registered_succ by lia.
      assert (is_follower a m = false) as ->
        by (unfold is_follower; now rewrite Hseed).
      cbn [andb]. rewrite app_nil_r. apply HF.
    + intros i Hi Hfi. destruct (Z.eq_dec i m) as [->|Hne]; [|apply Hdef; [lia|assumption]].
      unfold is_follower in Hfi. rewrite Hseed in Hfi. discriminate.
  - (* a follower *)
    assert (Hseed : is_seed a m = false).
    { unfold is_follower in Hfol. now destruct (is_seed a m). }
    exists (<[Z.to_nat (nh_at a m) := fl ++ [m]]> F), (<[Z.to_nat m := -1]> CI), IS.
    cbn [fst snd].
    split; [reflexivity|]. split; [rewrite seeds_before_succ, Hseed by lia; lia|].
    split; [|split; [|split; [|split]]].
    + intros i Hi. destruct (Hst i Hi). split; [lia|assumption].
    + intros i. rewrite HIS.
      destruct (Z.eq_dec m i) as [<-|Hne].
      * rewrite Hseed, !andb_false_r. reflexivity.
      * destruct (Z.ltb_spec i m), (Z.ltb_spec i (m + 1)); try lia; reflexivity.
    + intros i. destruct (Z.eq_dec m i) as [<-|Hne].
      * rewrite vget_vset_eq by lia.
        destruct (Z.leb_spec 0 m), (Z.ltb_spec m (m + 1)); try lia. cbn.
        now rewrite Hseed.
      * rewrite !vget_vset_ne, HCI by lia.
        destruct (Z.leb_spec 0 i), (Z.ltb_spec i m), (Z.ltb_spec i (m + 1));
          try lia; reflexivity.
    + intros k. rewrite registered_succ, Hfol by lia. cbn [andb].
      destruct (Z.eqb_spec (nh_at a m) k) as [<-|Hne].
      * rewrite vget_vset_eq by lia.
        rewrite HF in Hfl. inv_bind Hfl. injection Hfl as <-.
        rewrite Hfl0. cbn. now rewrite <- app_assoc.
      * rewrite vget_vset_ne by lia. rewrite app_nil_r. apply HF.
    + intros i Hi Hfi. destruct (Z.eq_dec i m) as [->|Hne]; [|apply Hdef; [lia|assumption]].
      rewrite HF in Hfl. inv_bind Hfl. eauto.
  - (* an outlier *)
    assert (Hseed : is_seed a m = false).
    { unfold is_outlier in Hout. now destruct (is_seed a m). }
    assert (Hfol : is_follower a m = false).
    { unfold is_outlier, is_follower in *. rewrite Hseed in *. cbn in *.
      now rewrite Hout. }
    exists F, (<[Z.to_nat m := -1]> CI), IS. cbn [fst snd].
    split; [reflexivity|]. split; [rewrite seeds_before_succ, Hseed by lia; lia|].
    split; [|split; [|split; [|split]]].
    + intros i Hi. destruct (Hst i Hi). split; [lia|assumption].
    + intros i. rewrite HIS.
      destruct (Z.eq_dec m i) as [<-|Hne].
      * rewrite Hseed, !andb_false_r. reflexivity.
      * destruct (Z.ltb_spec i m), (Z.ltb_spec i (m + 1)); try lia; reflexivity.
    + intros i. destruct (Z.eq_dec m i) as [<-|Hne].
      * rewrite vget_vset_eq by lia.
        destruct (Z.leb_spec 0 m), (Z.ltb_spec m (m + 1)); try lia. cbn.
        now rewrite Hseed.
      * rewrite !vget_vset_ne, HCI by lia.
        destruct (Z.leb_spec 0 i), (Z.ltb_spec i m), (Z.ltb_spec i (m + 1));
          try lia; reflexivity.
    + intros k. rewrite registered_succ, Hfol by lia. cbn [andb].
      rewrite app_nil_r. apply HF.
    + intros i Hi Hfi. destruct (Z.eq_dec i m) as [->|Hne]; [|apply Hdef; [lia|assumption]].
      congruence.
Qed.

Lemma find_seeds_prefix (a : ClusteringAlgo) (m : nat) (s : Z * list Z * Points.t) :
  for_each (range (Z.of_nat m)) (classify_point a) (0, [], points_ a) = Ret s ->
  class_inv a (Points.followers (points_ a)) (Points.clusterIndex (points_ a))
    (Points.isSeed (points_ a)) (Z.of_nat m) s.
Proof.
  revert s. induction m as [|m IH]; intros s H.
  - cbn in H. injection H as <-. change (Z.of_nat 0) with 0.
    exists (Points.followers (points_ a)), (Points.clusterIndex (points_ a)),
           (Points.isSeed (points_ a)). cbn [fst snd].
    split; [apply with_class_self|]. split; [reflexivity|].
    split; [intros i Hi; now apply elem_of_nil in Hi|].
    split; [|split; [|split]].
    + intros i. destruct (Z.ltb_spec i 0); [|reflexivity].
      destruct (is_seed a i) eqn:Hs; [|reflexivity].
      apply is_seed_in_range in Hs. lia.
    + intros i. destruct (Z.leb_spec 0 i), (Z.ltb_spec i 0); try lia; reflexivity.
    + intros k. unfold registered. cbn.
      destruct (vget (Points.followers (points_ a)) k); cbn; try reflexivity.
      now rewrite app_nil_r.
    + intros i Hi. lia.
  - replace (Z.of_nat (S m)) with (Z.of_nat m + 1) in * by lia.
    rewrite range_succ, for_each_snoc in H by lia. inv_bind H.
    eapply class_inv_step; [lia | apply IH; exact H0 | exact H].
Qed.

Lemma find_seeds_result (a : ClusteringAlgo) (s : Z * list Z * Points.t) :
  find_seeds a = Ret s ->
  class_inv a (Points.followers (points_ a)) (Points.clusterIndex (points_ a))
    (Points.isSeed (points_ a)) (Z.max 0 (Points.n (points_ a))) s.
Proof.
  unfold find_seeds. rewrite <- range_of_to_nat. intros H.
  apply find_seeds_prefix in H.
  replace (Z.max 0 (Points.n (points_ a))) with (Z.of_nat (Z.to_nat (Points.n (points_ a))))
    by lia.
  exact H.
Qed.

(** The second loop writes [clusterIndex] only, and there only at points
    that stand in a follower list. *)
Lemma pass_id_frame (i : Z) (fl : list Z) (CI st CI' st' : list Z) :
  for_each fl (pass_id i) (CI, st) = Ret (CI', st') ->
  forall k, k ∉ fl -> vget CI' k = vget CI k.
Proof.
  revert CI st. induction fl as [|j fl IH]; intros CI st H k Hk.
  - cbn in H. now injection H as <- <-.
  - cbn [for_each] in H. inv_bind H. destruct x as [CI1 st1].
    unfold pass_id in H0. inv_bind H0. inv_bind H0. injection H0 as <- <-.
    apply vset_Ret in H2 as [Hj ->].
    apply not_elem_of_cons in Hk as [Hne Hk].
    rewrite (IH _ _ H k Hk). apply vget_vset_ne; lia.
Qed.

Lemma expand_clusters_frame (fuel : nat) (st : list Z) (p : Points.t)
  (F : list (list Z)) (CI IS : list Z) (q : Points.t) :
  expand_clusters fuel st (with_class p F CI IS) = Ret q ->
  exists CI', q = with_class p F CI' IS /\
    forall k, (forall i fl, vget F i = Ret fl -> k ∉ fl) -> vget CI' k = vget CI k.
Proof.
  revert st CI. induction fuel as [|fuel IH]; intros st CI H.
  - destruct st; cbn in H; [|discriminate]. injection H as <-. eauto.
  - destruct st as [|i st]; cbn [expand_clusters] in H.
    + injection H as <-. eauto.
    + inv_bind H. destruct (for_each x (pass_id i) _) as [[CI1 st1]| | |] eqn:Hpass;
        cbn in H; try discriminate.
      change (expand_clusters fuel st1 (with_class p F CI1 IS) = Ret q) in H.
      destruct (IH _ _ H) as (CI' & -> & Hframe).
      exists CI'. split; [reflexivity|]. intros k Hk.
      rewrite Hframe by assumption.
      eapply pass_id_frame; [exact Hpass|]. eapply Hk. exact H0.
Qed.

Lemma vget_replicate {A} (k : nat) (x : A) (i : Z) :
  vget (replicate k x) i = if (0 <=? i) && (i <? Z.of_nat k) then Ret x else Undef.
Proof.
  unfold vget. destruct (Z.ltb_spec i 0), (Z.leb_spec 0 i); try lia; [reflexivity|].
  cbn [andb]. destruct (Z.ltb_spec i (Z.of_nat k)).
  - rewrite lookup_replicate_2 by lia. reflexivity.
  - rewrite lookup_ge_None_2; [reflexivity|]. rewrite length_replicate. lia.
Qed.

Lemma class_trichotomy (a : ClusteringAlgo) (i : Z) :
  is_seed a i = true \/ is_follower a i = true \/ is_outlier a i = true.
Proof.
  unfold is_follower, is_outlier.
  destruct (is_seed a i), (outlier_test a _ _); cbn; auto.
Qed.

(** X25.  [findAndAssignClusters], entered with [isSeed] all false and the
    follower lists all empty as [setPoints] creates them on a new engine,
    leaves for every point [i]:
    [isSeed[i]] true exactly when [delta[i] > dc] and [rho[i] >= rhoc], and
    then [clusterIndex[i]] is the number of seeds of smaller index (the ids
    0, 1, 2, ... in increasing index order);
    [clusterIndex[i]] at -1 with [i] in no follower list exactly when [i] is
    no seed and [delta[i] > outlierDeltaFactor * dc] and [rho[i] < rhoc];
    every other point in [followers[nearestHigher[i]]]. *)
Theorem cluster_classification (fuel : nat) (a a' : ClusteringAlgo) :
  Points.isSeed (points_ a) = replicate (Z.to_nat (Points.n (points_ a))) 0 ->
  Points.followers (points_ a) = replicate (Z.to_nat (Points.n (points_ a))) [] ->
  findAndAssignClusters fuel a = Ret a' ->
  forall i, 0 <= i < Points.n (points_ a) ->
    vget (Points.isSeed (points_ a')) i = Ret (if is_seed a i then 1 else 0) /\
    (is_seed a i = true ->
       vget (Points.clusterIndex (points_ a')) i = Ret (seeds_before a i)) /\
    ((vget (Points.clusterIndex (points_ a')) i = Ret (-1) /\
      forall k fl, vget (Points.followers (points_ a')) k = Ret fl -> i ∉ fl)
     <-> is_outlier a i = true) /\
    (is_seed a i = false -> is_outlier a i = false ->
       exists fl, vget (Points.followers (points_ a')) (nh_at a i) = Ret fl /\ i ∈ fl).
Proof.
  intros HIS0 HF0 Hrun i Hi. unfold findAndAssignClusters in Hrun.
  inv_bind Hrun. destruct x as [[nc st] q]. inv_bind Hrun. injection Hrun as <-.
  apply find_seeds_result in Hrun0 as (F & CI & IS & Hq & _ & _ & HIS & HCI & HF & Hdef).
  cbn [fst snd] in *. subst q.
  apply expand_clusters_frame in Hrun1 as (CI' & -> & Hframe).
  cbn [points_ set_points with_class Points.isSeed Points.clusterIndex Points.followers].
  replace (Z.max 0 (Points.n (points_ a))) with (Points.n (points_ a)) in * by lia.
  rewrite HF0 in HF, Hdef. rewrite HIS0 in HIS.
  (* the follower lists hold followers only, each at its nearest higher *)
  assert (Hlists : forall k fl j, vget F k = Ret fl -> j ∈ fl ->
                     is_follower a j = true /\ nh_at a j = k).
  { intros k fl j Hk Hj. rewrite HF, vget_replicate in Hk.
    destruct (_ && _); cbn in Hk; [|discriminate]. injection Hk as <-.
    unfold registered in Hj. apply list_elem_of_filter in Hj. tauto. }
  assert (Hin : forall j, 0 <= j < Points.n (points_ a) -> is_follower a j = true ->
                  exists fl, vget F (nh_at a j) = Ret fl /\ j ∈ fl).
  { intros j Hj Hfj. destruct (Hdef j Hj Hfj) as (l0 & Hl0).
    rewrite HF, Hl0. cbn. eexists. split; [reflexivity|].
    apply elem_of_app. right. unfold registered. apply list_elem_of_filter.
    split; [auto | now apply elem_of_range]. }
  assert (Hkeep : is_follower a i = false -> vget CI' i = vget CI i).
  { intros Hnf. apply Hframe. intros k fl Hk Hmem.
    destruct (Hlists _ _ _ Hk Hmem). congruence. }
  pose proof (HCI i) as HCIi. pose proof (HIS i) as HISi.
  rewrite vget_replicate in HISi.
  destruct (Z.leb_spec 0 i), (Z.ltb_spec i (Points.n (points_ a))),
    (Z.ltb_spec i (Z.of_nat (Z.to_nat (Points.n (points_ a))))); try lia.
  cbn [andb] in *.
  split; [|split; [|split]].
  - rewrite HISi. now destruct (is_seed a i).
  - intros Hs. rewrite Hkeep, HCIi, Hs; [reflexivity|].
    unfold is_follower. now rewrite Hs.
  - split.
    + intros [Hm1 Hnone].
      destruct (class_trichotomy a i) as [Hs|[Hf|Ho]]; [| |exact Ho].
      * rewrite Hkeep, HCIi, Hs in Hm1 by (unfold is_follower; now rewrite Hs).
        injection Hm1 as Hm1. unfold seeds_before in Hm1. lia.
      * destruct (Hin i) as (fl & Hfl & Hmem); [lia|assumption|].
        now destruct (Hnone _ _ Hfl).
    + intros Ho. assert (Hs : is_seed a i = false).
      { unfold is_outlier in Ho. now destruct (is_seed a i). }
      assert (Hf : is_follower a i = false).
      { unfold is_outlier, is_follower in *. rewrite Hs in *. cbn in *. now rewrite Ho. }
      split.
      * now rewrite Hkeep, HCIi, Hs.
      * intros k fl Hk Hmem. destruct (Hlists _ _ _ Hk Hmem). congruence.
  - intros Hs Ho. apply Hin; [lia|].
    destruct (class_trichotomy a i) as [?|[?|?]]; congruence.
Qed.

(** On [near_pair], point 1 is the seed of cluster 0 and point 0 follows it. *)
Lemma cluster_classification_witness :
  exists a',
    findAndAssignClusters 10 (Examples.searched Examples.near_pair) = Ret a' /\
    is_seed (Examples.searched Examples.near_pair) 1 = true /\
    vget (Points.isSeed (points_ a')) 1 =
      Ret (if is_seed (Examples.searched Examples.near_pair) 1 then 1 else 0) /\
    vget (Points.clusterIndex (points_ a')) 1 =
      Ret (seeds_before (Examples.searched Examples.near_pair) 1).
Proof.
  eexists. split; [vm_compute; reflexivity|].
  assert (Hs : is_seed (Examples.searched Examples.near_pair) 1 = true)
    by (vm_compute; reflexivity).
  split; [exact Hs|].
  match goal with |- vget (Points.isSeed (points_ ?r)) _ = _ /\ _ =>
    assert (Hrun : findAndAssignClusters 10 (Examples.searched Examples.near_pair) = Ret r)
      by (vm_compute; reflexivity)
  end.
  assert (HIS : Points.isSeed (points_ (Examples.searched Examples.near_pair)) =
                replicate (Z.to_nat (Points.n (points_ (Examples.searched Examples.near_pair)))) 0)
    by (vm_compute; reflexivity).
  assert (HF : Points.followers (points_ (Examples.searched Examples.near_pair)) =
               replicate (Z.to_nat (Points.n (points_ (Examples.searched Examples.near_pair)))) [])
    by (vm_compute; reflexivity).
  assert (Hi : 0 <= 1 < Points.n (points_ (Examples.searched Examples.near_pair)))
    by (vm_compute; split; [discriminate | reflexivity]).
  destruct (cluster_classification 10 _ _ HIS HF Hrun 1 Hi) as (H1 & H2 & _).
  split; [exact H1 | exact (H2 Hs)].
Defined.

(** ** Flags and follower lists of an earlier run *)

(** C2, the defect.  [findAndAssignClusters] writes [isSeed[i]] only to set it
    to 1 for a seed, and only appends to the follower lists; unlike
    [clusterIndex], which it sets to -1 for every point, it re-initialises
    neither.  So after any call that returns, for every point [i]:
    [isSeed[i]] is 1 if [i] passes the seed test, and otherwise whatever it
    was on entry; and [followers[i]] is what it was on entry followed by the
    followers registered in this call.  A point flagged by an earlier run
    stays flagged though it is no seed. *)
Theorem stale_seed_flags_survive (fuel : nat) (a a' : ClusteringAlgo) :
  findAndAssignClusters fuel a = Ret a' ->
  forall i, 0 <= i < Points.n (points_ a) ->
    vget (Points.isSeed (points_ a')) i =
      (if is_seed a i then Ret 1 else vget (Points.isSeed (points_ a)) i) /\
    vget (Points.followers (points_ a')) i =
      (vget (Points.followers (points_ a)) i ≫=
       fun fl0 => Ret (fl0 ++ registered a (Points.n (points_ a)) i)) /\
    (is_seed a i = false ->
     vget (Points.isSeed (points_ a)) i = Ret 1 ->
     vget (Points.isSeed (points_ a')) i = Ret 1).
Proof.
  intros Hrun i Hi. unfold findAndAssignClusters in Hrun.
  inv_bind Hrun. destruct x as [[nc st] q]. inv_bind Hrun. injection Hrun as <-.
  apply find_seeds_result in Hrun0 as (F & CI & IS & Hq & _ & _ & HIS & _ & HF & _).
  cbn [fst snd] in *. subst q.
  apply expand_clusters_frame in Hrun1 as (CI' & -> & _).
  cbn [points_ set_points with_class Points.isSeed Points.followers].
  replace (Z.max 0 (Points.n (points_ a))) with (Points.n (points_ a)) in * by lia.
  assert (Hflag : vget IS i =
                  (if is_seed a i then Ret 1 else vget (Points.isSeed (points_ a)) i)).
  { rewrite HIS. destruct (Z.ltb_spec i (Points.n (points_ a))); [reflexivity|lia]. }
  split; [exact Hflag|]. split; [apply HF|].
  intros Hs H1. rewrite Hflag, Hs. exact H1.
Qed.

(** On [reused_pair] the first run has flagged both points.  In the second
    run point 0 lies one unit from point 1: its [delta] is 1, not above
    [dc_ = 1], so it is a follower of point 1 and no seed; it comes out
    flagged all the same. *)
Lemma stale_seed_flags_survive_witness :
  Examples.returned Examples.spread_pair = Some ([0; 1], [1; 1]) /\
  Examples.returned Examples.reused_pair = Some ([0; 0], [1; 1]) /\
  is_seed (Examples.searched Examples.reused_pair) 0 = false /\
  is_follower (Examples.searched Examples.reused_pair) 0 = true /\
  delta_at (Examples.searched Examples.reused_pair) 0 = F32.of_Z 1 /\
  exists a',
    findAndAssignClusters 10 (Examples.searched Examples.reused_pair) = Ret a' /\
    vget (Points.isSeed (points_ a')) 0 = Ret 1.
Proof.
  split; [vm_compute; reflexivity|]. split; [vm_compute; reflexivity|].
  assert (Hs : is_seed (Examples.searched Examples.reused_pair) 0 = false)
    by (vm_compute; reflexivity).
  split; [exact Hs|]. split; [vm_compute; reflexivity|]. split; [vm_compute; reflexivity|].
  eexists. split; [vm_compute; reflexivity|].
  match goal with |- vget (Points.isSeed (points_ ?r)) _ = _ =>
    assert (Hrun : findAndAssignClusters 10 (Examples.searched Examples.reused_pair) = Ret r)
      by (vm_compute; reflexivity)
  end.
  assert (Hi : 0 <= 0 < Points.n (points_ (Examples.searched Examples.reused_pair)))
    by (vm_compute; split; [discriminate | reflexivity]).
  apply (proj2 (proj2 (stale_seed_flags_survive 10 _ _ Hrun 0 Hi)) Hs).
  vm_compute. reflexivity.
Defined.

(** ** Termination of the expansion of the clusters *)

Lemma F32_gtb_spec (x y : float) :
  F32.gtb x y = true <->
  F32.is_nan x = false /\ F32.is_nan y = false /\ F32.lt3 (F32.key y) (F32.key x).
Proof. unfold F32.gtb. change (SFltb y x) with (F32.ltb y x). rewrite F32_ltb_spec. tauto. Qed.

(** [higher] is a strict order on the indices: no point is higher than
    itself, and higher than higher is higher. *)
Lemma higher_irrefl (a : ClusteringAlgo) (i : Z) : higher a i i = false.
Proof.
  unfold higher. apply orb_false_iff. split.
  - destruct (F32.gtb _ _) eqn:H; [|reflexivity].
    apply F32_gtb_spec in H as (_ & _ & H). now apply lt3_irrefl in H.
  - apply andb_false_iff. right. lia.
Qed.

Lemma higher_trans (a : ClusteringAlgo) (k j i : Z) :
  higher a k j = true -> higher a j i = true -> higher a k i = true.
Proof.
  unfold higher. rewrite !orb_true_iff, !andb_true_iff, !F32_gtb_spec, !F32_eqb_spec.
  intros [(Hj & Hk & H1)|[(Hj & Hk & H1) Hjk]] [(Hi & _ & H2)|[(Hi & _ & H2) Hij]].
  - left. repeat split; try assumption. eapply lt3_trans; eassumption.
  - left. repeat split; try assumption. now rewrite H2.
  - left. repeat split; try assumption. now rewrite <- H1.
  - right. split; [|lia]. repeat split; try assumption. congruence.
Qed.

Lemma filter_length_lt_sub {A} (P Q : A -> Prop) `{!forall x, Decision (P x)}
  `{!forall x, Decision (Q x)} (l : list A) (x : A) :
  (forall y, P y -> Q y) -> x ∈ l -> Q x -> ~ P x ->
  (length (filter P l) < length (filter Q l))%nat.
Proof.
  intros Hsub. induction l as [|y l IH]; intros Hx HQ HP.
  - now apply elem_of_nil in Hx.
  - rewrite !filter_cons. apply elem_of_cons in Hx as [<-|Hx].
    + rewrite decide_False, decide_True by assumption. cbn.
      assert (length (filter P l) <= length (filter Q l))%nat; [|lia].
      clear -Hsub. induction l as [|z l IH]; [cbn; lia|].
      rewrite !filter_cons. destruct (decide (P z)) as [Hz|Hz].
      * rewrite decide_True by auto. cbn. lia.
      * destruct (decide (Q z)); cbn; lia.
    + specialize (IH Hx HQ HP). destruct (decide (P y)) as [Hy|Hy].
      * rewrite decide_True by auto. cbn. lia.
      * destruct (decide (Q y)); cbn; lia.
Qed.

Lemma rank_lt (a : ClusteringAlgo) (j i : Z) :
  0 <= j < Points.n (points_ a) -> higher a j i = true -> (rank a j < rank a i)%nat.
Proof.
  intros Hj Hji. unfold rank. apply filter_length_lt_sub with (x := j).
  - intros k Hk. eapply higher_trans; eassumption.
  - now apply elem_of_range.
  - exact Hji.
  - rewrite higher_irrefl. discriminate.
Qed.

Section Expansion.
Variables (a : ClusteringAlgo) (F : list (list Z)) (IS : list Z).
(** every follower list holds points of the set, each lower than the point
    the list belongs to *)
Hypothesis Hedge : forall i fl j,
  vget F i = Ret fl -> j ∈ fl -> 0 <= j < Points.n (points_ a) /\ higher a j i = true.
Hypothesis HlenF : Z.of_nat (length F) = Points.n (points_ a).

Lemma pass_id_run (i : Z) (fl : list Z) (CI st : list Z) :
  0 <= i < Z.of_nat (length CI) ->
  (forall j, j ∈ fl -> 0 <= j < Z.of_nat (length CI)) ->
  exists CI', for_each fl (pass_id i) (CI, st) = Ret (CI', reverse fl ++ st) /\
              length CI' = length CI.
Proof.
  revert CI st. induction fl as [|j fl IH]; intros CI st Hi Hfl.
  - exists CI. split; reflexivity.
  - cbn [for_each]. unfold pass_id at 2.
    destruct (vget_defined CI i Hi) as (id & ->). cbn [mbind outcome_bind].
    assert (Hj : 0 <= j < Z.of_nat (length CI)) by (apply Hfl; left).
    assert (vset CI j id = Ret (<[Z.to_nat j := id]> CI)) as -> by (now apply vset_Ret).
    cbn [mbind outcome_bind].
    destruct (IH (<[Z.to_nat j := id]> CI) (j :: st)) as (CI' & -> & Hlen).
    + now rewrite length_insert.
    + intros k Hk. rewrite length_insert. apply Hfl. now right.
    + exists CI'. split; [|now rewrite Hlen, length_insert].
      rewrite reverse_cons, <- app_assoc. reflexivity.
Qed.

Lemma consumes_nil : consumes a F IS [].
Proof. intros st CI HCI. exists 0%nat, CI. split; [assumption | reflexivity]. Qed.

Lemma consumes_cons (i : Z) (l : list Z) : consumes a F IS [i] -> consumes a F IS l -> consumes a F IS (i :: l).
Proof.
  intros Hi Hl st CI HCI.
  destruct (Hi (l ++ st) CI HCI) as (k1 & CI1 & HCI1 & H1).
  destruct (Hl st CI1 HCI1) as (k2 & CI2 & HCI2 & H2).
  exists (k1 + k2)%nat, CI2. split; [assumption|]. intros fuel.
  rewrite <- Nat.add_assoc. rewrite <- H2. apply H1.
Qed.

Lemma consumes_all (l : list Z) : (forall i, i ∈ l -> consumes a F IS [i]) -> consumes a F IS l.
Proof.
  induction l as [|i l IH]; intros H; [apply consumes_nil|].
  apply consumes_cons; [apply H; left|]. apply IH. intros j Hj. apply H. now right.
Qed.

Lemma consumes_point (r : nat) (i : Z) :
  (rank a i < r)%nat -> 0 <= i < Points.n (points_ a) -> consumes a F IS [i].
Proof.
  revert i. induction r as [|r IH]; intros i Hr Hi; [lia|].
  destruct (vget_defined F i) as (fl & Hfl); [lia|].
  assert (Hsub : consumes a F IS (reverse fl)).
  { apply consumes_all. intros j Hj. rewrite elem_of_reverse in Hj.
    destruct (Hedge _ _ _ Hfl Hj) as [Hj' Hh].
    apply IH; [|assumption]. pose proof (rank_lt a j i Hj' Hh). lia. }
  intros st CI HCI.
  destruct (pass_id_run i fl CI st) as (CI1 & Hpass & Hlen1); [lia| |].
  { intros j Hj. destruct (Hedge _ _ _ Hfl Hj). lia. }
  destruct (Hsub st CI1) as (k & CI' & HCI' & Hk); [lia|].
  exists (S k), CI'. split; [assumption|]. intros fuel.
  cbn [app Nat.add expand_clusters].
  change (Points.followers (with_class (points_ a) F CI IS)) with F.
  rewrite Hfl. cbn [mbind outcome_bind].
  change (Points.clusterIndex (with_class (points_ a) F CI IS)) with CI.
  rewrite Hpass. cbn [mbind outcome_bind]. apply Hk.
Qed.

Lemma expansion_ends (st CI : list Z) :
  Z.of_nat (length CI) = Points.n (points_ a) ->
  (forall i, i ∈ st -> 0 <= i < Points.n (points_ a)) ->
  exists fuel q, expand_clusters fuel st (with_class (points_ a) F CI IS) = Ret q.
Proof.
  intros HCI Hst.
  assert (H : consumes a F IS st).
  { apply consumes_all. intros i Hi. apply (consumes_point (S (rank a i))); [lia | auto]. }
  destruct (H [] CI HCI) as (k & CI' & _ & Hk).
  exists (k + 0)%nat, (with_class (points_ a) F CI' IS).
  rewrite <- (app_nil_r st). rewrite Hk. reflexivity.
Qed.
End Expansion.

(** C9.  Let [nearestHigher] be as the nearest-higher search leaves it.  If
    every follower list holds points [j] of the set with [nearestHigher[j]]
    the point the list belongs to (the lists are within the inverse of the
    relation; that they hold all of it is not needed), then the work-stack
    loop of [findAndAssignClusters], started from any stack of points of
    the set, comes to an end: some number of turns empties the stack, with
    every access in bounds. *)
Theorem expansion_terminates {C : Collaborators} (t : tiles) (a0 a : ClusteringAlgo)
  (F : list (list Z)) (CI IS st : list Z) :
  calculateDistanceToHigher t a0 = Ret a ->
  Z.of_nat (length F) = Points.n (points_ a) ->
  Z.of_nat (length CI) = Points.n (points_ a) ->
  (forall i fl j, vget F i = Ret fl -> j ∈ fl ->
                  0 <= j < Points.n (points_ a) /\ nh_at a j = i) ->
  (forall i, i ∈ st -> 0 <= i < Points.n (points_ a)) ->
  exists fuel q, expand_clusters fuel st (with_class (points_ a) F CI IS) = Ret q.
Proof.
  intros Hsearch HF HCI Hinv Hst.
  destruct (nearest_higher_links t a0 a Hsearch) as [Hn Hlinks].
  apply expansion_ends; try assumption.
  intros i fl j Hfl Hj. destruct (Hinv i fl j Hfl Hj) as [Hj' Hnh].
  split; [assumption|]. rewrite <- Hnh. apply (Hlinks j); [lia|].
  rewrite Hnh. apply vget_Ret in Hfl. lia.
Qed.

Lemma near_pair_lists (i : Z) (fl : list Z) (j : Z) :
  vget [[]; [0]] i = Ret fl -> j ∈ fl ->
  0 <= j < Points.n (points_ (Examples.searched Examples.near_pair)) /\
  nh_at (Examples.searched Examples.near_pair) j = i.
Proof.
  intros H Hj. apply vget_Ret in H as [Hi H].
  destruct (Z.to_nat i) as [|[|k]] eqn:E; cbn in H; try discriminate;
    injection H as <-.
  - now apply elem_of_nil in Hj.
  - apply list_elem_of_singleton in Hj as ->.
    split; [vm_compute; split; [discriminate | reflexivity]|].
    replace i with 1 by lia. vm_compute. reflexivity.
Qed.

(** On [near_pair] the list of point 1 holds point 0, and the expansion
    from the seed 1 ends. *)
Lemma expansion_terminates_witness :
  exists fuel q,
    expand_clusters fuel [1]
      (with_class (points_ (Examples.searched Examples.near_pair))
         [[]; [0]] [-1; 0] [0; 1]) = Ret q.
Proof.
  apply (expansion_terminates (C := Lattice.collaborators)
           (Examples.built Examples.near_pair).1 (Examples.built Examples.near_pair).2).
  - vm_compute. reflexivity.
  - vm_compute. reflexivity.
  - vm_compute. reflexivity.
  - exact near_pair_lists.
  - intros i Hi. apply list_elem_of_singleton in Hi as ->.
    vm_compute. split; [discriminate | reflexivity].
Defined.

(** ** The assignment of the clusters after a search *)

Lemma higher_number (a : ClusteringAlgo) (i j : Z) :
  higher a i j = true -> F32.is_nan (rho_at a j) = false.
Proof.
  unfold higher. rewrite orb_true_iff, andb_true_iff, F32_gtb_spec, F32_eqb_spec.
  intros [(H & _)|[(H & _) _]]; exact H.
Qed.

Lemma rho_at_number (a : ClusteringAlgo) (j : Z) :
  F32.is_nan (rho_at a j) = false -> 0 <= j < Z.of_nat (length (Points.rho (points_ a))).
Proof.
  unfold rho_at. destruct (vget _ j) eqn:H; try discriminate. intros _.
  apply vget_Ret in H as [H0 H]. apply lookup_lt_Some in H. lia.
Qed.

(** two numbers compare: [x >= y] or [x < y] *)
Lemma F32_geb_or_ltb (x y : float) :
  F32.is_nan x = false -> F32.is_nan y = false -> F32.geb x y = true \/ F32.ltb x y = true.
Proof.
  intros Hx Hy. unfold F32.geb. change (SFleb y x) with (F32.leb y x).
  destruct (F32.ltb x y) eqn:Hlt; [now right|]. left. now apply F32_ltb_false_leb.
Qed.

Section Total.
Variable a : ClusteringAlgo.
Let n := Points.n (points_ a).
Hypothesis Hrho : Z.of_nat (length (Points.rho (points_ a))) = n.
Hypothesis Hdelta : Z.of_nat (length (Points.delta (points_ a))) = n.
Hypothesis Hnh : Z.of_nat (length (Points.nearestHigher (points_ a))) = n.
(** no follower is without a nearest higher *)
Hypothesis Hlinked : forall i, 0 <= i < n -> is_follower a i = true ->
  0 <= nh_at a i < n.

Lemma classify_point_defined (i nc : Z) (st : list Z) (F : list (list Z)) (CI IS : list Z) :
  0 <= i < n ->
  Z.of_nat (length F) = n -> Z.of_nat (length CI) = n -> Z.of_nat (length IS) = n ->
  exists nc' st' F' CI' IS',
    classify_point a i (nc, st, with_class (points_ a) F CI IS) =
      Ret (nc', st', with_class (points_ a) F' CI' IS') /\
    Z.of_nat (length F') = n /\ Z.of_nat (length CI') = n /\ Z.of_nat (length IS') = n.
Proof.
  intros Hi HF HCI HIS. unfold classify_point.
  assert (vset CI i (-1) = Ret (<[Z.to_nat i := -1]> CI)) as Hv by (apply vset_Ret; split; [lia|reflexivity]).
  cbn [with_class Points.clusterIndex]. rewrite Hv. cbn [mbind outcome_bind].
  cbn [with_class Points.set_clusterIndex Points.set_isSeed Points.set_followers
       Points.delta Points.rho Points.coordinates_ Points.weight
       Points.nearestHigher Points.followers Points.isSeed Points.n Points.clusterIndex].
  destruct (vget_defined (Points.delta (points_ a)) i) as (d & Hd); [lia|].
  destruct (vget_defined (Points.rho (points_ a)) i) as (r & Hr); [lia|].
  rewrite Hd, Hr. cbn [mbind outcome_bind].
  pose proof (Hlinked i Hi) as Hl. unfold is_follower, is_seed in Hl.
  rewrite (delta_at_Ret _ _ _ Hd), (rho_at_Ret _ _ _ Hr) in Hl.
  fold (seed_test a d r). fold (outlier_test a d r).
  destruct (seed_test a d r).
  - assert (vset IS i 1 = Ret (<[Z.to_nat i := 1]> IS)) as -> by (apply vset_Ret; split; [lia|reflexivity]).
    cbn [mbind outcome_bind].
    assert (vset (<[Z.to_nat i := -1]> CI) i nc =
            Ret (<[Z.to_nat i := nc]> (<[Z.to_nat i := -1]> CI))) as ->
      by (apply vset_Ret; rewrite length_insert; split; [lia|reflexivity]).
    cbn [mbind outcome_bind].
    exists (nc + 1), (i :: st), F, (<[Z.to_nat i := nc]> (<[Z.to_nat i := -1]> CI)),
           (<[Z.to_nat i := 1]> IS).
    split; [reflexivity|]. rewrite !length_insert. auto.
  - destruct (outlier_test a d r); cbn [negb].
    + exists nc, st, F, (<[Z.to_nat i := -1]> CI), IS.
      split; [reflexivity|]. rewrite !length_insert. auto.
    + specialize (Hl eq_refl).
      destruct (vget_defined (Points.nearestHigher (points_ a)) i) as (nh & Hnhi); [lia|].
      rewrite (nh_at_Ret _ _ _ Hnhi) in Hl. rewrite Hnhi. cbn [mbind outcome_bind].
      destruct (vget_defined F nh) as (fl & Hfl); [lia|]. rewrite Hfl.
      cbn [mbind outcome_bind].
      assert (vset F nh (fl ++ [i]) = Ret (<[Z.to_nat nh := fl ++ [i]]> F)) as ->
        by (apply vset_Ret; split; [lia|reflexivity]).
      cbn [mbind outcome_bind].
      exists nc, st, (<[Z.to_nat nh := fl ++ [i]]> F), (<[Z.to_nat i := -1]> CI), IS.
      split; [reflexivity|]. rewrite !length_insert. auto.
Qed.

Lemma find_seeds_defined_prefix (m : nat) :
  Z.of_nat m <= n ->
  Z.of_nat (length (Points.followers (points_ a))) = n ->
  Z.of_nat (length (Points.clusterIndex (points_ a))) = n ->
  Z.of_nat (length (Points.isSeed (points_ a))) = n ->
  exists nc st F CI IS,
    for_each (range (Z.of_nat m)) (classify_point a) (0, [], points_ a) =
      Ret (nc, st, with_class (points_ a) F CI IS) /\
    Z.of_nat (length F) = n /\ Z.of_nat (length CI) = n /\ Z.of_nat (length IS) = n.
Proof.
  intros Hm HF HCI HIS. induction m as [|m IH].
  - exists 0, [], (Points.followers (points_ a)), (Points.clusterIndex (points_ a)),
           (Points.isSeed (points_ a)).
    split; [cbn; now rewrite <- with_class_self | auto].
  - destruct IH as (nc & st & F & CI & IS & Hrun & HF' & HCI' & HIS'); [lia|].
    replace (Z.of_nat (S m)) with (Z.of_nat m + 1) by lia.
    rewrite range_succ, for_each_snoc, Hrun by lia. cbn [mbind outcome_bind].
    destruct (classify_point_defined (Z.of_nat m) nc st F CI IS)
      as (nc' & st' & F' & CI' & IS' & Hstep & ?); try assumption; [lia|].
    rewrite Hstep. eauto 10.
Qed.
End Total.

(** X1.  The whole of [findAndAssignClusters] after a completed search.  With
    every array of the length [n], [isSeed] all false and the follower lists
    all empty, the cut-off [dc_] and the radius [dm] below the largest
    [float], and the threshold [rhoc_] and every density a number: the
    function is defined and its work-stack loop ends. *)
Theorem findAndAssignClusters_total {C : Collaborators} (t : tiles) (a0 a : ClusteringAlgo) :
  calculateDistanceToHigher t a0 = Ret a ->
  Z.of_nat (length (Points.rho (points_ a))) = Points.n (points_ a) ->
  Z.of_nat (length (Points.delta (points_ a))) = Points.n (points_ a) ->
  Z.of_nat (length (Points.nearestHigher (points_ a))) = Points.n (points_ a) ->
  Z.of_nat (length (Points.clusterIndex (points_ a))) = Points.n (points_ a) ->
  Points.isSeed (points_ a) = replicate (Z.to_nat (Points.n (points_ a))) 0 ->
  Points.followers (points_ a) = replicate (Z.to_nat (Points.n (points_ a))) [] ->
  F32.ltb (dc_ a) F32.FLT_MAX = true ->
  F32.ltb (dm_of a) F32.FLT_MAX = true ->
  F32.is_nan (rhoc_ a) = false ->
  (forall i, 0 <= i < Points.n (points_ a) -> F32.is_nan (rho_at a i) = false) ->
  exists fuel a', findAndAssignClusters fuel a = Ret a'.
Proof.
  intros Hsearch Hrho Hdelta Hnh HCI HIS HF Hdc Hdm Hrhoc Hnum.
  destruct (nearest_higher_links t a0 a Hsearch) as [_ Hlinks].
  assert (Hn0 : 0 <= Points.n (points_ a)) by lia.
  assert (Hlinks' : forall i, 0 <= i < Points.n (points_ a) ->
            (nh_at a i <> -1 -> higher a i (nh_at a i) = true) /\
            (nh_at a i = -1 -> delta_at a i = F32.FLT_MAX)).
  { intros i Hi. apply Hlinks.
    destruct (nearest_higher_links t a0 a Hsearch) as [Hn _]. lia. }
  (* a follower has a nearest higher, and it is a point of the set *)
  assert (Hlinked : forall i, 0 <= i < Points.n (points_ a) -> is_follower a i = true ->
                      0 <= nh_at a i < Points.n (points_ a)).
  { intros i Hi Hfol. destruct (Hlinks' i Hi) as [Hlink Hnone].
    destruct (Z.eq_dec (nh_at a i) (-1)) as [Hm1|Hne].
    - exfalso. specialize (Hnone Hm1).
      unfold is_follower, is_seed, seed_test, outlier_test in Hfol. rewrite Hnone in Hfol.
      fold (dm_of a) in Hfol. unfold F32.gtb in Hfol.
      change (SFltb (dc_ a) F32.FLT_MAX) with (F32.ltb (dc_ a) F32.FLT_MAX) in Hfol.
      change (SFltb (dm_of a) F32.FLT_MAX) with (F32.ltb (dm_of a) F32.FLT_MAX) in Hfol.
      rewrite Hdc, Hdm in Hfol. cbn [andb] in Hfol.
      destruct (F32_geb_or_ltb (rho_at a i) (rhoc_ a) (Hnum i Hi) Hrhoc) as [Hge|Hlt].
      + rewrite Hge in Hfol. discriminate.
      + rewrite Hlt in Hfol. rewrite andb_false_r in Hfol. discriminate.
    - specialize (Hlink Hne). apply higher_number, rho_at_number in Hlink. lia. }
  destruct (find_seeds_defined_prefix a Hrho Hdelta Hnh Hlinked
              (Z.to_nat (Points.n (points_ a))))
    as (nc & st & F & CI & IS & Hrun & HlF & HlCI & HlIS); try lia.
  { rewrite HF, length_replicate. lia. }
  { rewrite HIS, length_replicate. lia. }
  rewrite range_of_to_nat in Hrun.
  pose proof (find_seeds_result a _ Hrun) as (F' & CI' & IS' & Hq & _ & Hst & _ & _ & HFk & _).
  cbn [fst snd] in Hq, Hst.
  assert (F' = F /\ CI' = CI /\ IS' = IS) as (-> & -> & ->).
  { unfold with_class in Hq. now injection Hq as <- <- <-. }
  replace (Z.max 0 (Points.n (points_ a))) with (Points.n (points_ a)) in * by lia.
  destruct (expansion_ends a F IS) with (st := st) (CI := CI) as (fuel & q & Hexp);
    try assumption.
  - intros i fl j Hfl Hj. rewrite HFk, HF, vget_replicate in Hfl.
    destruct (_ && _) eqn:Hi; cbn in Hfl; [|discriminate]. injection Hfl as <-.
    unfold registered in Hj. apply list_elem_of_filter in Hj as [[Hfol Hnhj] Hj].
    apply elem_of_range in Hj. split; [assumption|].
    rewrite <- Hnhj. apply (Hlinks' j Hj). pose proof (Hlinked j Hj Hfol). lia.
  - intros i Hi. destruct (Hst i Hi). lia.
  - exists fuel, (set_points a q). unfold findAndAssignClusters, find_seeds.
    rewrite Hrun. cbn [mbind outcome_bind]. rewrite Hexp. reflexivity.
Qed.

(** [near_pair] after its search *)
Lemma findAndAssignClusters_total_witness :
  exists fuel a',
    findAndAssignClusters fuel (Examples.searched Examples.near_pair) = Ret a'.
Proof.
  apply (findAndAssignClusters_total (C := Lattice.collaborators)
           (Examples.built Examples.near_pair).1 (Examples.built Examples.near_pair).2);
    try (vm_compute; reflexivity).
  intros i Hi.
  assert (Hcases : i = 0 \/ i = 1).
  { change (Points.n (points_ (Examples.searched Examples.near_pair))) with 2 in Hi. lia. }
  destruct Hcases as [-> | ->]; vm_compute; reflexivity.
Defined.

(** ** The engine as a whole *)

Lemma throws_bind {A B} (m : outcome A) (f : A -> outcome B) :
  throws m = false -> (forall x, throws (f x) = false) -> throws (m ≫= f) = false.
Proof. destruct m; cbn; auto; discriminate. Qed.

Lemma throws_for_each {S X} (l : list X) (body : X -> S -> outcome S) (s : S) :
  (forall x s, throws (body x s) = false) -> throws (for_each l body s) = false.
Proof.
  intros H. revert s. induction l as [|x l IH]; intros s; cbn [for_each]; [reflexivity|].
  apply throws_bind; auto.
Qed.

Lemma throws_vget {A} (v : list A) (i : Z) : throws (vget v i) = false.
Proof. unfold vget. destruct (i <? 0); [reflexivity|]. now destruct (v !! Z.to_nat i). Qed.

Lemma throws_vset {A} (v : list A) (i : Z) (x : A) : throws (vset v i x) = false.
Proof. unfold vset. destruct (i <? 0); [reflexivity|]. now destruct (i <? _). Qed.

Lemma throws_max_element (l : list float) : throws (max_element l) = false.
Proof. now destruct l. Qed.

Lemma throws_min_element (l : list float) : throws (min_element l) = false.
Proof. now destruct l. Qed.

Lemma throws_static_cast_int (x : float) : throws (static_cast_int x) = false.
Proof. destruct x; cbn; try reflexivity. now destruct (_ && _). Qed.

Lemma throws_int_div (x y : Z) : throws (int_div x y) = false.
Proof. unfold int_div. destruct (y =? 0); [reflexivity|]. now destruct (_ && _). Qed.

Ltac no_throw :=
  repeat first
    [ reflexivity
    | apply throws_vget | apply throws_vset
    | apply throws_max_element | apply throws_min_element
    | apply throws_static_cast_int | apply throws_int_div
    | apply throws_for_each; intros
    | apply throws_bind; [|intros]
    | match goal with
      | x : (_ * _)%type |- _ => destruct x
      | |- throws (if ?b then _ else _) = false => destruct b
      end ].

Section Whole.
Context {C : Collaborators}.

Lemma throws_calculateNTiles (ppt : Z) (a : ClusteringAlgo) (cout : list string) :
  throws (calculateNTiles ppt a cout) = false.
Proof.
  unfold calculateNTiles. apply throws_bind; [apply throws_int_div|]. intros ntiles.
  destruct (ntiles =? 0); reflexivity.
Qed.

Lemma throws_distance (a : ClusteringAlgo) (i j : Z) : throws (distance a i j) = false.
Proof. unfold distance. no_throw. Qed.

Lemma throws_get_search_box (t : tiles) (a : ClusteringAlgo) (r : float) (i : Z) :
  throws (get_search_box t a r i) = false.
Proof. unfold get_search_box, xjBins_dim. no_throw. Qed.

Lemma throws_build_tiles (a : ClusteringAlgo) (cout : list string) :
  throws (build_tiles a cout) = false.
Proof.
  unfold build_tiles. apply throws_bind; [apply throws_calculateNTiles|].
  intros [ntiles cout']. unfold calculateTileSize, prepareDataStructures. no_throw.
Qed.

Lemma throws_calculateLocalDensity (t : tiles) (ker : kernel) (a : ClusteringAlgo) :
  throws (calculateLocalDensity t ker a) = false.
Proof.
  unfold calculateLocalDensity, for_box, density_step.
  apply throws_for_each; intros. apply throws_bind; [apply throws_get_search_box|].
  intros. apply throws_for_each; intros. apply throws_for_each; intros.
  apply throws_bind; [apply throws_distance|]. intros. no_throw.
Qed.

Lemma throws_calculateDistanceToHigher (t : tiles) (a : ClusteringAlgo) :
  throws (calculateDistanceToHigher t a) = false.
Proof.
  unfold calculateDistanceToHigher, higher_point, for_box, higher_step.
  apply throws_for_each; intros. apply throws_bind; [apply throws_vget|]. intros.
  apply throws_bind; [apply throws_get_search_box|]. intros.
  apply throws_bind.
  - apply throws_for_each; intros. apply throws_for_each; intros.
    destruct s1. apply throws_bind; [apply throws_vget|]. intros.
    apply throws_bind; [apply throws_distance|]. intros. no_throw.
  - intros. no_throw.
Qed.

Lemma throws_expand_clusters (fuel : nat) (st : list Z) (p : Points.t) :
  throws (expand_clusters fuel st p) = false.
Proof.
  revert st p. induction fuel as [|fuel IH]; intros [|i st] p; cbn [expand_clusters];
    try reflexivity.
  apply throws_bind; [apply throws_vget|]. intros fl.
  apply throws_bind.
  - apply throws_for_each. intros j [CI st']. unfold pass_id. no_throw.
  - intros [CI st']. apply IH.
Qed.

Lemma throws_findAndAssignClusters (fuel : nat) (a : ClusteringAlgo) :
  throws (findAndAssignClusters fuel a) = false.
Proof.
  unfold findAndAssignClusters. apply throws_bind.
  - unfold find_seeds, classify_point. apply throws_for_each. intros i [[nc st] p].
    no_throw.
  - intros [[nc st] p]. apply throws_bind; [apply throws_expand_clusters|]. reflexivity.
Qed.

Lemma throws_makeClusters (fuel : nat) (ker : kernel) (a : ClusteringAlgo)
  (cout : list string) :
  throws (makeClusters fuel ker a cout) = false.
Proof.
  unfold makeClusters. apply throws_bind; [apply throws_build_tiles|]. intros [t cout'].
  apply throws_bind; [apply throws_calculateLocalDensity|]. intros a1.
  apply throws_bind; [apply throws_calculateDistanceToHigher|]. intros a2.
  apply throws_bind; [apply throws_findAndAssignClusters|]. reflexivity.
Qed.
End Whole.

(** *** [setPoints] *)

Lemma resize_same_length {A} (v : list A) (n : Z) (x : A) :
  0 <= n -> Z.of_nat (length v) = n -> resize v n x = Ret v.
Proof.
  intros Hn Hlen. unfold resize. destruct (Z.ltb_spec n 0); [lia|].
  replace (Z.to_nat n) with (length v) by lia.
  rewrite firstn_all, Nat.sub_diag. cbn. now rewrite app_nil_r.
Qed.

Lemma resize_empty {A} (n : Z) (x : A) :
  0 <= n -> resize [] n x = Ret (replicate (Z.to_nat n) x).
Proof.
  intros Hn. unfold resize. destruct (Z.ltb_spec n 0); [lia|].
  rewrite take_nil. cbn. now rewrite Nat.sub_0_r.
Qed.

(** X3.  On an engine just constructed, [setPoints] with [n > 0] returns
    false, stores the inputs and creates every result array with [n]
    elements at its default: [rho] 0, [delta] the largest [float],
    [nearestHigher] -1, [followers] empty, [clusterIndex] -1, [isSeed]
    false. *)
Theorem setPoints_first (n : Z) (coordinates : list (list float)) (weight : list float)
  (dc rhoc odf : float) (ppt : Z) (domains : list Domain.domain_t) :
  0 < n ->
  setPoints n coordinates weight (ClusteringAlgo_new dc rhoc odf ppt domains) =
    Ret (false,
         mkAlgo dc rhoc odf ppt domains
           (Points.mk coordinates weight
              (replicate (Z.to_nat n) F32.zero) (replicate (Z.to_nat n) F32.FLT_MAX)
              (replicate (Z.to_nat n) (-1)) (replicate (Z.to_nat n) [])
              (replicate (Z.to_nat n) (-1)) (replicate (Z.to_nat n) 0) n)).
Proof.
  intros Hn. unfold setPoints, ClusteringAlgo_new.
  cbn [points_ Points.fresh Points.rho Points.delta Points.nearestHigher Points.followers
       Points.clusterIndex Points.isSeed Points.n].
  destruct (Z.eqb_spec n 0); [lia|].
  rewrite !resize_empty by lia. reflexivity.
Qed.

(** two points on a new engine *)
Lemma setPoints_first_witness :
  setPoints 2 [[F32.of_Z 0; F32.of_Z 1]] [F32.of_Z 1; F32.of_Z 1]
    (ClusteringAlgo_new (F32.of_Z 2) (F32.of_Z 1) (F32.of_Z 2) 2 [Domain.default])
  = Ret (false, Examples.near_pair).
Proof.
  rewrite (setPoints_first 2) by lia. vm_compute. reflexivity.
Defined.

Lemma setPoints_zero (coordinates : list (list float)) (weight : list float)
  (a : ClusteringAlgo) :
  setPoints 0 coordinates weight a =
    Ret (true,
         set_points a
           (Points.mk coordinates weight (Points.rho (points_ a)) (Points.delta (points_ a))
              (Points.nearestHigher (points_ a)) (Points.followers (points_ a))
              (Points.clusterIndex (points_ a)) (Points.isSeed (points_ a)) 0)).
Proof. reflexivity. Qed.

(** C4, the defect.  On an engine whose result arrays already have the length
    [n] (a previous [setPoints]/[makeClusters] with as many points),
    [setPoints(n, ...)] with [n > 0] returns false and stores the inputs, and
    leaves every result array as it was: [resize] changes nothing in a
    vector that has the length asked for. *)
Theorem setPoints_keeps_results (n : Z) (coordinates : list (list float))
  (weight : list float) (a : ClusteringAlgo) :
  0 < n ->
  Z.of_nat (length (Points.rho (points_ a))) = n ->
  Z.of_nat (length (Points.delta (points_ a))) = n ->
  Z.of_nat (length (Points.nearestHigher (points_ a))) = n ->
  Z.of_nat (length (Points.followers (points_ a))) = n ->
  Z.of_nat (length (Points.clusterIndex (points_ a))) = n ->
  Z.of_nat (length (Points.isSeed (points_ a))) = n ->
  setPoints n coordinates weight a =
    Ret (false,
         set_points a
           (Points.mk coordinates weight (Points.rho (points_ a)) (Points.delta (points_ a))
              (Points.nearestHigher (points_ a)) (Points.followers (points_ a))
              (Points.clusterIndex (points_ a)) (Points.isSeed (points_ a)) n)).
Proof.
  intros Hn H1 H2 H3 H4 H5 H6. unfold setPoints.
  cbn [Points.rho Points.delta Points.nearestHigher Points.followers
       Points.clusterIndex Points.isSeed Points.n].
  destruct (Z.eqb_spec n 0); [lia|].
  rewrite !resize_same_length by (lia || assumption). reflexivity.
Qed.

(** [near_pair] after one [makeClusters], given the same two points again:
    the densities 2, the seed flag of point 1 and the follower list of
    point 1 are still there. *)
Lemma setPoints_keeps_results_witness :
  exists a',
    setPoints 2 [[F32.of_Z 0; F32.of_Z 1]] [F32.of_Z 1; F32.of_Z 1]
      (Examples.clustered Examples.near_pair) = Ret (false, a') /\
    Points.rho (points_ a') = [F32.of_Z 2; F32.of_Z 2] /\
    Points.delta (points_ a') = [F32.of_Z 1; F32.FLT_MAX] /\
    Points.nearestHigher (points_ a') = [1; -1] /\
    Points.followers (points_ a') = [[]; [0]] /\
    Points.clusterIndex (points_ a') = [0; 0] /\
    Points.isSeed (points_ a') = [0; 1].
Proof.
  eexists. split.
  - apply (setPoints_keeps_results 2 _ _ (Examples.clustered Examples.near_pair));
      vm_compute; reflexivity.
  - do 5 (split; [vm_compute; reflexivity|]). vm_compute. reflexivity.
Defined.

(** *** [makeClusters] *)

(** C3, the defect.  On [lonely_pair] the first [makeClusters] returns both
    points as outliers; a second call on the engine as the first one left
    it, with the same kernel, points and configuration, returns both as
    seeds: [rho] is added to, not recomputed. *)
Lemma makeClusters_second_call_differs :
  Examples.returned Examples.lonely_pair = Some ([-1; -1], [0; 0]) /\
  Examples.returned (Examples.clustered Examples.lonely_pair) = Some ([0; 1], [1; 1]) /\
  Points.rho (points_ (Examples.clustered Examples.lonely_pair)) = [F32.of_Z 1; F32.of_Z 1] /\
  Points.rho (points_ (Examples.clustered (Examples.clustered Examples.lonely_pair)))
    = [F32.of_Z 2; F32.of_Z 2].
Proof.
  do 3 (split; [vm_compute; reflexivity|]). vm_compute. reflexivity.
Qed.

Lemma vget_or_undef {A} (v : list A) (i : Z) :
  (exists x, vget v i = Ret x) \/ vget v i = Undef.
Proof.
  unfold vget. destruct (i <? 0); [now right|].
  destruct (v !! Z.to_nat i); [left; eauto | now right].
Qed.

Lemma static_cast_or_undef (x : float) :
  (exists z, static_cast_int x = Ret z) \/ static_cast_int x = Undef.
Proof.
  destruct x; cbn; try (now right); try (left; eauto; fail).
  destruct (_ && _); [left; eauto | now right].
Qed.

Section Degenerate.
Context {C : Collaborators}.

(** C5, the defect.  With fewer points than [pointsPerTile_],
    [calculateNTiles] writes its message and returns 0 like any other
    count; [makeClusters] goes on to build the grid with [nTiles = 0], and
    nothing it does raises an exception to the caller. *)
Theorem zero_tiles_not_reported (fuel : nat) (ker : kernel) (a : ClusteringAlgo)
  (cout : list string) :
  0 <= Points.n (points_ a) < pointsPerTile_ a ->
  calculateNTiles (pointsPerTile_ a) a cout = Ret (0, cout ++ [too_high_message]) /\
  build_tiles a cout =
    (let Tiles := resizeTiles (set_nTiles tiles_new 0) in
     '(tilesSize, Tiles) ← calculateTileSize (nTiles Tiles) Tiles a;
     Tiles ← prepareDataStructures (set_tilesSize Tiles tilesSize) a;
     Ret (Tiles, cout ++ [too_high_message])) /\
  throws (makeClusters fuel ker a cout) = false.
Proof.
  intros Hn.
  assert (Hnt : calculateNTiles (pointsPerTile_ a) a cout =
                Ret (0, cout ++ [too_high_message])).
  { unfold calculateNTiles, int_div.
    destruct (Z.eqb_spec (pointsPerTile_ a) 0); [lia|].
    destruct (Z.eqb_spec (pointsPerTile_ a) (-1)); [lia|]. rewrite andb_false_r.
    rewrite Z.quot_small by lia. reflexivity. }
  split; [exact Hnt|]. split; [|apply throws_makeClusters].
  unfold build_tiles. rewrite Hnt. reflexivity.
Qed.

(** C6, the defect.  With no point stored ([n == 0], every coordinate array
    empty) [makeClusters] has no defined result: [calculateTileSize] reads
    through [std::max_element] of an empty range. *)
Theorem makeClusters_empty_undefined (fuel : nat) (ker : kernel) (a : ClusteringAlgo)
  (cout : list string) :
  0 < Ndim ->
  Points.n (points_ a) = 0 ->
  (forall row, row ∈ Points.coordinates_ (points_ a) -> row = []) ->
  makeClusters fuel ker a cout = Undef.
Proof.
  intros HN Hn Hrows. unfold makeClusters.
  assert (Hts : forall NTiles t, calculateTileSize NTiles t a = Undef).
  { intros NTiles t. unfold calculateTileSize.
    destruct (static_cast_or_undef (std_pow (F32.double_of_Z NTiles) inv_Ndim))
      as [[NperDim ->]| ->]; cbn [mbind outcome_bind]; [|reflexivity].
    replace Ndim with ((Ndim - 1) + 1) by lia.
    assert (Hr : range (Ndim - 1 + 1) = 0 :: (Z.succ <$> range (Ndim - 1))).
    { unfold range.
      replace (Z.to_nat (Ndim - 1 + 1)) with (S (Z.to_nat (Ndim - 1))) by lia.
      cbn [seq fmap list_fmap]. f_equal. rewrite <- fmap_S_seq, <- !list_fmap_compose.
      apply list_fmap_ext. intros ? k _. cbn. lia. }
    rewrite Hr. cbn [for_each].
    destruct (vget_or_undef (Points.coordinates_ (points_ a)) 0) as [[row Hrow]| ->];
      cbn [mbind outcome_bind]; [|reflexivity].
    rewrite Hrow. cbn [mbind outcome_bind].
    apply vget_Ret in Hrow as [_ Hrow].
    rewrite (Hrows row); [reflexivity|]. apply list_elem_of_lookup. eauto. }
  assert (Hb : build_tiles a cout = Undef); [|now rewrite Hb].
  unfold build_tiles, calculateNTiles, int_div. rewrite Hn.
  destruct (pointsPerTile_ a =? 0); [reflexivity|].
  destruct (_ && _); [reflexivity|]. cbn [mbind outcome_bind].
  change (Z.quot 0 (pointsPerTile_ a)) with 0. cbn. now rewrite Hts.
Qed.
End Degenerate.

(** two points with three points per tile: the message is written, the
    grid has no bin, and the caller receives two outliers *)
Lemma zero_tiles_not_reported_witness :
  exists a',
    Examples.run Examples.sparse_pair [] = Ret ([-1; -1], [0; 0], a', [too_high_message]) /\
    throws (Examples.run Examples.sparse_pair []) = false.
Proof.
  eexists. split; [vm_compute; reflexivity|].
  apply (zero_tiles_not_reported (C := Lattice.collaborators) 10 Lattice.flat
           Examples.sparse_pair []).
  vm_compute. split; [discriminate | reflexivity].
Defined.

(** [setPoints(0, {{}}, {})] signals the empty set, and [makeClusters] on it
    is undefined *)
Lemma makeClusters_empty_undefined_witness :
  (exists a,
     setPoints 0 [[]] []
       (ClusteringAlgo_new (F32.of_Z 2) (F32.of_Z 1) (F32.of_Z 2) 1 [Domain.default])
     = Ret (true, a) /\ a = Examples.no_point) /\
  Examples.run Examples.no_point [] = Undef.
Proof.
  split; [eexists; split; vm_compute; reflexivity|].
  apply (makeClusters_empty_undefined (C := Lattice.collaborators)).
  - reflexivity.
  - reflexivity.
  - intros row Hrow. vm_compute in Hrow. apply list_elem_of_singleton in Hrow. exact Hrow.
Defined.

(** ** The members of the engine one by one *)

Lemma F32_eqb_finite (x : float) (s : bool) (m : positive) (e : Z) :
  F32.eqb x (S754_finite s m e) = true <-> x = S754_finite s m e.
Proof.
  split.
  - intros H. apply F32_eqb_spec in H as (Hx & _ & Hk).
    destruct x as [sx|sx| |sx mx ex]; try discriminate; cbn [F32.key] in Hk.
    + destruct s; discriminate.
    + destruct sx, s; discriminate.
    + destruct sx, s; inversion Hk; subst; try reflexivity.
      f_equal. lia.
  - intros ->. apply F32_eqb_spec. auto.
Qed.

Lemma F32_sqrt_not_negative (x : float) : F32.ltb (F32.sqrt x) F32.zero = false.
Proof.
  unfold F32.sqrt, SFsqrt.
  destruct x as [s|s| |s m e]; try reflexivity.
  - now destruct s.
  - destruct s; [reflexivity|].
    destruct (SFsqrt_core_binary F32.prec F32.emax (Z.pos m) e) as [[mz ez] lz].
    unfold binary_round_aux.
    destruct (shr_fexp F32.prec F32.emax mz ez lz) as [mrs' e'].
    destruct (shr_fexp _ _ _ _ _) as [mrs'' e''].
    destruct (shr_m mrs''); [reflexivity| |reflexivity].
    now destruct (_ <=? _).
Qed.

Lemma F32_div_zero (x : float) :
  let q := F32.div x (F32.of_Z 0) in
  F32.is_nan q = true \/ q = S754_infinity false \/ q = S754_infinity true.
Proof. destruct x as [s|s| |s m e]; cbn; try destruct s; auto. Qed.

(** X8.  [domain_t::empty()] holds for the default-constructed domain and for
    no other: a domain is empty, in the sense of this member, when it bounds
    nothing. *)
Theorem domain_empty_iff_default (d : Domain.domain_t) :
  Domain.empty d = true <-> d = Domain.default.
Proof.
  unfold Domain.empty, Domain.default.
  change F32.FLT_MAX with (S754_finite false 16777215 104).
  change (F32.opp (S754_finite false 16777215 104)) with (S754_finite true 16777215 104).
  rewrite andb_true_iff, !F32_eqb_finite. destruct d as [lo hi]. cbn [Domain.min Domain.max].
  split; [intros [-> ->]; reflexivity | intros H; inversion H; auto].
Qed.

Lemma calculateNTiles_value (pointPerBin : Z) (a : ClusteringAlgo) (cout : list string) :
  pointPerBin <> 0 -> (Points.n (points_ a) = INT_MIN -> pointPerBin <> -1) ->
  calculateNTiles pointPerBin a cout =
    Ret (Z.quot (Points.n (points_ a)) pointPerBin,
         if Z.abs (Points.n (points_ a)) <? Z.abs pointPerBin
         then cout ++ [too_high_message] else cout).
Proof.
  intros Hne Hmin. unfold calculateNTiles, int_div.
  destruct (Z.eqb_spec pointPerBin 0); [contradiction|].
  destruct ((Points.n (points_ a) =? INT_MIN) && (pointPerBin =? -1)) eqn:Hb.
  { apply andb_true_iff in Hb as [H1 H2]. apply Z.eqb_eq in H1, H2. tauto. }
  cbn [mbind outcome_bind].
  pose proof (Z.quot_small_iff (Points.n (points_ a)) pointPerBin Hne) as Hq.
  destruct (Z.eqb_spec (Z.quot (Points.n (points_ a)) pointPerBin) 0) as [H0|H0];
    destruct (Z.ltb_spec (Z.abs (Points.n (points_ a))) (Z.abs pointPerBin));
    cbn [try_catch mbind outcome_bind]; try reflexivity.
  - apply Hq in H0. lia.
  - exfalso. apply H0, Hq. assumption.
Qed.

(** X9.  [calculateNTiles(pointPerBin)] returns the quotient of the number of
    points by [pointPerBin], rounded towards zero, and writes its message
    exactly when that quotient is zero, that is when the number of points is
    smaller in magnitude than [pointPerBin]; with [pointPerBin == 0] the
    division is undefined. *)
Theorem calculateNTiles_quotient (pointPerBin : Z) (a : ClusteringAlgo) (cout : list string) :
  (pointPerBin = 0 -> calculateNTiles pointPerBin a cout = Undef) /\
  (pointPerBin <> 0 -> (Points.n (points_ a) = INT_MIN -> pointPerBin <> -1) ->
   calculateNTiles pointPerBin a cout =
     Ret (Z.quot (Points.n (points_ a)) pointPerBin,
          if Z.abs (Points.n (points_ a)) <? Z.abs pointPerBin
          then cout ++ [too_high_message] else cout) /\
   (0 < pointPerBin <= Points.n (points_ a) ->
      1 <= Z.quot (Points.n (points_ a)) pointPerBin /\
      Z.quot (Points.n (points_ a)) pointPerBin * pointPerBin <= Points.n (points_ a))).
Proof.
  split.
  - intros ->. reflexivity.
  - intros Hne Hmin. split; [now apply calculateNTiles_value|].
    intros Hle.
    pose proof (Z.quot_small_iff (Points.n (points_ a)) pointPerBin Hne) as Hq.
    pose proof (Z.quot_pos (Points.n (points_ a)) pointPerBin) as Hp.
    pose proof (Z.mul_quot_le (Points.n (points_ a)) pointPerBin) as Hm.
    split; [|lia].
    destruct (Z.eq_dec (Z.quot (Points.n (points_ a)) pointPerBin) 0) as [H0|H0]; [|lia].
    apply Hq in H0. lia.
Qed.

(** five points and two points per tile: two tiles, no message *)
Lemma calculateNTiles_quotient_witness :
  calculateNTiles 2
    (mkAlgo F32.zero F32.zero F32.zero 2 []
       (Points.mk [] [] [] [] [] [] [] [] 5)) []
  = Ret (2, []).
Proof.
  apply (calculateNTiles_quotient 2
           (mkAlgo F32.zero F32.zero F32.zero 2 [] (Points.mk [] [] [] [] [] [] [] [] 5)) []);
    cbn; unfold INT_MIN; lia.
Defined.

Lemma setPoints_negative (n : Z) (coordinates : list (list float))
  (weight : list float) (a : ClusteringAlgo) :
  n < 0 -> setPoints n coordinates weight a = Throw ExnLength.
Proof.
  intros Hn. unfold setPoints. cbn [Points.n Points.rho].
  destruct (Z.eqb_spec n 0); [lia|].
  assert (Hr : forall A (v : list A) (x : A), resize v n x = Throw ExnLength).
  { intros A v x. unfold resize. destruct (Z.ltb_spec n 0); [reflexivity|lia]. }
  rewrite (Hr _ (Points.rho (points_ a)) F32.zero). reflexivity.
Qed.

(** X10.  The two ends of [setPoints].  With [n == 0] it returns true, stores
    the inputs and leaves all six result arrays as they were.  With [n < 0]
    the first [resize] throws [std::length_error]: the call returns nothing. *)
Theorem setPoints_zero_and_negative (n : Z) (coordinates : list (list float))
  (weight : list float) (a : ClusteringAlgo) :
  (n = 0 ->
   setPoints n coordinates weight a =
     Ret (true,
          set_points a
            (Points.mk coordinates weight (Points.rho (points_ a)) (Points.delta (points_ a))
               (Points.nearestHigher (points_ a)) (Points.followers (points_ a))
               (Points.clusterIndex (points_ a)) (Points.isSeed (points_ a)) 0))) /\
  (n < 0 -> setPoints n coordinates weight a = Throw ExnLength).
Proof.
  split.
  - intros ->. reflexivity.
  - apply setPoints_negative.
Qed.

Lemma setPoints_zero_and_negative_witness :
  setPoints (-1) [[]] [] Examples.near_pair = Throw ExnLength.
Proof.
  apply (setPoints_zero_and_negative (-1) [[]] [] Examples.near_pair). lia.
Defined.

Section Members.
Context {C : Collaborators}.

(** X11.  [distance(i, j)], where it is defined, is never negative: the
    square root it returns is a NaN or compares at least zero. *)
Theorem distance_not_negative (a : ClusteringAlgo) (i j : Z) (d : float) :
  distance a i j = Ret d ->
  F32.ltb d F32.zero = false /\
  (F32.is_nan d = true \/ F32.leb F32.zero d = true).
Proof.
  intros H. unfold distance in H. inv_bind H. injection H as <-.
  pose proof (F32_sqrt_not_negative x) as Hs. split; [exact Hs|].
  destruct (F32.is_nan (F32.sqrt x)) eqn:Hn; [auto|right].
  apply F32_ltb_false_leb; [assumption|reflexivity|assumption].
Qed.
End Members.

Lemma distance_not_negative_witness :
  distance (C := Lattice.collaborators) Examples.near_pair 0 1 = Ret (F32.of_Z 1) /\
  F32.ltb (F32.of_Z 1) F32.zero = false.
Proof.
  assert (H : distance (C := Lattice.collaborators) Examples.near_pair 0 1 = Ret (F32.of_Z 1))
    by (vm_compute; reflexivity).
  split; [exact H|].
  exact (proj1 (distance_not_negative (C := Lattice.collaborators) _ _ _ _ H)).
Defined.

(** ** Building the grid *)

Lemma F32_leb_trans (a b c : float) :
  F32.leb a b = true -> F32.leb b c = true -> F32.leb a c = true.
Proof.
  rewrite !F32_leb_spec. intros (Ha & Hb & H1) (_ & Hc & H2).
  repeat split; try assumption.
  destruct H1 as [H1|H1], H2 as [H2|H2].
  - left. eapply lt3_trans; eassumption.
  - left. now rewrite <- H2.
  - left. now rewrite H1.
  - right. congruence.
Qed.

Lemma max_fold_upper (l : list float) (acc : float) :
  F32.is_nan acc = false -> Forall (fun x => F32.is_nan x = false) l ->
  let m := foldl (fun largest y => if F32.ltb largest y then y else largest) acc l in
  F32.is_nan m = false /\ (m = acc \/ m ∈ l) /\ F32.leb acc m = true /\
  forall x, x ∈ l -> F32.leb x m = true.
Proof.
  revert acc. induction l as [|y l IH]; intros acc Hacc Hl; cbn [foldl].
  - split; [assumption|]. split; [auto|]. split; [now apply F32_leb_refl|].
    intros x Hx. inversion Hx.
  - apply Forall_cons in Hl as [Hy Hl].
    destruct (F32.ltb acc y) eqn:Hlt.
    + destruct (IH y Hy Hl) as (Hm & Hin & Hle & Hall).
      split; [assumption|]. split; [right; destruct Hin as [->|?]; [left|right; assumption]|].
      split; [eapply F32_leb_trans; [apply F32_ltb_leb; eassumption|assumption]|].
      intros x Hx. apply elem_of_cons in Hx as [->|Hx]; auto.
    + destruct (IH acc Hacc Hl) as (Hm & Hin & Hle & Hall).
      split; [assumption|]. split; [destruct Hin; [auto|right; right; assumption]|].
      split; [assumption|].
      intros x Hx. apply elem_of_cons in Hx as [->|Hx]; auto.
      eapply F32_leb_trans; [|exact Hle]. now apply F32_ltb_false_leb.
Qed.

Lemma min_fold_lower (l : list float) (acc : float) :
  F32.is_nan acc = false -> Forall (fun x => F32.is_nan x = false) l ->
  let m := foldl (fun smallest y => if F32.ltb y smallest then y else smallest) acc l in
  F32.is_nan m = false /\ (m = acc \/ m ∈ l) /\ F32.leb m acc = true /\
  forall x, x ∈ l -> F32.leb m x = true.
Proof.
  revert acc. induction l as [|y l IH]; intros acc Hacc Hl; cbn [foldl].
  - split; [assumption|]. split; [auto|]. split; [now apply F32_leb_refl|].
    intros x Hx. inversion Hx.
  - apply Forall_cons in Hl as [Hy Hl].
    destruct (F32.ltb y acc) eqn:Hlt.
    + destruct (IH y Hy Hl) as (Hm & Hin & Hle & Hall).
      split; [assumption|]. split; [right; destruct Hin as [->|?]; [left|right; assumption]|].
      split; [eapply F32_leb_trans; [exact Hle|apply F32_ltb_leb; assumption]|].
      intros x Hx. apply elem_of_cons in Hx as [->|Hx]; auto.
    + destruct (IH acc Hacc Hl) as (Hm & Hin & Hle & Hall).
      split; [assumption|]. split; [destruct Hin; [auto|right; right; assumption]|].
      split; [assumption|].
      intros x Hx. apply elem_of_cons in Hx as [->|Hx]; auto.
      eapply F32_leb_trans; [exact Hle|]. now apply F32_ltb_false_leb.
Qed.

Lemma max_element_upper (row : list float) (m : float) :
  max_element row = Ret m -> Forall (fun x => F32.is_nan x = false) row ->
  m ∈ row /\ forall x, x ∈ row -> F32.leb x m = true.
Proof.
  destruct row as [|x0 l]; [discriminate|]. cbn [max_element]. intros [= <-] Hrow.
  apply Forall_cons in Hrow as [H0 Hl].
  destruct (max_fold_upper l x0 H0 Hl) as (_ & Hin & Hle & Hall).
  split.
  - destruct Hin as [->|Hin]; [left|right; assumption].
  - intros x Hx. apply elem_of_cons in Hx as [->|Hx]; auto.
Qed.

Lemma min_element_lower (row : list float) (m : float) :
  min_element row = Ret m -> Forall (fun x => F32.is_nan x = false) row ->
  m ∈ row /\ forall x, x ∈ row -> F32.leb m x = true.
Proof.
  destruct row as [|x0 l]; [discriminate|]. cbn [min_element]. intros [= <-] Hrow.
  apply Forall_cons in Hrow as [H0 Hl].
  destruct (min_fold_lower l x0 H0 Hl) as (_ & Hin & Hle & Hall).
  split.
  - destruct Hin as [->|Hin]; [left|right; assumption].
  - intros x Hx. apply elem_of_cons in Hx as [->|Hx]; auto.
Qed.

Lemma settled_bind {A B} (m : outcome A) (f : A -> outcome B) :
  settled m = true -> (forall x, settled (f x) = true) -> settled (m ≫= f) = true.
Proof. destruct m; cbn; auto; discriminate. Qed.

Lemma settled_for_each {S X} (l : list X) (body : X -> S -> outcome S) (s : S) :
  (forall x s, settled (body x s) = true) -> settled (for_each l body s) = true.
Proof.
  intros H. revert s. induction l as [|x l IH]; intros s; cbn [for_each]; [reflexivity|].
  apply settled_bind; auto.
Qed.

Lemma settled_vget {A} (v : list A) (i : Z) : settled (vget v i) = true.
Proof. unfold vget. destruct (i <? 0); [reflexivity|]. now destruct (v !! Z.to_nat i). Qed.

Lemma settled_vset {A} (v : list A) (i : Z) (x : A) : settled (vset v i x) = true.
Proof. unfold vset. destruct (i <? 0); [reflexivity|]. now destruct (i <? _). Qed.

Lemma settled_max_element (l : list float) : settled (max_element l) = true.
Proof. now destruct l. Qed.

Lemma settled_min_element (l : list float) : settled (min_element l) = true.
Proof. now destruct l. Qed.

Lemma settled_static_cast_int (x : float) : settled (static_cast_int x) = true.
Proof. destruct x; cbn; try reflexivity. now destruct (_ && _). Qed.

Lemma settled_int_div (x y : Z) : settled (int_div x y) = true.
Proof. unfold int_div. destruct (y =? 0); [reflexivity|]. now destruct (_ && _). Qed.

Ltac settle :=
  repeat first
    [ reflexivity
    | apply settled_vget | apply settled_vset
    | apply settled_max_element | apply settled_min_element
    | apply settled_static_cast_int | apply settled_int_div
    | apply settled_for_each; intros
    | apply settled_bind; [|intros]
    | match goal with
      | x : (_ * _)%type |- _ => destruct x
      | |- settled (if ?b then _ else _) = true => destruct b
      end ].

Lemma settled_cases {A} (o : outcome A) :
  settled o = true -> (exists x, o = Ret x) \/ o = Undef.
Proof. destruct o; cbn; intros H; try discriminate; eauto. Qed.

Lemma undef_bind {A B} (m : outcome A) (f : A -> outcome B) :
  settled m = true -> (forall x, f x = Undef) -> (m ≫= f) = Undef.
Proof. destruct m; cbn; auto; discriminate. Qed.

Lemma undef_bind_l {A B} (m : outcome A) (f : A -> outcome B) :
  m = Undef -> (m ≫= f) = Undef.
Proof. now intros ->. Qed.

(** a loop with a turn that is undefined whatever the state is undefined *)
Lemma for_each_undef {S X} (l : list X) (body : X -> S -> outcome S) (x0 : X) (s : S) :
  (forall x s, settled (body x s) = true) ->
  x0 ∈ l -> (forall s, body x0 s = Undef) ->
  for_each l body s = Undef.
Proof.
  intros Hset Hin Hx0. revert s. induction l as [|x l IH]; intros s; [inversion Hin|].
  cbn [for_each]. apply elem_of_cons in Hin as [<-|Hin].
  - now rewrite Hx0.
  - destruct (settled_cases _ (Hset x s)) as [(s' & ->)| ->]; [|reflexivity].
    cbn [mbind outcome_bind]. now apply IH.
Qed.

Section Grid.
Context {C : Collaborators}.

Lemma settled_calculateNTiles (ppt : Z) (a : ClusteringAlgo) (cout : list string) :
  settled (calculateNTiles ppt a cout) = true.
Proof.
  unfold calculateNTiles. apply settled_bind; [apply settled_int_div|]. intros ntiles.
  destruct (ntiles =? 0); reflexivity.
Qed.

Lemma settled_calculateTileSize (NTiles : Z) (t : tiles) (a : ClusteringAlgo) :
  settled (calculateTileSize NTiles t a) = true.
Proof. unfold calculateTileSize. settle. Qed.

Lemma settled_prepareDataStructures (t : tiles) (a : ClusteringAlgo) :
  settled (prepareDataStructures t a) = true.
Proof. unfold prepareDataStructures. settle. Qed.

Lemma settled_xjBins_dim (t : tiles) (a : ClusteringAlgo) (r : float) (i j : Z) :
  settled (xjBins_dim t a r i j) = true.
Proof. unfold xjBins_dim. settle. Qed.

Lemma settled_build_tiles (a : ClusteringAlgo) (cout : list string) :
  settled (build_tiles a cout) = true.
Proof.
  unfold build_tiles.
  apply settled_bind; [apply settled_calculateNTiles|]. intros [ntiles cout'].
  apply settled_bind; [apply settled_calculateTileSize|]. intros [sizes t].
  apply settled_bind; [apply settled_prepareDataStructures|]. reflexivity.
Qed.

Lemma dimMax_of_Ret (a : ClusteringAlgo) (i : Z) (row : list float) (m : float) :
  vget (Points.coordinates_ (points_ a)) i = Ret row -> max_element row = Ret m ->
  dimMax_of a i = m.
Proof. intros H1 H2. unfold dimMax_of. rewrite H1. cbn. now rewrite H2. Qed.

Lemma dimMin_of_Ret (a : ClusteringAlgo) (i : Z) (row : list float) (m : float) :
  vget (Points.coordinates_ (points_ a)) i = Ret row -> min_element row = Ret m ->
  dimMin_of a i = m.
Proof. intros H1 H2. unfold dimMin_of. rewrite H1. cbn. now rewrite H2. Qed.

Lemma tile_size_loop (NperDim : Z) (a : ClusteringAlgo) (l : list Z) (acc : list float)
  (t : tiles) :
  (forall i, i ∈ l ->
     exists row, vget (Points.coordinates_ (points_ a)) i = Ret row /\ row <> []) ->
  for_each l
    (fun i '(tileSizes, tiles_) =>
       row ← vget (Points.coordinates_ (points_ a)) i;
       dimMax ← max_element row;
       dimMin ← min_element row;
       let tiles_ := set_minMax tiles_ i (dimMin, dimMax) in
       let tileSize := F32.div (F32.sub dimMax dimMin) (F32.of_Z NperDim) in
       Ret (tileSizes ++ [tileSize], tiles_))
    (acc, t)
  = Ret (acc ++ ((fun i => F32.div (F32.sub (dimMax_of a i) (dimMin_of a i))
                             (F32.of_Z NperDim)) <$> l),
         foldl (fun t i => set_minMax t i (dimMin_of a i, dimMax_of a i)) t l).
Proof.
  revert acc t. induction l as [|i l IH]; intros acc t Hrows.
  - cbn. now rewrite app_nil_r.
  - destruct (Hrows i) as (row & Hrow & Hne); [left|].
    cbn [for_each]. rewrite Hrow. cbn [mbind outcome_bind].
    destruct row as [|x0 r]; [contradiction|].
    cbn [max_element min_element mbind outcome_bind].
    rewrite IH by (intros k Hk; apply Hrows; now right).
    cbn [fmap list_fmap foldl].
    rewrite (dimMax_of_Ret a i _ _ Hrow eq_refl), (dimMin_of_Ret a i _ _ Hrow eq_refl).
    now rewrite <- app_assoc.
Qed.

(** X12.  [calculateTileSize], on [Ndim] non-empty coordinate rows: for every
    dimension it records the least and the greatest coordinate as
    [minMax], and returns their difference divided by the number of tiles
    per dimension as the tile size.  Where no coordinate is a NaN the
    recorded range contains every coordinate of the dimension.  When the
    number of tiles per dimension is zero every tile size is infinite or a
    NaN. *)
Theorem calculateTileSize_ranges (NTiles NperDim : Z) (tiles_ : tiles) (a : ClusteringAlgo) :
  static_cast_int (std_pow (F32.double_of_Z NTiles) inv_Ndim) = Ret NperDim ->
  (forall i, 0 <= i < Ndim ->
     exists row, vget (Points.coordinates_ (points_ a)) i = Ret row /\ row <> []) ->
  let sizes :=
    (fun i => F32.div (F32.sub (dimMax_of a i) (dimMin_of a i)) (F32.of_Z NperDim))
      <$> range Ndim in
  calculateTileSize NTiles tiles_ a =
    Ret (sizes,
         foldl (fun t i => set_minMax t i (dimMin_of a i, dimMax_of a i)) tiles_
           (range Ndim)) /\
  (forall i row, vget (Points.coordinates_ (points_ a)) i = Ret row ->
     Forall (fun x => F32.is_nan x = false) row -> row <> [] ->
     dimMin_of a i ∈ row /\ dimMax_of a i ∈ row /\
     forall x, x ∈ row ->
       F32.leb (dimMin_of a i) x = true /\ F32.leb x (dimMax_of a i) = true) /\
  (NperDim = 0 ->
   forall s, s ∈ sizes ->
     F32.is_nan s = true \/ s = S754_infinity false \/ s = S754_infinity true).
Proof.
  intros Hcast Hrows sizes. split; [|split].
  - unfold calculateTileSize. rewrite Hcast. cbn [mbind outcome_bind].
    rewrite tile_size_loop by (intros i Hi; apply Hrows; now apply elem_of_range).
    reflexivity.
  - intros i row Hrow Hnum Hne.
    destruct row as [|x0 r] eqn:Er; [contradiction|]. rewrite <- Er in *.
    assert (Hmax : exists m, max_element row = Ret m) by (rewrite Er; cbn; eauto).
    assert (Hmin : exists m, min_element row = Ret m) by (rewrite Er; cbn; eauto).
    destruct Hmax as (hi & Hhi), Hmin as (lo & Hlo).
    rewrite (dimMax_of_Ret a i row hi Hrow Hhi), (dimMin_of_Ret a i row lo Hrow Hlo).
    destruct (max_element_upper row hi Hhi Hnum) as (Hin1 & Hup).
    destruct (min_element_lower row lo Hlo Hnum) as (Hin2 & Hlow).
    split; [assumption|]. split; [assumption|]. intros x Hx. auto.
  - intros -> s Hs. unfold sizes in Hs. apply list_elem_of_fmap in Hs as (i & -> & _).
    apply F32_div_zero.
Qed.

Lemma coords_loop (a : ClusteringAlgo) (i : Z) (l : list Z) (acc : list float) :
  (forall j, j ∈ l ->
     exists x, read_coordinate a j i = Ret x) ->
  for_each l
    (fun j coords =>
       row ← vget (Points.coordinates_ (points_ a)) j;
       x ← vget row i;
       Ret (coords ++ [x]))
    acc
  = Ret (acc ++ ((fun j => coordinate a j i) <$> l)).
Proof.
  revert acc. induction l as [|j l IH]; intros acc Hl.
  - cbn. now rewrite app_nil_r.
  - destruct (Hl j) as (x & Hx); [left|]. unfold read_coordinate in Hx.
    cbn [for_each].     destruct (vget (Points.coordinates_ (points_ a)) j) as [row| | |] eqn:Hrow;
      try discriminate Hx.
    cbn [mbind outcome_bind] in Hx |- *. rewrite Hx. cbn [mbind outcome_bind].
    rewrite IH by (intros k Hk; apply Hl; now right).
    cbn [fmap list_fmap]. unfold coordinate at 2, read_coordinate.
    rewrite Hrow. cbn [mbind outcome_bind].
    rewrite Hx. now rewrite <- app_assoc.
Qed.

Lemma fill_loop (a : ClusteringAlgo) (l : list Z) (t : tiles) :
  (forall i j, i ∈ l -> 0 <= j < Ndim ->
     exists x, read_coordinate a j i = Ret x) ->
  for_each l
    (fun i t =>
       coords ← for_each (range Ndim)
                  (fun j coords =>
                     row ← vget (Points.coordinates_ (points_ a)) j;
                     x ← vget row i;
                     Ret (coords ++ [x]))
                  [];
       Ret (fill t coords i))
    t
  = Ret (foldl (fun t i => fill t (coords_of a i) i) t l).
Proof.
  revert t. induction l as [|i l IH]; intros t Hl; [reflexivity|].
  cbn [for_each].
  rewrite coords_loop by (intros j Hj; apply Hl; [left|now apply elem_of_range]).
  cbn [mbind outcome_bind app]. rewrite IH by (intros k j Hk Hj; apply Hl; [now right|assumption]).
  reflexivity.
Qed.

Lemma prepareDataStructures_undef (t : tiles) (a : ClusteringAlgo) (j i : Z) :
  0 <= j < Ndim -> 0 <= i < Points.n (points_ a) ->
  read_coordinate a j i = Undef ->
  prepareDataStructures t a = Undef.
Proof.
  intros Hj Hi Hmiss. unfold prepareDataStructures. unfold read_coordinate in Hmiss.
  apply (for_each_undef _ _ i).
  - intros. settle.
  - now apply elem_of_range.
  - intros t'. apply undef_bind_l.
    apply (for_each_undef _ _ j).
    + intros. settle.
    + now apply elem_of_range.
    + intros coords.
      destruct (vget (Points.coordinates_ (points_ a)) j) as [row| | |];
        try discriminate Hmiss; [|reflexivity].
      cbn [mbind outcome_bind] in Hmiss |- *. now rewrite Hmiss.
Qed.

(** X13.  [prepareDataStructures] hands every point to [tiles.fill] once, in
    the order of the indices, with its [Ndim] coordinates in the order of the
    dimensions, when [coordinates_] holds them all.  It checks nothing: when a
    row is missing or has less than [n] entries the read is outside the
    vector and the behaviour is undefined. *)
Theorem prepareDataStructures_fills (t : tiles) (a : ClusteringAlgo) :
  (complete a ->
   prepareDataStructures t a =
     Ret (foldl (fun t i => fill t (coords_of a i) i) t (range (Points.n (points_ a))))) /\
  (forall j i, 0 <= j < Ndim -> 0 <= i < Points.n (points_ a) ->
     read_coordinate a j i = Undef ->
     prepareDataStructures t a = Undef).
Proof.
  split.
  - intros Hall. unfold prepareDataStructures. apply fill_loop.
    intros i j Hi Hj. apply Hall; [assumption|]. now apply elem_of_range.
  - apply prepareDataStructures_undef.
Qed.

Lemma vget_undef {A} (v : list A) (i : Z) : Z.of_nat (length v) <= i -> vget v i = Undef.
Proof.
  intros H. unfold vget. destruct (Z.ltb_spec i 0); [reflexivity|].
  rewrite lookup_ge_None_2 by lia. reflexivity.
Qed.

Lemma range_first (n : Z) : 0 < n -> exists l, range n = 0 :: l.
Proof.
  intros H. unfold range. destruct (Z.to_nat n) as [|k] eqn:E; [lia|].
  cbn. eauto.
Qed.

Lemma get_search_box_undef (t : tiles) (a : ClusteringAlgo) (r : float) (i k : Z) :
  0 <= k < Ndim -> Z.of_nat (length (domains_ a)) <= k ->
  get_search_box t a r i = Undef.
Proof.
  intros Hk Hlen. unfold get_search_box. apply undef_bind_l.
  apply (for_each_undef _ _ k).
  - intros. apply settled_bind; [apply settled_xjBins_dim|reflexivity].
  - now apply elem_of_range.
  - intros acc. apply undef_bind_l. unfold xjBins_dim.
    rewrite (vget_undef (domains_ a) k Hlen).
    destruct (vget (Points.coordinates_ (points_ a)) k) as [row| | |] eqn:Hrow;
      try reflexivity; try (pose proof (settled_vget (Points.coordinates_ (points_ a)) k) as Hs;
                            rewrite Hrow in Hs; discriminate Hs).
    cbn [mbind outcome_bind].
    destruct (vget row i) as [x| | |] eqn:Hx;
      try reflexivity; pose proof (settled_vget row i) as Hs; rewrite Hx in Hs;
      discriminate Hs.
Qed.

(** X14.  Neither the constructor nor [setPoints] compares the sizes of its
    arguments with [Ndim] and [n], and [makeClusters] reads them unchecked:
    when a coordinate of one of the [n] points is missing, or when there is
    a point and [domains_] has less than [Ndim] entries, the behaviour of
    [makeClusters] is undefined. *)
Theorem makeClusters_unchecked_sizes (fuel : nat) (ker : kernel) (a : ClusteringAlgo)
  (cout : list string) :
  (exists j i, 0 <= j < Ndim /\ 0 <= i < Points.n (points_ a) /\
               read_coordinate a j i = Undef)
  \/
  (0 < Points.n (points_ a) /\
   exists k, 0 <= k < Ndim /\ Z.of_nat (length (domains_ a)) <= k) ->
  makeClusters fuel ker a cout = Undef.
Proof.
  intros [(j & i & Hj & Hi & Hmiss)|(Hn & k & Hk & Hlen)]; unfold makeClusters.
  - apply undef_bind_l. unfold build_tiles.
    destruct (settled_cases _ (settled_calculateNTiles (pointsPerTile_ a) a cout))
      as [([ntiles cout'] & ->)| ->]; [|reflexivity].
    cbn [mbind outcome_bind].
    match goal with
    | |- context [calculateTileSize ?N ?t a] =>
        destruct (settled_cases _ (settled_calculateTileSize N t a))
          as [([sizes t'] & ->)| ->]; [|reflexivity]
    end.
    cbn [mbind outcome_bind].
    now rewrite (prepareDataStructures_undef _ a j i Hj Hi Hmiss).
  - destruct (settled_cases _ (settled_build_tiles a cout)) as [([t cout'] & ->)| ->];
      [|reflexivity].
    cbn [mbind outcome_bind]. apply undef_bind_l.
    unfold calculateLocalDensity. destruct (range_first _ Hn) as (l & ->).
    cbn [for_each]. now rewrite (get_search_box_undef t a (dc_ a) 0 k Hk Hlen).
Qed.
End Grid.

(** X21.  The first statements of [makeClusters], on an engine with a
    non-zero [pointsPerTile_], at least one point and every coordinate
    stored: the grid gets [n / pointsPerTile_] tiles and is resized, then the
    range of every dimension, then the tile sizes, then every point in the
    order of the indices; the output stream gets the message of
    [calculateNTiles] when there are less points than [pointsPerTile_]. *)
Theorem build_tiles_grid {C : Collaborators} (a : ClusteringAlgo) (cout : list string)
  (NperDim : Z) :
  pointsPerTile_ a <> 0 ->
  (Points.n (points_ a) = INT_MIN -> pointsPerTile_ a <> -1) ->
  0 < Points.n (points_ a) ->
  complete a ->
  let Tiles0 :=
    resizeTiles (set_nTiles tiles_new (Z.quot (Points.n (points_ a)) (pointsPerTile_ a))) in
  static_cast_int (std_pow (F32.double_of_Z (nTiles Tiles0)) inv_Ndim) = Ret NperDim ->
  build_tiles a cout =
    Ret (foldl (fun t i => fill t (coords_of a i) i)
           (set_tilesSize
              (foldl (fun t i => set_minMax t i (dimMin_of a i, dimMax_of a i)) Tiles0
                 (range Ndim))
              ((fun i => F32.div (F32.sub (dimMax_of a i) (dimMin_of a i))
                           (F32.of_Z NperDim)) <$> range Ndim))
           (range (Points.n (points_ a))),
         if Z.abs (Points.n (points_ a)) <? Z.abs (pointsPerTile_ a)
         then cout ++ [too_high_message] else cout).
Proof.
  intros Hppt Hmin Hn Hall Tiles0 Hcast. unfold build_tiles.
  rewrite calculateNTiles_value by assumption. cbn [mbind outcome_bind].
  fold Tiles0. unfold calculateTileSize. rewrite Hcast. cbn [mbind outcome_bind].
  rewrite tile_size_loop.
  - cbn [mbind outcome_bind app]. unfold prepareDataStructures.
    rewrite fill_loop; [reflexivity|].
    intros i j Hi Hj. apply Hall; [assumption|]. now apply elem_of_range.
  - intros j Hj. apply elem_of_range in Hj.
    destruct (Hall j 0 Hj) as (x & Hx); [lia|]. unfold read_coordinate in Hx.
    destruct (vget (Points.coordinates_ (points_ a)) j) as [row| | |];
      try discriminate Hx.
    exists row. split; [reflexivity|]. intros ->. discriminate Hx.
Qed.

Lemma near_pair_complete : complete (C := Lattice.collaborators) Examples.near_pair.
Proof.
  intros j i Hj Hi. assert (j = 0) as -> by (cbn in Hj; lia).
  assert (Hn : Points.n (points_ Examples.near_pair) = 2) by reflexivity.
  rewrite Hn in Hi.
  assert (i = 0 \/ i = 1) as [-> | ->] by lia; eexists; vm_compute; reflexivity.
Qed.

(** the grid of [near_pair]: one tile over the range from 0 to 1, holding
    both points *)
Lemma build_tiles_grid_witness :
  build_tiles (C := Lattice.collaborators) Examples.near_pair []
  = Ret (Lattice.mk 1 [F32.of_Z 1] [(F32.of_Z 0, F32.of_Z 1)] [[0; 1]], []).
Proof.
  rewrite (build_tiles_grid (C := Lattice.collaborators) Examples.near_pair [] 1).
  - vm_compute. reflexivity.
  - vm_compute. discriminate.
  - vm_compute. discriminate.
  - vm_compute. reflexivity.
  - exact near_pair_complete.
  - vm_compute. reflexivity.
Defined.

(** the two points of [near_pair], in one tile *)
Lemma calculateTileSize_ranges_witness :
  calculateTileSize (C := Lattice.collaborators) 1 (Lattice.mk 1 [] [] [[]])
    Examples.near_pair
  = Ret ([F32.of_Z 1], Lattice.mk 1 [] [(F32.of_Z 0, F32.of_Z 1)] [[]]).
Proof.
  destruct (calculateTileSize_ranges (C := Lattice.collaborators) 1 1
              (Lattice.mk 1 [] [] [[]]) Examples.near_pair) as (H & _).
  - vm_compute. reflexivity.
  - intros i Hi. assert (i = 0) as -> by (cbn in Hi; lia).
    exists [F32.of_Z 0; F32.of_Z 1]. split; [vm_compute; reflexivity|discriminate].
  - rewrite H. vm_compute. reflexivity.
Defined.

(** the two points of [near_pair] go into the one bin; the third point of
    [short_row] has no coordinate *)
Lemma prepareDataStructures_fills_witness :
  prepareDataStructures (C := Lattice.collaborators)
    (Lattice.mk 1 [F32.of_Z 1] [(F32.of_Z 0, F32.of_Z 1)] [[]]) Examples.near_pair
  = Ret (Lattice.mk 1 [F32.of_Z 1] [(F32.of_Z 0, F32.of_Z 1)] [[0; 1]]) /\
  prepareDataStructures (C := Lattice.collaborators)
    (Lattice.mk 1 [F32.of_Z 1] [(F32.of_Z 0, F32.of_Z 1)] [[]]) Examples.short_row
  = Undef.
Proof.
  split.
  - rewrite (proj1 (prepareDataStructures_fills (C := Lattice.collaborators) _ _)
               near_pair_complete).
    vm_compute. reflexivity.
  - apply (proj2 (prepareDataStructures_fills (C := Lattice.collaborators) _
                    Examples.short_row) 0 2).
    + cbn. lia.
    + vm_compute. split; [discriminate|reflexivity].
    + vm_compute. reflexivity.
Defined.

(** an engine without domains, and one with a coordinate missing *)
Lemma makeClusters_unchecked_sizes_witness :
  Examples.run Examples.no_domain [] = Undef /\ Examples.run Examples.short_row [] = Undef.
Proof.
  split; apply (makeClusters_unchecked_sizes (C := Lattice.collaborators)).
  - right. split; [vm_compute; reflexivity|]. exists 0. vm_compute.
    split; [split; [discriminate|reflexivity]|discriminate].
  - left. exists 0, 2. split; [cbn; lia|]. split; [|vm_compute; reflexivity].
    vm_compute. split; [discriminate|reflexivity].
Defined.

(** ** The local density *)

Section Density.
Context {C : Collaborators}.

Lemma with_rho_self (a : ClusteringAlgo) : a = with_rho a (Points.rho (points_ a)).
Proof. destruct a as [? ? ? ? ? []]. reflexivity. Qed.

Lemma weight_at_Ret (a : ClusteringAlgo) (j : Z) (w : float) :
  vget (Points.weight (points_ a)) j = Ret w -> weight_at a j = w.
Proof. unfold weight_at. now intros ->. Qed.

(** one candidate of the scan, read on the vocabulary *)
Lemma density_step_result (ker : kernel) (a : ClusteringAlgo) (i j : Z) (R : list float)
  (a' : ClusteringAlgo) :
  density_step ker i j (with_rho a R) = Ret a' ->
  exists R',
    a' = with_rho a R' /\ length R' = length R /\
    (forall k, k <> i -> vget R' k = vget R k) /\
    vget R' i = (vget R i ≫= fun r => Ret (density_sum ker a i [j] r)).
Proof.
  unfold density_step. intros H. inv_bind H.
  change (distance a i j = Ret x) in H0. apply dist_to_Ret in H0. subst x.
  change (dc_ (with_rho a R)) with (dc_ a) in H.
  unfold density_sum. cbn [foldl].
  destruct (F32.leb (dist_to a i j) (dc_ a)).
  - inv_bind H. inv_bind H. inv_bind H. injection H as <-.
    change (vget (Points.weight (points_ a)) j = Ret x) in H0.
    apply weight_at_Ret in H0. subst x.
    change (vget R i = Ret x0) in H1.
    change (vset R i (F32.add x0 (F32.mul (ker (dist_to a i j) i j) (weight_at a j)))
            = Ret x1) in H2.
    apply vset_Ret in H2 as [Hi ->].
    eexists. split; [reflexivity|]. split; [apply length_insert|]. split.
    + intros k Hk. apply vget_vset_ne; lia || congruence.
    + rewrite H1. cbn [mbind outcome_bind]. now apply vget_vset_eq.
  - injection H as <-. exists R. split; [reflexivity|]. split; [reflexivity|].
    split; [reflexivity|].
    pose proof (settled_vget R i) as Hs. destruct (vget R i); try discriminate Hs; reflexivity.
Qed.

Lemma density_scan (ker : kernel) (a : ClusteringAlgo) (i : Z) (cands : list Z)
  (R : list float) (a' : ClusteringAlgo) :
  for_each cands (density_step ker i) (with_rho a R) = Ret a' ->
  exists R',
    a' = with_rho a R' /\ length R' = length R /\
    (forall k, k <> i -> vget R' k = vget R k) /\
    vget R' i = (vget R i ≫= fun r => Ret (density_sum ker a i cands r)).
Proof.
  revert R. induction cands as [|j cands IH]; intros R Hrun.
  - cbn in Hrun. injection Hrun as <-. exists R. split; [reflexivity|].
    split; [reflexivity|]. split; [reflexivity|].
    pose proof (settled_vget R i) as Hs. destruct (vget R i); try discriminate Hs; reflexivity.
  - cbn [for_each] in Hrun. inv_bind Hrun.
    apply density_step_result in Hrun0 as (R1 & -> & Hlen1 & Hrest1 & Hi1).
    destruct (IH _ Hrun) as (R' & -> & Hlen & Hrest & Hi).
    exists R'. split; [reflexivity|]. split; [congruence|]. split.
    + intros k Hk. rewrite Hrest, Hrest1 by assumption. reflexivity.
    + rewrite Hi, Hi1. destruct (vget R i); reflexivity.
Qed.

Lemma density_loop (t : tiles) (ker : kernel) (a : ClusteringAlgo) (l : list Z)
  (R : list float) (a' : ClusteringAlgo) :
  NoDup l ->
  for_each l
    (fun i a =>
       search_box ← get_search_box t a (dc_ a) i;
       for_box t search_box (density_step ker i) a)
    (with_rho a R) = Ret a' ->
  exists R',
    a' = with_rho a R' /\ length R' = length R /\
    (forall i, i ∈ l ->
       exists sb, get_search_box t a (dc_ a) i = Ret sb /\
         vget R' i = (vget R i ≫= fun r => Ret (density_sum ker a i (candidates t sb) r))) /\
    (forall k, k ∉ l -> vget R' k = vget R k).
Proof.
  revert R. induction l as [|i l IH]; intros R Hnd Hrun.
  - cbn in Hrun. injection Hrun as <-. exists R. split; [reflexivity|].
    split; [reflexivity|]. split; [|reflexivity].
    intros i Hi. now apply elem_of_nil in Hi.
  - cbn [for_each] in Hrun. inv_bind Hrun. inv_bind Hrun0.
    change (get_search_box t a (dc_ a) i = Ret x0) in Hrun1.
    rewrite for_box_flat in Hrun0.
    apply density_scan in Hrun0 as (R1 & -> & Hlen1 & Hrest1 & Hi1).
    apply NoDup_cons in Hnd as [Hi Hnd].
    destruct (IH _ Hnd Hrun) as (R' & -> & Hlen & Hl & Hrest).
    exists R'. split; [reflexivity|]. split; [congruence|]. split.
    + intros k Hk. apply elem_of_cons in Hk as [->|Hk].
      * exists x0. split; [exact Hrun1|]. rewrite (Hrest i Hi). exact Hi1.
      * destruct (Hl k Hk) as (sb & Hsb & Hv). exists sb. split; [exact Hsb|].
        rewrite Hv, Hrest1; [reflexivity|]. intros ->. contradiction.
    + intros k Hk. apply not_elem_of_cons in Hk as [Hne Hk].
      rewrite (Hrest k Hk). now apply Hrest1.
Qed.

Lemma calculateLocalDensity_result (t : tiles) (ker : kernel) (a a' : ClusteringAlgo) :
  calculateLocalDensity t ker a = Ret a' ->
  exists R',
    a' = with_rho a R' /\ length R' = length (Points.rho (points_ a)) /\
    (forall i, 0 <= i < Points.n (points_ a) ->
       exists sb, get_search_box t a (dc_ a) i = Ret sb /\
         vget R' i = (vget (Points.rho (points_ a)) i ≫=
                      fun r => Ret (density_sum ker a i (candidates t sb) r))) /\
    (forall k, ~ 0 <= k < Points.n (points_ a) -> vget R' k = vget (Points.rho (points_ a)) k).
Proof.
  unfold calculateLocalDensity. intros Hrun.
  rewrite (with_rho_self a) in Hrun at 2.
  change (Points.n (points_ (with_rho a (Points.rho (points_ a)))))
    with (Points.n (points_ a)) in Hrun.
  apply density_loop in Hrun as (R' & -> & Hlen & Hl & Hrest); [|apply NoDup_range].
  exists R'. split; [reflexivity|]. split; [exact Hlen|]. split.
  - intros i Hi. apply Hl. now apply elem_of_range.
  - intros k Hk. apply Hrest. now rewrite elem_of_range.
Qed.

(** X15.  [calculateLocalDensity] changes [rho] and nothing else, and adds to
    what [rho] holds: for every point [i] the new [rho[i]] is the old one
    plus, for each point [j] met in the search box of [i] with
    [distance(i, j) <= dc_], the term [ker(dist_ij, i, j) * weight[j]], added
    in the order of the scan.  The array keeps its length, and its entries
    from [n] on are untouched. *)
Theorem local_density_accumulates (t : tiles) (ker : kernel) (a a' : ClusteringAlgo) :
  calculateLocalDensity t ker a = Ret a' ->
  a' = with_rho a (Points.rho (points_ a')) /\
  length (Points.rho (points_ a')) = length (Points.rho (points_ a)) /\
  (forall i, 0 <= i < Points.n (points_ a) ->
     exists sb,
       get_search_box t a (dc_ a) i = Ret sb /\
       forall r, vget (Points.rho (points_ a)) i = Ret r ->
         vget (Points.rho (points_ a')) i = Ret (density_sum ker a i (candidates t sb) r)) /\
  (forall k, ~ 0 <= k < Points.n (points_ a) ->
     vget (Points.rho (points_ a')) k = vget (Points.rho (points_ a)) k).
Proof.
  intros Hrun.
  apply calculateLocalDensity_result in Hrun as (R' & -> & Hlen & Hl & Hrest).
  cbn [with_rho points_ set_points Points.set_rho Points.rho].
  split; [reflexivity|]. split; [exact Hlen|]. split; [|exact Hrest].
  intros i Hi. destruct (Hl i Hi) as (sb & Hsb & Hv).
  exists sb. split; [exact Hsb|]. intros r Hr. rewrite Hv, Hr. reflexivity.
Qed.
End Density.

(** on [near_pair] each point meets both points within [dc_], with the
    weight one and the flat kernel: both densities go from 0 to 2 *)
Lemma local_density_accumulates_witness :
  exists a',
    calculateLocalDensity (C := Lattice.collaborators)
      (Lattice.mk 1 [F32.of_Z 1] [(F32.of_Z 0, F32.of_Z 1)] [[0; 1]]) Lattice.flat
      Examples.near_pair = Ret a' /\
    Points.rho (points_ a') = [F32.of_Z 2; F32.of_Z 2] /\
    a' = with_rho Examples.near_pair (Points.rho (points_ a')).
Proof.
  eexists. split; [vm_compute; reflexivity|]. split; [vm_compute; reflexivity|].
  match goal with |- ?r = _ =>
    assert (Hrun : calculateLocalDensity (C := Lattice.collaborators)
                     (Lattice.mk 1 [F32.of_Z 1] [(F32.of_Z 0, F32.of_Z 1)] [[0; 1]])
                     Lattice.flat Examples.near_pair = Ret r)
      by (vm_compute; reflexivity)
  end.
  exact (proj1 (local_density_accumulates (C := Lattice.collaborators) _ _ _ _ Hrun)).
Defined.

(** ** How the cluster ids spread *)

Lemma find_seeds_stack_prefix (a : ClusteringAlgo) (m : nat) (s : Z * list Z * Points.t) :
  for_each (range (Z.of_nat m)) (classify_point a) (0, [], points_ a) = Ret s ->
  s.1.2 = reverse (filter (fun k => is_seed a k = true) (range (Z.of_nat m))).
Proof.
  revert s. induction m as [|m IH]; intros s H.
  - cbn in H. injection H as <-. reflexivity.
  - replace (Z.of_nat (S m)) with (Z.of_nat m + 1) in * by lia.
    rewrite range_succ, for_each_snoc in H by lia. inv_bind H.
    pose proof (IH _ H0) as Hst.
    apply find_seeds_prefix in H0 as (F & CI & IS & Hq & _).
    destruct x as [[nc st] q]. cbn [fst snd] in *. subst q.
    apply classify_point_cases in H as [_ Hcases]. cbn zeta in Hcases.
    rewrite range_succ, filter_app, reverse_app by lia.
    destruct Hcases as [(Hseed & _ & ->)|[(Hfol & fl & _ & _ & ->)|(Hout & ->)]];
      cbn [fst snd].
    + rewrite filter_singleton_True by assumption. rewrite reverse_singleton.
      cbn [app]. now rewrite Hst.
    + rewrite filter_cons_False; [exact Hst|].
      unfold is_follower in Hfol. destruct (is_seed a (Z.of_nat m)); [discriminate|].
      discriminate.
    + rewrite filter_cons_False; [exact Hst|].
      unfold is_outlier in Hout. destruct (is_seed a (Z.of_nat m)); [discriminate|].
      discriminate.
Qed.

Lemma find_seeds_stack (a : ClusteringAlgo) (s : Z * list Z * Points.t) :
  find_seeds a = Ret s ->
  s.1.2 = reverse (filter (fun k => is_seed a k = true) (range (Points.n (points_ a)))).
Proof.
  unfold find_seeds. rewrite <- range_of_to_nat. apply find_seeds_stack_prefix.
Qed.

Lemma range_max (n : Z) : range (Z.max 0 n) = range n.
Proof. unfold range. f_equal. f_equal. lia. Qed.

Lemma seeds_before_mono (a : ClusteringAlgo) (k : nat) (m : Z) :
  0 <= m -> seeds_before a m <= seeds_before a (m + Z.of_nat k).
Proof.
  intros Hm. induction k as [|k IH].
  - replace (m + Z.of_nat 0) with m by lia. lia.
  - replace (m + Z.of_nat (S k)) with (m + Z.of_nat k + 1) by lia.
    rewrite seeds_before_succ by lia. destruct (is_seed a (m + Z.of_nat k)); lia.
Qed.

Lemma seeds_before_lt (a : ClusteringAlgo) (i n : Z) :
  0 <= i < n -> is_seed a i = true -> 0 <= seeds_before a i < seeds_before a n.
Proof.
  intros Hi Hs. split; [unfold seeds_before; lia|].
  pose proof (seeds_before_mono a (Z.to_nat (n - (i + 1))) (i + 1)) as Hm.
  replace (i + 1 + Z.of_nat (Z.to_nat (n - (i + 1)))) with n in Hm by lia.
  rewrite seeds_before_succ, Hs in Hm by lia. lia.
Qed.

Lemma follower_not_seed (a : ClusteringAlgo) (j : Z) :
  is_follower a j = true -> is_seed a j = false.
Proof. unfold is_follower. now destruct (is_seed a j). Qed.

Lemma registered_spec (a : ClusteringAlgo) (n j k : Z) :
  j ∈ registered a n k <-> 0 <= j < n /\ is_follower a j = true /\ nh_at a j = k.
Proof. unfold registered. rewrite list_elem_of_filter, elem_of_range. tauto. Qed.

Lemma NoDup_registered (a : ClusteringAlgo) (n k : Z) : NoDup (registered a n k).
Proof. unfold registered. apply NoDup_filter, NoDup_range. Qed.

(** the followers of the popped point [i] all receive its id and go onto the
    stack; nothing else is written *)
Lemma pass_id_result (i : Z) (fl : list Z) (CI st CI' st' : list Z) :
  for_each fl (pass_id i) (CI, st) = Ret (CI', st') -> i ∉ fl ->
  st' = reverse fl ++ st /\
  (forall j, j ∈ fl -> vget CI' j = vget CI i) /\
  (forall k, k ∉ fl -> vget CI' k = vget CI k).
Proof.
  revert CI st. induction fl as [|j fl IH]; intros CI st H Hi.
  - cbn in H. injection H as <- <-. split; [reflexivity|].
    split; [intros j Hj; inversion Hj|reflexivity].
  - cbn [for_each] in H. inv_bind H. destruct x as [CI1 st1].
    unfold pass_id in H0. inv_bind H0. inv_bind H0. injection H0 as <- <-.
    apply vset_Ret in H2 as [Hj ->].
    apply not_elem_of_cons in Hi as [Hne Hi].
    destruct (IH _ _ H Hi) as (-> & Hnew & Hframe).
    assert (Hi1 : vget (<[Z.to_nat j := x]> CI) i = vget CI i)
      by (apply vget_vset_ne; lia).
    split; [rewrite reverse_cons, <- app_assoc; reflexivity|]. split.
    + intros k Hk. destruct (decide (k ∈ fl)) as [Hin|Hnin].
      * rewrite (Hnew k Hin). exact Hi1.
      * apply elem_of_cons in Hk as [->|?]; [|contradiction].
        rewrite (Hframe j Hnin), vget_vset_eq by lia. now rewrite H1.
    + intros k Hk. apply not_elem_of_cons in Hk as [Hkj Hk].
      rewrite (Hframe k Hk). apply vget_vset_ne; lia.
Qed.

Section Propagation.
Variable a : ClusteringAlgo.
Variable F : list (list Z).
Hypothesis HF : forall k, 0 <= k < Points.n (points_ a) ->
  vget F k = Ret (registered a (Points.n (points_ a)) k).

Lemma expand_inv_step (i : Z) (st popped CI CI' st' : list Z) :
  expand_inv a (i :: st) popped CI ->
  for_each (registered a (Points.n (points_ a)) i) (pass_id i) (CI, st) = Ret (CI', st') ->
  expand_inv a st' (i :: popped) CI'.
Proof.
  intros (Hnd & Hmem & Hlink & Hout) Hpass.
  set (fl := registered a (Points.n (points_ a)) i) in *.
  assert (Hdisj : forall j, j ∈ fl -> j ∉ (i :: st) ++ popped).
  { intros j Hj Hin. apply registered_spec in Hj as (Hjr & Hfol & Hnhj).
    destruct (Hmem j Hin) as (_ & [Hs|[_ Hd]] & _).
    - rewrite (follower_not_seed _ _ Hfol) in Hs. discriminate.
    - rewrite Hnhj in Hd. cbn [app] in Hnd. apply NoDup_cons in Hnd as [Hni _].
      apply Hni, elem_of_app. now right. }
  assert (Hi : i ∉ fl) by (intros H; apply (Hdisj i H); left).
  destruct (pass_id_result _ _ _ _ _ _ Hpass Hi) as (-> & Hnew & Hframe).
  assert (Hin_new : forall x,
             x ∈ (reverse fl ++ st) ++ i :: popped <-> x ∈ fl \/ x ∈ (i :: st) ++ popped).
  { intros x. cbn [app].
    rewrite !elem_of_app, elem_of_reverse, !elem_of_cons, elem_of_app. tauto. }
  split; [|split; [|split]].
  - rewrite <- app_assoc, reverse_Permutation.
    apply NoDup_app. split; [apply NoDup_registered|]. split.
    + intros x Hx Hx'. apply (Hdisj x Hx). cbn [app].
      rewrite elem_of_cons, elem_of_app. rewrite elem_of_app, elem_of_cons in Hx'. tauto.
    + rewrite <- Permutation_middle. exact Hnd.
  - intros x Hx. apply Hin_new in Hx as [Hx|Hx].
    + pose proof Hx as Hx'. apply registered_spec in Hx' as (Hxr & Hfol & Hnhx).
      split; [assumption|]. split; [right; split; [assumption|]; rewrite Hnhx; left|].
      rewrite (Hnew x Hx). destruct (Hmem i) as (_ & _ & Hc); [left|]. exact Hc.
    + destruct (Hmem x Hx) as (Hxr & Hcls & Hc). split; [assumption|]. split.
      * destruct Hcls as [?|[? ?]];
          [left; assumption|right; split; [assumption|right; assumption]].
      * rewrite Hframe; [exact Hc|]. intros Hxfl. exact (Hdisj x Hxfl Hx).
  - intros j Hj Hfol Hnhd.
    destruct (Z.eq_dec (nh_at a j) i) as [Heq|Hne].
    + assert (Hjfl : j ∈ fl) by (apply registered_spec; auto).
      split; [apply Hin_new; left; assumption|].
      rewrite (Hnew j Hjfl), Heq. symmetry. apply Hframe. exact Hi.
    + apply elem_of_cons in Hnhd as [?|Hnhd]; [contradiction|].
      destruct (Hlink j Hj Hfol Hnhd) as (Hjin & Heq).
      split; [apply Hin_new; right; assumption|].
      rewrite (Hframe j), (Hframe (nh_at a j)); [exact Heq| |].
      * intros H. apply (Hdisj _ H), elem_of_app. now right.
      * intros H. exact (Hdisj _ H Hjin).
  - intros j Hj Hnot.
    rewrite Hframe; [apply Hout; [assumption|]|].
    + intros H. apply Hnot, Hin_new. now right.
    + intros H. apply Hnot, Hin_new. now left.
Qed.

Lemma expand_inv_run (fuel : nat) (st popped CI IS : list Z) (q : Points.t) :
  expand_clusters fuel st (with_class (points_ a) F CI IS) = Ret q ->
  expand_inv a st popped CI ->
  exists CI' popped',
    q = with_class (points_ a) F CI' IS /\ expand_inv a [] popped' CI'.
Proof.
  revert st popped CI. induction fuel as [|fuel IH]; intros st popped CI H Hinv.
  - destruct st; cbn in H; [|discriminate]. injection H as <-. eauto.
  - destruct st as [|i st]; cbn [expand_clusters] in H.
    + injection H as <-. eauto.
    + inv_bind H. destruct (for_each x (pass_id i) _) as [[CI1 st1]| | |] eqn:Hpass;
        cbn in H; try discriminate.
      change (expand_clusters fuel st1 (with_class (points_ a) F CI1 IS) = Ret q) in H.
      change (vget F i = Ret x) in H0.
      assert (Hir : 0 <= i < Points.n (points_ a)).
      { destruct Hinv as (_ & Hmem & _). apply Hmem. left. }
      rewrite (HF i Hir) in H0. injection H0 as <-.
      change (Points.clusterIndex (with_class (points_ a) F CI IS)) with CI in Hpass.
      eapply IH; [exact H|]. eapply expand_inv_step; eassumption.
Qed.

Lemma expand_inv_final (popped CI : list Z) :
  (forall j, 0 <= j < Points.n (points_ a) -> is_follower a j = true ->
             0 <= nh_at a j < Points.n (points_ a)) ->
  expand_inv a [] popped CI ->
  (forall j, 0 <= j < Points.n (points_ a) -> is_follower a j = true ->
     exists c, vget CI j = Ret c /\ vget CI (nh_at a j) = Ret c) /\
  (forall i, 0 <= i < Points.n (points_ a) ->
     exists c, vget CI i = Ret c /\ -1 <= c < seeds_before a (Points.n (points_ a))).
Proof.
  intros Hnh (Hnd & Hmem & Hlink & Hout). cbn [app] in *. split.
  - intros j Hj Hfol. destruct (decide (nh_at a j ∈ popped)) as [Hin|Hnin].
    + destruct (Hlink j Hj Hfol Hin) as (Hjin & Heq).
      destruct (Hmem j Hjin) as (_ & _ & c & Hc & _).
      exists c. split; [exact Hc|]. now rewrite <- Heq.
    + exists (-1). split.
      * apply Hout; [assumption|]. intros Hjin.
        destruct (Hmem j Hjin) as (_ & [Hs|[_ Hd]] & _); [|contradiction].
        rewrite (follower_not_seed _ _ Hfol) in Hs. discriminate.
      * apply Hout; [now apply Hnh|assumption].
  - intros i Hi. destruct (decide (i ∈ popped)) as [Hin|Hnin].
    + destruct (Hmem i Hin) as (_ & _ & c & Hc & Hr). exists c. split; [exact Hc|lia].
    + exists (-1). split; [now apply Hout|]. unfold seeds_before. lia.
Qed.
End Propagation.

(** what [findAndAssignClusters] leaves when it started with empty follower
    lists *)
Lemma expansion_result (fuel : nat) (a a' : ClusteringAlgo) :
  Points.followers (points_ a) = replicate (Z.to_nat (Points.n (points_ a))) [] ->
  findAndAssignClusters fuel a = Ret a' ->
  (forall j, 0 <= j < Points.n (points_ a) -> is_follower a j = true ->
             0 <= nh_at a j < Points.n (points_ a)) /\
  exists popped, expand_inv a [] popped (Points.clusterIndex (points_ a')).
Proof.
  intros HF0 Hrun. unfold findAndAssignClusters in Hrun.
  inv_bind Hrun. destruct x as [[nc st] q]. inv_bind Hrun. injection Hrun as <-.
  pose proof (find_seeds_stack _ _ Hrun0) as Hstack. cbn [fst snd] in Hstack.
  apply find_seeds_result in Hrun0 as (F & CI & IS & Hq & _ & _ & _ & HCI & HF & Hdef).
  cbn [fst snd] in *. subst q.
  rewrite HF0 in HF, Hdef.
  assert (Hnh : forall j, 0 <= j < Points.n (points_ a) -> is_follower a j = true ->
                          0 <= nh_at a j < Points.n (points_ a)).
  { intros j Hj Hfol. destruct (Hdef j) as (l0 & Hl0); [lia|assumption|].
    rewrite vget_replicate in Hl0.
    destruct (Z.leb_spec 0 (nh_at a j)), (Z.ltb_spec (nh_at a j)
      (Z.of_nat (Z.to_nat (Points.n (points_ a))))); cbn in Hl0; try discriminate. lia. }
  split; [exact Hnh|].
  assert (HF' : forall k, 0 <= k < Points.n (points_ a) ->
                  vget F k = Ret (registered a (Points.n (points_ a)) k)).
  { intros k Hk. rewrite HF, vget_replicate.
    destruct (Z.leb_spec 0 k), (Z.ltb_spec k (Z.of_nat (Z.to_nat (Points.n (points_ a)))));
      try lia. cbn. unfold registered. now rewrite range_max. }
  assert (Hinit : expand_inv a st [] CI).
  { subst st. split; [|split; [|split]].
    - rewrite app_nil_r, reverse_Permutation. apply NoDup_filter, NoDup_range.
    - intros i Hi. rewrite app_nil_r, elem_of_reverse, list_elem_of_filter in Hi.
      destruct Hi as [Hs Hi]. apply elem_of_range in Hi.
      split; [assumption|]. split; [left; assumption|].
      exists (seeds_before a i). split; [|now apply seeds_before_lt].
      rewrite HCI. destruct (Z.leb_spec 0 i), (Z.ltb_spec i (Z.max 0 (Points.n (points_ a))));
        try lia. cbn. now rewrite Hs.
    - intros j _ _ Hin. inversion Hin.
    - intros j Hj Hnot. rewrite app_nil_r, elem_of_reverse, list_elem_of_filter in Hnot.
      rewrite HCI. destruct (Z.leb_spec 0 j), (Z.ltb_spec j (Z.max 0 (Points.n (points_ a))));
        try lia. cbn. destruct (is_seed a j) eqn:Hs; [|reflexivity].
      exfalso. apply Hnot. split; [reflexivity|]. now apply elem_of_range. }
  destruct (expand_inv_run a F HF' _ _ _ _ _ _ Hrun1 Hinit) as (CI' & popped' & -> & Hfin).
  exists popped'. exact Hfin.
Qed.

(** X16.  When [findAndAssignClusters], entered with empty follower lists,
    has completed: every follower has a nearest higher among the points and
    ends with the same cluster index as that point, be it the id of a
    cluster or the -1 of a point that no seed reaches. *)
Theorem followers_inherit_cluster (fuel : nat) (a a' : ClusteringAlgo) :
  Points.followers (points_ a) = replicate (Z.to_nat (Points.n (points_ a))) [] ->
  findAndAssignClusters fuel a = Ret a' ->
  forall j, 0 <= j < Points.n (points_ a) -> is_follower a j = true ->
    0 <= nh_at a j < Points.n (points_ a) /\
    exists c, vget (Points.clusterIndex (points_ a')) j = Ret c /\
              vget (Points.clusterIndex (points_ a')) (nh_at a j) = Ret c.
Proof.
  intros HF0 Hrun j Hj Hfol.
  destruct (expansion_result fuel a a' HF0 Hrun) as (Hnh & popped & Hfin).
  split; [now apply Hnh|].
  now apply (proj1 (expand_inv_final a popped _ Hnh Hfin)).
Qed.

(** X17.  When [findAndAssignClusters], entered with empty follower lists,
    has completed, every cluster index is -1 or the id of a cluster: it is
    less than the number of seeds. *)
Theorem cluster_index_in_range (fuel : nat) (a a' : ClusteringAlgo) :
  Points.followers (points_ a) = replicate (Z.to_nat (Points.n (points_ a))) [] ->
  findAndAssignClusters fuel a = Ret a' ->
  forall i, 0 <= i < Points.n (points_ a) ->
    exists c, vget (Points.clusterIndex (points_ a')) i = Ret c /\
              -1 <= c < seeds_before a (Points.n (points_ a)).
Proof.
  intros HF0 Hrun i Hi.
  destruct (expansion_result fuel a a' HF0 Hrun) as (Hnh & popped & Hfin).
  now apply (proj2 (expand_inv_final a popped _ Hnh Hfin)).
Qed.

(** on [near_pair], point 0 follows point 1, the seed of cluster 0 *)
Lemma followers_inherit_cluster_witness :
  exists a',
    findAndAssignClusters 10 (Examples.searched Examples.near_pair) = Ret a' /\
    is_follower (Examples.searched Examples.near_pair) 0 = true /\
    nh_at (Examples.searched Examples.near_pair) 0 = 1 /\
    exists c,
      vget (Points.clusterIndex (points_ a')) 0 = Ret c /\
      vget (Points.clusterIndex (points_ a'))
        (nh_at (Examples.searched Examples.near_pair) 0) = Ret c.
Proof.
  eexists. split; [vm_compute; reflexivity|].
  assert (Hf : is_follower (Examples.searched Examples.near_pair) 0 = true)
    by (vm_compute; reflexivity).
  split; [exact Hf|]. split; [vm_compute; reflexivity|].
  match goal with |- exists c, vget (Points.clusterIndex (points_ ?r)) _ = _ /\ _ =>
    assert (Hrun : findAndAssignClusters 10 (Examples.searched Examples.near_pair) = Ret r)
      by (vm_compute; reflexivity)
  end.
  assert (HF : Points.followers (points_ (Examples.searched Examples.near_pair)) =
               replicate (Z.to_nat (Points.n (points_ (Examples.searched Examples.near_pair)))) [])
    by (vm_compute; reflexivity).
  assert (Hi : 0 <= 0 < Points.n (points_ (Examples.searched Examples.near_pair)))
    by (vm_compute; split; [discriminate | reflexivity]).
  exact (proj2 (followers_inherit_cluster 10 _ _ HF Hrun 0 Hi Hf)).
Defined.

(** on [near_pair] there is one seed, and both points are in cluster 0 *)
Lemma cluster_index_in_range_witness :
  exists a',
    findAndAssignClusters 10 (Examples.searched Examples.near_pair) = Ret a' /\
    seeds_before (Examples.searched Examples.near_pair)
      (Points.n (points_ (Examples.searched Examples.near_pair))) = 1 /\
    exists c,
      vget (Points.clusterIndex (points_ a')) 0 = Ret c /\
      -1 <= c < seeds_before (Examples.searched Examples.near_pair)
                  (Points.n (points_ (Examples.searched Examples.near_pair))).
Proof.
  eexists. split; [vm_compute; reflexivity|]. split; [vm_compute; reflexivity|].
  match goal with |- exists c, vget (Points.clusterIndex (points_ ?r)) _ = _ /\ _ =>
    assert (Hrun : findAndAssignClusters 10 (Examples.searched Examples.near_pair) = Ret r)
      by (vm_compute; reflexivity)
  end.
  assert (HF : Points.followers (points_ (Examples.searched Examples.near_pair)) =
               replicate (Z.to_nat (Points.n (points_ (Examples.searched Examples.near_pair)))) [])
    by (vm_compute; reflexivity).
  assert (Hi : 0 <= 0 < Points.n (points_ (Examples.searched Examples.near_pair)))
    by (vm_compute; split; [discriminate | reflexivity]).
  exact (cluster_index_in_range 10 _ _ HF Hrun 0 Hi).
Defined.

(** ** The links of the nearest-higher search form a forest *)

Section Forest.
Context {C : Collaborators}.

Lemma higher_loop_lengths (t : tiles) (a : ClusteringAlgo) (dm : float) (l : list Z)
  (D : list float) (N : list Z) (a' : ClusteringAlgo) :
  for_each l (higher_point t dm) (with_results a D N) = Ret a' ->
  exists D' N',
    a' = with_results a D' N' /\ length D' = length D /\ length N' = length N.
Proof.
  revert D N. induction l as [|i l IH]; intros D N Hrun.
  - cbn in Hrun. injection Hrun as <-. eauto.
  - cbn [for_each] in Hrun. inv_bind Hrun.
    apply higher_point_result in Hrun0 as (sb & delta_i & nh_i & _ & _ & _ & -> & _).
    destruct (IH _ _ Hrun) as (D' & N' & -> & HD & HN).
    exists D', N'. rewrite HD, HN, !length_insert. auto.
Qed.

Lemma calculateDistanceToHigher_frame (t : tiles) (a a' : ClusteringAlgo) :
  calculateDistanceToHigher t a = Ret a' ->
  exists D' N',
    a' = with_results a D' N' /\
    length D' = length (Points.delta (points_ a)) /\
    length N' = length (Points.nearestHigher (points_ a)).
Proof.
  unfold calculateDistanceToHigher. fold (dm_of a). intros Hrun.
  assert (Hrun' : for_each (range (Points.n (points_ a))) (higher_point t (dm_of a))
                    (with_results a (Points.delta (points_ a))
                       (Points.nearestHigher (points_ a))) = Ret a')
    by (now rewrite <- with_results_self).
  now apply higher_loop_lengths in Hrun'.
Qed.

(** X18.  After [calculateDistanceToHigher], on a [rho] of [n] entries, the
    links [nearestHigher] have no cycle: following them from a point, for
    any number of steps, never leads back to that point.  Every step goes to
    a point that is denser, or as dense with a greater index, until a point
    without a link is reached. *)
Theorem nearestHigher_acyclic (t : tiles) (a a' : ClusteringAlgo) :
  calculateDistanceToHigher t a = Ret a' ->
  Z.of_nat (length (Points.rho (points_ a))) = Points.n (points_ a) ->
  forall (i : Z) (k : nat), 0 <= i < Points.n (points_ a) ->
    nh_iter a' (S k) i <> i /\
    (nh_iter a' (S k) i = -1 \/
     (0 <= nh_iter a' (S k) i < Points.n (points_ a) /\
      higher a' i (nh_iter a' (S k) i) = true)).
Proof.
  intros Hrun Hlen i k Hi.
  destruct (nearest_higher_links t a a' Hrun) as (Hn & Hlinks).
  destruct (calculateDistanceToHigher_frame t a a' Hrun) as (D' & N' & Ha' & _ & _).
  assert (Hrange : forall x y, higher a' x y = true -> 0 <= y < Points.n (points_ a)).
  { intros x y H. apply higher_number, rho_at_number in H.
    rewrite Ha' in H. cbn in H. lia. }
  assert (Hstep : forall y, 0 <= y < Points.n (points_ a) ->
            nh_at a' y = -1 \/
            (0 <= nh_at a' y < Points.n (points_ a) /\ higher a' y (nh_at a' y) = true)).
  { intros y Hy. destruct (Z.eq_dec (nh_at a' y) (-1)) as [?|Hne]; [now left|right].
    pose proof (proj1 (Hlinks y Hy) Hne) as Hh. split; [eapply Hrange; exact Hh|exact Hh]. }
  assert (Hchain : nh_iter a' (S k) i = -1 \/
                   (0 <= nh_iter a' (S k) i < Points.n (points_ a) /\
                    higher a' i (nh_iter a' (S k) i) = true)).
  { induction k as [|k IH].
    - exact (Hstep i Hi).
    - change (nh_iter a' (S (S k)) i) with (nh_at a' (nh_iter a' (S k) i)).
      destruct IH as [-> | (Hr & Hh)]; [now left|].
      destruct (Hstep _ Hr) as [?|(Hr' & Hh')]; [now left|right].
      split; [exact Hr'|]. eapply higher_trans; eassumption. }
  split; [|exact Hchain].
  destruct Hchain as [-> | (_ & Hh)]; [lia|].
  intros Heq. rewrite Heq, higher_irrefl in Hh. discriminate.
Qed.
End Forest.

(** on [near_pair] the one link goes from point 0 to point 1, which has none *)
Lemma nearestHigher_acyclic_witness :
  exists a',
    calculateDistanceToHigher (C := Lattice.collaborators)
      (Examples.built Examples.near_pair).1 (Examples.built Examples.near_pair).2 = Ret a' /\
    nh_iter a' 1 0 = 1 /\ nh_iter a' 2 0 = -1 /\
    nh_iter a' 2 0 <> 0.
Proof.
  eexists. split; [vm_compute; reflexivity|].
  split; [vm_compute; reflexivity|]. split; [vm_compute; reflexivity|].
  match goal with |- nh_iter ?r _ _ <> _ =>
    assert (Hrun : calculateDistanceToHigher (C := Lattice.collaborators)
                     (Examples.built Examples.near_pair).1
                     (Examples.built Examples.near_pair).2 = Ret r)
      by (vm_compute; reflexivity)
  end.
  refine (proj1 (nearestHigher_acyclic (C := Lattice.collaborators) _ _ _ Hrun _ 0 1%nat _)).
  - vm_compute. reflexivity.
  - vm_compute. split; [discriminate|reflexivity].
Defined.

(** ** What [makeClusters] leaves alone *)

Lemma find_seeds_lengths (a : ClusteringAlgo) (m : nat) (s : Z * list Z * Points.t) :
  for_each (range (Z.of_nat m)) (classify_point a) (0, [], points_ a) = Ret s ->
  exists F CI IS,
    s.2 = with_class (points_ a) F CI IS /\
    length F = length (Points.followers (points_ a)) /\
    length CI = length (Points.clusterIndex (points_ a)) /\
    length IS = length (Points.isSeed (points_ a)).
Proof.
  revert s. induction m as [|m IH]; intros s H.
  - cbn in H. injection H as <-.
    exists (Points.followers (points_ a)), (Points.clusterIndex (points_ a)),
           (Points.isSeed (points_ a)).
    split; [apply with_class_self|]. auto.
  - replace (Z.of_nat (S m)) with (Z.of_nat m + 1) in * by lia.
    rewrite range_succ, for_each_snoc in H by lia. inv_bind H.
    destruct (IH _ H0) as (F & CI & IS & Hq & HF & HCI & HIS).
    destruct x as [[nc st] q]. cbn [fst snd] in *. subst q.
    apply classify_point_cases in H as [_ Hcases]. cbn zeta in Hcases.
    destruct Hcases as [(_ & _ & ->)|[(_ & fl & _ & _ & ->)|(_ & ->)]]; cbn [fst snd];
      eexists _, _, _; (split; [reflexivity|]); rewrite ?length_insert; auto.
Qed.

Lemma pass_id_length (i : Z) (fl : list Z) (CI st CI' st' : list Z) :
  for_each fl (pass_id i) (CI, st) = Ret (CI', st') -> length CI' = length CI.
Proof.
  revert CI st. induction fl as [|j fl IH]; intros CI st H.
  - cbn in H. now injection H as <- <-.
  - cbn [for_each] in H. inv_bind H. destruct x as [CI1 st1].
    unfold pass_id in H0. inv_bind H0. inv_bind H0. injection H0 as <- <-.
    apply vset_Ret in H2 as [Hj ->].
    rewrite (IH _ _ H). apply length_insert.
Qed.

Lemma expand_clusters_length (fuel : nat) (st : list Z) (p : Points.t)
  (F : list (list Z)) (CI IS : list Z) (q : Points.t) :
  expand_clusters fuel st (with_class p F CI IS) = Ret q ->
  exists CI', q = with_class p F CI' IS /\ length CI' = length CI.
Proof.
  revert st CI. induction fuel as [|fuel IH]; intros st CI H.
  - destruct st; cbn in H; [|discriminate]. injection H as <-. eauto.
  - destruct st as [|i st]; cbn [expand_clusters] in H.
    + injection H as <-. eauto.
    + inv_bind H. destruct (for_each x (pass_id i) _) as [[CI1 st1]| | |] eqn:Hpass;
        cbn in H; try discriminate.
      change (expand_clusters fuel st1 (with_class p F CI1 IS) = Ret q) in H.
      destruct (IH _ _ H) as (CI' & -> & Hlen).
      exists CI'. split; [reflexivity|]. rewrite Hlen.
      eapply pass_id_length. exact Hpass.
Qed.

Lemma findAndAssignClusters_frame (fuel : nat) (a a' : ClusteringAlgo) :
  findAndAssignClusters fuel a = Ret a' ->
  exists F CI IS,
    a' = set_points a (with_class (points_ a) F CI IS) /\
    length F = length (Points.followers (points_ a)) /\
    length CI = length (Points.clusterIndex (points_ a)) /\
    length IS = length (Points.isSeed (points_ a)).
Proof.
  unfold findAndAssignClusters, find_seeds. rewrite <- range_of_to_nat. intros H.
  inv_bind H. destruct x as [[nc st] q]. inv_bind H. injection H as <-.
  apply find_seeds_lengths in H0 as (F & CI & IS & Hq & HF & HCI & HIS).
  cbn [snd] in Hq. subst q.
  apply expand_clusters_length in H1 as (CI' & -> & Hlen).
  exists F, CI', IS. split; [reflexivity|]. split; [exact HF|]. split; [congruence|exact HIS].
Qed.

Lemma calculateNTiles_cout (ppt : Z) (a : ClusteringAlgo) (cout cout' : list string)
  (ntiles : Z) :
  calculateNTiles ppt a cout = Ret (ntiles, cout') ->
  cout' = cout \/ cout' = cout ++ [too_high_message].
Proof.
  unfold calculateNTiles. intros H. inv_bind H.
  destruct (x =? 0); cbn in H; injection H as _ <-; auto.
Qed.

(** X19.  A call of [makeClusters] that returns has changed neither the
    configuration of the engine nor the coordinates, the weights and the
    number of points; every result array has the length it had; the two
    arrays returned are the engine's [clusterIndex] and [isSeed]; and the
    output stream has received nothing, or the one message of
    [calculateNTiles]. *)
Theorem makeClusters_frame {C : Collaborators} (fuel : nat) (ker : kernel)
  (a a' : ClusteringAlgo) (cout cout' : list string) (clusterIndex isSeed : list Z) :
  makeClusters fuel ker a cout = Ret (clusterIndex, isSeed, a', cout') ->
  (dc_ a' = dc_ a /\ rhoc_ a' = rhoc_ a /\ outlierDeltaFactor_ a' = outlierDeltaFactor_ a /\
   pointsPerTile_ a' = pointsPerTile_ a /\ domains_ a' = domains_ a) /\
  (Points.coordinates_ (points_ a') = Points.coordinates_ (points_ a) /\
   Points.weight (points_ a') = Points.weight (points_ a) /\
   Points.n (points_ a') = Points.n (points_ a)) /\
  (length (Points.rho (points_ a')) = length (Points.rho (points_ a)) /\
   length (Points.delta (points_ a')) = length (Points.delta (points_ a)) /\
   length (Points.nearestHigher (points_ a')) = length (Points.nearestHigher (points_ a)) /\
   length (Points.followers (points_ a')) = length (Points.followers (points_ a)) /\
   length (Points.clusterIndex (points_ a')) = length (Points.clusterIndex (points_ a)) /\
   length (Points.isSeed (points_ a')) = length (Points.isSeed (points_ a))) /\
  clusterIndex = Points.clusterIndex (points_ a') /\
  isSeed = Points.isSeed (points_ a') /\
  (cout' = cout \/ cout' = cout ++ [too_high_message]).
Proof.
  unfold makeClusters. intros H.
  inv_bind H. destruct x as [Tiles cout1]. inv_bind H. inv_bind H. inv_bind H.
  injection H as <- <- <- <-.
  assert (Hcout : cout1 = cout \/ cout1 = cout ++ [too_high_message]).
  { unfold build_tiles in H0.
    apply bind_Ret in H0 as ([ntiles cout2] & Hnt & H0).
    apply bind_Ret in H0 as ([sizes t] & _ & H0).
    apply bind_Ret in H0 as (t' & _ & H0). injection H0 as _ <-.
    eapply calculateNTiles_cout. exact Hnt. }
  apply calculateLocalDensity_result in H1 as (R' & -> & HR & _).
  apply calculateDistanceToHigher_frame in H2 as (D' & N' & -> & HD & HN).
  apply findAndAssignClusters_frame in H3 as (F & CI & IS & -> & HF & HCI & HIS).
  cbn in HD, HN, HF, HCI, HIS |- *.
  repeat split; try assumption; try reflexivity.
Qed.

(** the one call on [near_pair] *)
Lemma makeClusters_frame_witness :
  exists a',
    makeClusters (C := Lattice.collaborators) 10 Lattice.flat Examples.near_pair []
    = Ret ([0; 0], [0; 1], a', []) /\
    Points.coordinates_ (points_ a') = Points.coordinates_ (points_ Examples.near_pair) /\
    Points.clusterIndex (points_ a') = [0; 0].
Proof.
  eexists. split; [vm_compute; reflexivity|].
  match goal with |- Points.coordinates_ (points_ ?r) = _ /\ _ =>
    assert (Hrun : makeClusters (C := Lattice.collaborators) 10 Lattice.flat
                     Examples.near_pair [] = Ret ([0; 0], [0; 1], r, []))
      by (vm_compute; reflexivity)
  end.
  destruct (makeClusters_frame (C := Lattice.collaborators) 10 Lattice.flat
              Examples.near_pair _ [] _ _ _ Hrun)
    as (_ & (Hc & _) & _ & HCI & _).
  split; [exact Hc|]. symmetry. exact HCI.
Defined.

(** ** The two calls of a client: [setPoints], then [makeClusters] *)

(** the flags and the ids of the seeds, as the first loop leaves them and the
    second keeps them *)
Lemma classification_arrays (fuel : nat) (a a' : ClusteringAlgo) :
  Points.isSeed (points_ a) = replicate (Z.to_nat (Points.n (points_ a))) 0 ->
  Points.followers (points_ a) = replicate (Z.to_nat (Points.n (points_ a))) [] ->
  findAndAssignClusters fuel a = Ret a' ->
  forall i, 0 <= i < Points.n (points_ a) ->
    vget (Points.isSeed (points_ a')) i = Ret (if is_seed a i then 1 else 0) /\
    (is_seed a i = true ->
       vget (Points.clusterIndex (points_ a')) i = Ret (seeds_before a i)).
Proof.
  intros HIS0 HF0 Hrun i Hi. unfold findAndAssignClusters in Hrun.
  inv_bind Hrun. destruct x as [[nc st] q]. inv_bind Hrun. injection Hrun as <-.
  apply find_seeds_result in Hrun0 as (F & CI & IS & Hq & _ & _ & HIS & HCI & HF & _).
  cbn [fst snd] in *. subst q.
  apply expand_clusters_frame in Hrun1 as (CI' & -> & Hframe).
  cbn [points_ set_points with_class Points.isSeed Points.clusterIndex Points.followers].
  replace (Z.max 0 (Points.n (points_ a))) with (Points.n (points_ a)) in * by lia.
  rewrite HF0 in HF. rewrite HIS0 in HIS.
  pose proof (HCI i) as HCIi. pose proof (HIS i) as HISi.
  rewrite vget_replicate in HISi.
  destruct (Z.leb_spec 0 i), (Z.ltb_spec i (Points.n (points_ a))),
    (Z.ltb_spec i (Z.of_nat (Z.to_nat (Points.n (points_ a))))); try lia.
  cbn [andb] in *. split.
  - rewrite HISi. now destruct (is_seed a i).
  - intros Hs. rewrite Hframe, HCIi, Hs; [reflexivity|].
    intros k fl Hk Hmem. rewrite HF, vget_replicate in Hk.
    destruct (_ && _); cbn in Hk; [|discriminate]. injection Hk as <-.
    apply registered_spec in Hmem as (_ & Hfol & _).
    rewrite (follower_not_seed _ _ Hfol) in Hs. discriminate.
Qed.

(** counting the flags is counting the seeds *)
Lemma ones_before_seeds (a : ClusteringAlgo) (IS : list Z) (m : nat) :
  (forall i, 0 <= i < Z.of_nat m -> vget IS i = Ret (if is_seed a i then 1 else 0)) ->
  ones_before IS (Z.of_nat m) = seeds_before a (Z.of_nat m).
Proof.
  induction m as [|m IH]; intros H.
  - reflexivity.
  - replace (Z.of_nat (S m)) with (Z.of_nat m + 1) by lia.
    rewrite seeds_before_succ by lia. rewrite <- IH by (intros i Hi; apply H; lia).
    unfold ones_before.
    replace (Z.to_nat (Z.of_nat m + 1)) with (S m) by lia. rewrite Nat2Z.id.
    pose proof (H (Z.of_nat m)) as Hm. rewrite vget_Ret, Nat2Z.id in Hm.
    destruct Hm as [_ Hm]; [lia|].
    rewrite (take_S_r _ _ _ Hm), filter_app, length_app.
    destruct (is_seed a (Z.of_nat m)).
    + rewrite filter_cons_True, filter_nil by reflexivity. cbn [length]. lia.
    + rewrite filter_cons_False, filter_nil by discriminate. cbn [length]. lia.
Qed.

(** X20.  The two calls of a client.  After [setPoints(n, ...)] on a newly
    constructed engine has returned false, a [makeClusters] that returns
    gives two arrays of [n] entries each.  Every [isSeed[i]] is 0 or 1; a
    point with [isSeed[i] == 1] has for cluster index the number of
    seeds of smaller index, so the seeds carry the ids 0, 1, 2, ... in the
    order of their indices; and every cluster index is -1 or less than the
    number of seeds. *)
Theorem makeClusters_contract {C : Collaborators} (n : Z) (coordinates : list (list float))
  (weight : list float) (dc rhoc odf : float) (ppt : Z) (domains : list Domain.domain_t)
  (a a' : ClusteringAlgo) (fuel : nat) (ker : kernel) (cout cout' : list string)
  (clusterIndex isSeed : list Z) :
  setPoints n coordinates weight (ClusteringAlgo_new dc rhoc odf ppt domains)
  = Ret (false, a) ->
  makeClusters fuel ker a cout = Ret (clusterIndex, isSeed, a', cout') ->
  0 < n /\
  Z.of_nat (length clusterIndex) = n /\ Z.of_nat (length isSeed) = n /\
  forall i, 0 <= i < n ->
    (vget isSeed i = Ret 0 \/ vget isSeed i = Ret 1) /\
    (vget isSeed i = Ret 1 -> vget clusterIndex i = Ret (ones_before isSeed i)) /\
    exists c, vget clusterIndex i = Ret c /\ -1 <= c < ones_before isSeed n.
Proof.
  intros Hset Hrun.
  assert (Hn : 0 < n).
  { destruct (Z.lt_trichotomy n 0) as [Hneg|[->|?]]; [| |assumption].
    - rewrite setPoints_negative in Hset by assumption. discriminate.
    - rewrite setPoints_zero in Hset. discriminate. }
  split; [exact Hn|].
  unfold setPoints, ClusteringAlgo_new in Hset.
  cbn [points_ Points.fresh Points.rho Points.delta Points.nearestHigher Points.followers
       Points.clusterIndex Points.isSeed Points.n] in Hset.
  destruct (Z.eqb_spec n 0); [lia|].
  rewrite !resize_empty in Hset by lia. cbn [mbind outcome_bind] in Hset.
  injection Hset as <-.
  unfold makeClusters in Hrun.
  apply bind_Ret in Hrun as ([Tiles cout1] & _ & Hrun).
  apply bind_Ret in Hrun as (a1 & H1 & Hrun).
  apply bind_Ret in Hrun as (a2 & H2 & Hrun).
  apply bind_Ret in Hrun as (a3 & H3 & Hrun).
  injection Hrun as <- <- <- _.
  apply calculateLocalDensity_result in H1 as (R' & -> & _).
  apply calculateDistanceToHigher_frame in H2 as (D' & N' & -> & _ & _).
  match type of H3 with findAndAssignClusters _ ?e = _ => set (b := e) in * end.
  assert (Hnb : Points.n (points_ b) = n) by reflexivity.
  assert (HIS0 : Points.isSeed (points_ b) = replicate (Z.to_nat (Points.n (points_ b))) 0)
    by reflexivity.
  assert (HF0 : Points.followers (points_ b) = replicate (Z.to_nat (Points.n (points_ b))) [])
    by reflexivity.
  pose proof (classification_arrays fuel b a3 HIS0 HF0 H3) as Hcls.
  destruct (expansion_result fuel b a3 HF0 H3) as (Hnh & popped & Hfin).
  pose proof (proj2 (expand_inv_final b popped _ Hnh Hfin)) as Hrange.
  destruct (findAndAssignClusters_frame fuel b a3 H3) as (F & CI & IS & -> & _ & HlCI & HlIS).
  cbn [points_ set_points with_class Points.isSeed Points.clusterIndex] in *.
  rewrite Hnb in *.
  assert (Hones : forall m, 0 <= m <= n -> ones_before IS m = seeds_before b m).
  { intros m Hm. rewrite <- (Z2Nat.id m) by lia. apply ones_before_seeds.
    intros i Hi. apply Hcls. lia. }
  split; [rewrite HlCI; unfold b; cbn; rewrite length_replicate; lia|].
  split; [rewrite HlIS; unfold b; cbn; rewrite length_replicate; lia|].
  intros i Hi. destruct (Hcls i Hi) as (Hflag & Hid). split; [|split].
  - rewrite Hflag. destruct (is_seed b i); auto.
  - intros H1. rewrite Hflag in H1. destruct (is_seed b i) eqn:Hs; [|discriminate].
    rewrite Hones by lia. now apply Hid.
  - rewrite Hones by lia. now apply Hrange.
Qed.

(** [near_pair] is what [setPoints] makes of a new engine; its one seed is
    point 1, with the id 0 *)
Lemma makeClusters_contract_witness :
  setPoints 2 [[F32.of_Z 0; F32.of_Z 1]] [F32.of_Z 1; F32.of_Z 1]
    (ClusteringAlgo_new (F32.of_Z 2) (F32.of_Z 1) (F32.of_Z 2) 2 [Domain.default])
  = Ret (false, Examples.near_pair) /\
  exists a',
    makeClusters (C := Lattice.collaborators) 10 Lattice.flat Examples.near_pair []
    = Ret ([0; 0], [0; 1], a', []) /\
    Z.of_nat (length [0; 0]) = 2 /\
    (vget [0; 1] 1 = Ret 1 -> vget [0; 0] 1 = Ret (ones_before [0; 1] 1)).
Proof.
  assert (Hset : setPoints 2 [[F32.of_Z 0; F32.of_Z 1]] [F32.of_Z 1; F32.of_Z 1]
                   (ClusteringAlgo_new (F32.of_Z 2) (F32.of_Z 1) (F32.of_Z 2) 2
                      [Domain.default])
                 = Ret (false, Examples.near_pair)) by (vm_compute; reflexivity).
  split; [exact Hset|].
  eexists. split; [vm_compute; reflexivity|].
  assert (Hrun : exists r,
            makeClusters (C := Lattice.collaborators) 10 Lattice.flat Examples.near_pair []
            = Ret ([0; 0], [0; 1], r, [])) by (eexists; vm_compute; reflexivity).
  destruct Hrun as (r & Hrun).
  destruct (makeClusters_contract (C := Lattice.collaborators) 2 _ _ _ _ _ _ _
              Examples.near_pair r 10 Lattice.flat [] [] [0; 0] [0; 1] Hset Hrun)
    as (_ & Hlen & _ & Hall).
  split; [exact Hlen|].
  destruct (Hall 1) as (_ & Hid & _); [lia|]. exact Hid.
Defined.

(** ** Points without a nearest higher *)

Lemma F32_gtb_leb_false (x y : float) :
  F32.gtb x y = true -> F32.leb x y = true -> False.
Proof.
  rewrite F32_gtb_spec, F32_leb_spec. intros (_ & _ & H1) (_ & _ & [H2|H2]).
  - eapply lt3_irrefl, lt3_trans; eassumption.
  - rewrite H2 in H1. now apply lt3_irrefl in H1.
Qed.

Lemma for_each_undef_inv {S X} (I : S -> Prop) (l : list X) (body : X -> S -> outcome S)
  (x0 : X) (s : S) :
  I s ->
  (forall x s, I s -> settled (body x s) = true) ->
  (forall x s s', I s -> body x s = Ret s' -> I s') ->
  x0 ∈ l -> (forall s, I s -> body x0 s = Undef) ->
  for_each l body s = Undef.
Proof.
  intros Hs Hset Hstep Hin Hx0. revert s Hs.
  induction l as [|x l IH]; intros s Hs; [inversion Hin|].
  cbn [for_each]. apply elem_of_cons in Hin as [<-|Hin].
  - now rewrite Hx0.
  - destruct (settled_cases _ (Hset x s Hs)) as [(s' & Hr)| ->]; [|reflexivity].
    rewrite Hr. cbn [mbind outcome_bind]. apply IH; [assumption|].
    eapply Hstep; eassumption.
Qed.

Lemma settled_classify_point (a : ClusteringAlgo) (i : Z) (s : Z * list Z * Points.t) :
  settled (classify_point a i s) = true.
Proof. destruct s as [[nc st] p]. unfold classify_point. settle. Qed.

(** a follower without a nearest higher: the first loop reads
    [followers[-1]] *)
Lemma classify_point_undef (a : ClusteringAlgo) (i nc : Z) (st : list Z)
  (F : list (list Z)) (CI IS : list Z) :
  is_follower a i = true -> nh_at a i = -1 ->
  classify_point a i (nc, st, with_class (points_ a) F CI IS) = Undef.
Proof.
  intros Hfol Hnh. unfold classify_point.
  cbn [with_class Points.clusterIndex Points.set_clusterIndex Points.delta Points.rho
       Points.nearestHigher Points.followers Points.isSeed].
  destruct (settled_cases _ (settled_vset CI i (-1))) as [(CI1 & ->)| ->]; [|reflexivity].
  cbn [mbind outcome_bind].
  destruct (settled_cases _ (settled_vget (Points.delta (points_ a)) i))
    as [(d & Hd)|Hd]; rewrite Hd; [|reflexivity].
  cbn [mbind outcome_bind].
  destruct (settled_cases _ (settled_vget (Points.rho (points_ a)) i))
    as [(r & Hr)|Hr]; rewrite Hr; [|reflexivity].
  cbn [mbind outcome_bind].
  unfold is_follower, is_seed in Hfol.
  rewrite (delta_at_Ret _ _ _ Hd), (rho_at_Ret _ _ _ Hr) in Hfol.
  unfold seed_test, outlier_test in Hfol.
  apply andb_true_iff in Hfol as [Hs Ho]. apply negb_true_iff in Hs, Ho.
  rewrite Hs, Ho. cbn [negb].
  destruct (settled_cases _ (settled_vget (Points.nearestHigher (points_ a)) i))
    as [(j & Hj)|Hj]; rewrite Hj; [|reflexivity].
  cbn [mbind outcome_bind]. rewrite (nh_at_Ret _ _ _ Hj) in Hnh. subst j.
  reflexivity.
Qed.

Section Unlinked.
Context {C : Collaborators}.

(** a link that the search leaves is no longer than the radius of the search *)
Lemma nearest_higher_within (t : tiles) (a a' : ClusteringAlgo) :
  calculateDistanceToHigher t a = Ret a' ->
  forall i, 0 <= i < Points.n (points_ a) ->
    nh_at a' i <> -1 -> F32.leb (delta_at a' i) (dm_of a) = true.
Proof.
  unfold calculateDistanceToHigher. fold (dm_of a). intros Hrun.
  assert (Hrun' : for_each (range (Points.n (points_ a))) (higher_point t (dm_of a))
                    (with_results a (Points.delta (points_ a))
                       (Points.nearestHigher (points_ a))) = Ret a')
    by (now rewrite <- with_results_self).
  clear Hrun.
  apply higher_loop in Hrun' as (D' & N' & -> & Hl & _); [|apply NoDup_range].
  intros i Hi.
  destruct (Hl i) as (sb & delta_i & nh_i & _ & HD & HN & _ & _ & Hsel).
  { now apply elem_of_range. }
  unfold nh_at, delta_at.
  cbn [points_ with_results set_points Points.set_nearestHigher Points.set_delta
       Points.nearestHigher Points.delta].
  rewrite HN, HD. cbn [fst snd] in Hsel.
  destruct Hsel as [[[= -> ->] _]|(_ & _ & Hel & -> & _)]; [congruence|].
  intros _. unfold eligible in Hel. now apply andb_prop in Hel as [_ Hle].
Qed.

(** X23.  The comment at [nearestHigher_i{-1}] holds under these conditions:
    after [calculateDistanceToHigher], with [dc_] and the radius
    [outlierDeltaFactor_ * dc_] below the largest [float] and [rhoc_] a
    number, a point whose density is a number and that was left without a
    nearest higher is a seed or an outlier; and an outlier is always a point
    without a nearest higher. *)
Theorem unlinked_point_is_seed_or_outlier (t : tiles) (a0 a : ClusteringAlgo) :
  calculateDistanceToHigher t a0 = Ret a ->
  F32.ltb (dc_ a) F32.FLT_MAX = true ->
  F32.ltb (dm_of a) F32.FLT_MAX = true ->
  F32.is_nan (rhoc_ a) = false ->
  forall i, 0 <= i < Points.n (points_ a) -> F32.is_nan (rho_at a i) = false ->
    (nh_at a i = -1 -> is_seed a i = true \/ is_outlier a i = true) /\
    (is_outlier a i = true -> nh_at a i = -1).
Proof.
  intros Hsearch Hdc Hdm Hrhoc i Hi Hnum.
  destruct (nearest_higher_links t a0 a Hsearch) as [Hn Hlinks].
  assert (Hi0 : 0 <= i < Points.n (points_ a0)) by lia.
  assert (Hcfg : dm_of a = dm_of a0).
  { destruct (calculateDistanceToHigher_frame t a0 a Hsearch) as (D' & N' & -> & _).
    reflexivity. }
  split.
  - intros Hm1. pose proof (proj2 (Hlinks i Hi0) Hm1) as Hdelta.
    unfold is_outlier, is_seed, seed_test, outlier_test. rewrite Hdelta.
    fold (dm_of a). unfold F32.gtb.
    change (SFltb (dc_ a) F32.FLT_MAX) with (F32.ltb (dc_ a) F32.FLT_MAX).
    change (SFltb (dm_of a) F32.FLT_MAX) with (F32.ltb (dm_of a) F32.FLT_MAX).
    rewrite Hdc, Hdm. cbn [andb].
    destruct (F32_geb_or_ltb (rho_at a i) (rhoc_ a) Hnum Hrhoc) as [Hge|Hlt].
    + left. exact Hge.
    + right. rewrite Hlt, andb_true_r. apply negb_true_iff.
      destruct (F32.geb (rho_at a i) (rhoc_ a)) eqn:Hge; [|reflexivity].
      exfalso. unfold F32.geb in Hge.
      apply (F32_gtb_leb_false (rhoc_ a) (rho_at a i)); assumption.
  - intros Hout. destruct (Z.eq_dec (nh_at a i) (-1)) as [?|Hne]; [assumption|].
    exfalso. pose proof (nearest_higher_within t a0 a Hsearch i Hi0 Hne) as Hle.
    rewrite <- Hcfg in Hle.
    unfold is_outlier, outlier_test in Hout. fold (dm_of a) in Hout.
    apply andb_true_iff in Hout as [_ Hout]. apply andb_true_iff in Hout as [Hgt _].
    exact (F32_gtb_leb_false _ _ Hgt Hle).
Qed.
End Unlinked.

(** on [near_pair], point 1 has no nearest higher and is a seed *)
Lemma unlinked_point_is_seed_or_outlier_witness :
  nh_at (Examples.searched Examples.near_pair) 1 = -1 /\
  (is_seed (Examples.searched Examples.near_pair) 1 = true \/
   is_outlier (Examples.searched Examples.near_pair) 1 = true).
Proof.
  assert (Hnh : nh_at (Examples.searched Examples.near_pair) 1 = -1)
    by (vm_compute; reflexivity).
  split; [exact Hnh|].
  assert (Hrun : calculateDistanceToHigher (C := Lattice.collaborators)
                   (Examples.built Examples.near_pair).1
                   (Examples.built Examples.near_pair).2
                 = Ret (Examples.searched Examples.near_pair))
    by (vm_compute; reflexivity).
  refine (proj1 (unlinked_point_is_seed_or_outlier (C := Lattice.collaborators)
                   _ _ _ Hrun _ _ _ 1 _ _) Hnh); vm_compute; try reflexivity.
  split; [discriminate|reflexivity].
Defined.

(** X24.  [findAndAssignClusters] registers a follower at
    [followers[nearestHigher[i]]] without looking at the index: when a point
    that is neither seed nor outlier has no nearest higher, the index is -1
    and the behaviour is undefined.  A point of low density and without
    nearest higher is in this case as soon as [outlierDeltaFactor_ * dc_] is
    not below the largest [float]. *)
Theorem unlinked_follower_undefined (fuel : nat) (a : ClusteringAlgo) (i : Z) :
  0 <= i < Points.n (points_ a) ->
  is_follower a i = true -> nh_at a i = -1 ->
  findAndAssignClusters fuel a = Undef.
Proof.
  intros Hi Hfol Hnh. unfold findAndAssignClusters. apply undef_bind_l.
  unfold find_seeds.
  apply (for_each_undef_inv
           (fun s => exists nc st F CI IS, s = (nc, st, with_class (points_ a) F CI IS))
           _ _ i).
  - exists 0, [], (Points.followers (points_ a)), (Points.clusterIndex (points_ a)),
           (Points.isSeed (points_ a)). now rewrite <- with_class_self.
  - intros x s _. apply settled_classify_point.
  - intros x s s' (nc & st & F & CI & IS & ->) Hstep.
    apply classify_point_cases in Hstep as [_ Hcases]. cbn zeta in Hcases.
    destruct Hcases as [(_ & _ & ->)|[(_ & fl & _ & _ & ->)|(_ & ->)]]; eauto 10.
  - now apply elem_of_range.
  - intros s (nc & st & F & CI & IS & ->). now apply classify_point_undef.
Qed.

(** on [unbounded_radius] point 1 is below the density threshold and has no
    nearest higher; with the radius at the largest [float] it is no outlier,
    and [makeClusters] is undefined *)
Lemma unlinked_follower_undefined_witness :
  F32.ltb (dm_of Examples.unbounded_radius) F32.FLT_MAX = false /\
  is_follower (Examples.searched Examples.unbounded_radius) 1 = true /\
  nh_at (Examples.searched Examples.unbounded_radius) 1 = -1 /\
  findAndAssignClusters 10 (Examples.searched Examples.unbounded_radius) = Undef /\
  Examples.run Examples.unbounded_radius [] = Undef.
Proof.
  split; [vm_compute; reflexivity|].
  assert (Hfol : is_follower (Examples.searched Examples.unbounded_radius) 1 = true)
    by (vm_compute; reflexivity).
  assert (Hnh : nh_at (Examples.searched Examples.unbounded_radius) 1 = -1)
    by (vm_compute; reflexivity).
  split; [exact Hfol|]. split; [exact Hnh|]. split.
  - apply (unlinked_follower_undefined 10 _ 1); [|exact Hfol|exact Hnh].
    vm_compute. split; [discriminate|reflexivity].
  - vm_compute. reflexivity.
Defined.

